(** * The poker tool layer of adk-workshop and the table engine it drives

    [poker_multiagent/tools.py] exposes a heads-up Texas Hold'em table to
    agents as a set of callable tools.  The tools live in one module with
    two module-level globals ([game_table], [current_game_state]) and talk
    to the table engine ([HoldemTable], [Action]) through a handful of
    methods and attributes.

    The development has three layers:
    - [Py]: the Python values that cross the tool boundary, exceptions,
      and the few built-ins the tools use ([str], [repr] of a list of
      names, list indexing);
    - [Tools]: the tool functions of [tools.py], written over an abstract
      engine interface, as a state-and-exception monad over the module
      globals and the session's [tool_context];
    - [Table]: the table engine as the specification describes it
      (pot ledger, player cycle, stage machine, [reset], [step]). *)

From Stdlib Require Import ZArith String Ascii DecimalString QArith.
From stdpp Require Import base option list strings.

Local Open Scope string_scope.
Local Open Scope list_scope.
Local Open Scope Z_scope.
Local Set Warnings "-register-all".

(** ** Python values *)

Module Py.

(** Python's [float] is kept abstract: the tools divide two integers,
    multiply by an integer, convert, round and use infinity, so an
    interface with these five operations is all the model needs. *)
Class FloatOps (F : Type) := {
  (** [a / b] on two integers with [b <> 0] and a quotient within the
      range of a float (true division) *)
  int_truediv : Z -> Z -> F;
  (** [x * n] for a float and an integer *)
  float_mul_int : F -> Z -> F;
  (** [float(n)] *)
  float_of_int : Z -> F;
  (** [round(x, ndigits)] *)
  float_round : F -> Z -> F;
  (** [float("inf")] *)
  float_inf : F
}.

Section Values.
Context {F : Type}.

(** Objects handled by the tool layer: native values, the numpy scalars
    and arrays the engine may hand out, enumeration members, and whatever
    else the engine may put into a reward or an [info] dictionary.
    - [PNpInt], [PNpFloat], [PNpBool]: instances of [np.integer],
      [np.floating] and [np.bool_];
    - [PNpArray]: an [np.ndarray] by its elements; an array whose
      elements are all numpy scalars or such arrays is a numeric array,
      any other one is an array of objects;
    - [PEnum]: a member of an [Enum] class, whose [name] is a string;
    - [PNamed]: any other object with attributes [name] and [value];
    - [PDict]: a dictionary whose keys are strings, the only kind the
      tools build themselves; [PMap]: a dictionary with keys of any kind;
    - [POther]: any other object (a set, bytes, a numpy scalar of
      another kind, an instance of some class), by a description. *)
Inductive pyobj : Type :=
| PNone
| PBool (b : bool)
| PInt (n : Z)
| PFloat (x : F)
| PStr (s : string)
| PNpInt (n : Z)
| PNpFloat (x : F)
| PNpBool (b : bool)
| PNpArray (items : list pyobj)
| PEnum (nm : string) (val : Z)
| PNamed (name value : pyobj)
| PList (items : list pyobj)
| PTuple (items : list pyobj)
| PDict (items : list (string * pyobj))
| PMap (entries : list (pyobj * pyobj))
| POther (description : string).

(** Dictionaries are kept in insertion order, as Python keeps them. *)
Fixpoint dict_get (k : string) (d : list (string * pyobj)) : option pyobj :=
  match d with
  | [] => None
  | (k', v) :: d' => if String.eqb k k' then Some v else dict_get k d'
  end.

(** [d[k] = v]: an existing key keeps its place, a new one goes last. *)
Fixpoint dict_set (k : string) (v : pyobj) (d : list (string * pyobj))
  : list (string * pyobj) :=
  match d with
  | [] => [(k, v)]
  | (k', v') :: d' =>
      if String.eqb k k' then (k, v) :: d' else (k', v') :: dict_set k v d'
  end.

Definition field (k : string) (o : pyobj) : option pyobj :=
  match o with
  | PDict d => dict_get k d
  | _ => None
  end.

(** A chip amount as it crosses the tool boundary: a native integer
    that is not negative. *)
Definition is_chip_count (o : option pyobj) : Prop :=
  exists n, o = Some (PInt n) /\ 0 <= n.

(** The snapshot [r] shows hole cards of the seat at index [i]. *)
Definition shows_cards_of (r : pyobj) (i : nat) : Prop :=
  exists entries entry c cs,
    field "players" r = Some (PList entries)
    /\ entries !! i = Some entry
    /\ field "cards" entry = Some (PList (c :: cs)).

(** A snapshot handed to [observer] that shows hole cards of no other
    seat. *)
Definition hides_other_seats (r : pyobj) (observer : nat) : Prop :=
  forall i, i <> observer -> ~ shows_cards_of r i.

(** No entry of the dictionary [r] is a float. *)
Definition float_free (r : pyobj) : Prop :=
  forall key x, field key r <> Some (PFloat x).

End Values.
Arguments pyobj : clear implicits.

(** Exceptions: the class (only [KeyError] is told apart by a handler)
    and the text [str(e)] yields. *)
Inductive exn_class :=
  KeyError | ZeroDivisionError | OverflowError | IndexError | OtherError.

Record exn := { exn_cls : exn_class; exn_str : string }.

Inductive outcome (A : Type) :=
| Return (a : A)
| Raise (e : exn).
Arguments Return {A} a.
Arguments Raise {A} e.

(** [str(n)] for an integer. *)
Definition str_int (n : Z) : string := NilZero.string_of_int (Z.to_int n).

Fixpoint join (sep : string) (l : list string) : string :=
  match l with
  | [] => ""
  | [s] => s
  | s :: l' => s +:+ sep +:+ join sep l'
  end.

(** [repr] of a list of identifier-like strings: ['A', 'B']. *)
Definition repr_str_list (l : list string) : string :=
  "[" +:+ join ", " (map (fun s => "'" +:+ s +:+ "'") l) +:+ "]".

(** [l[i]] with Python's negative indices and [IndexError]. *)
Definition index {A} (l : list A) (i : Z) : outcome A :=
  let n := Z.of_nat (length l) in
  let j := if i <? 0 then i + n else i in
  if (0 <=? j) && (j <? n) then
    match l !! Z.to_nat j with
    | Some a => Return a
    | None => Raise {| exn_cls := IndexError; exn_str := "list index out of range" |}
    end
  else Raise {| exn_cls := IndexError; exn_str := "list index out of range" |}.

(** A member of an [Enum] class, as far as callers see it. *)
Record enum_member := { member_name : string; member_value : Z }.

(** [Cls[key]]: lookup of a member by name, [KeyError] when absent;
    [str] of a [KeyError] is the [repr] of the key. *)
Fixpoint enum_getitem (cls : list enum_member) (key : string) : outcome enum_member :=
  match cls with
  | [] => Raise {| exn_cls := KeyError; exn_str := "'" +:+ key +:+ "'" |}
  | m :: cls' => if String.eqb (member_name m) key then Return m
                 else enum_getitem cls' key
  end.

End Py.

(** ** The tool layer, [poker_multiagent/tools.py] *)

Module Tools.
Import Py.

(** A seat of the table, as the tools read it. *)
Record Player (card : Type) := {
  seat : Z;
  name : string;
  stack : Z;
  cards : list card
}.
Arguments seat {card} _.
Arguments name {card} _.
Arguments stack {card} _.
Arguments cards {card} _.

(** The engine as the tools use it: the [HoldemTable] constructor, the
    methods they call and the attributes they read.  A method works on
    the table in place and may raise.  Amounts and seat numbers are
    Python integers, as the data model of the specification has them;
    where the tools only pass an amount on, a numpy integer would come
    out the same, the conversion making it native. *)
Record Engine {F : Type} := {
  table : Type;
  card : Type;
  str_card : card -> string;
  (** the members of the [Action] enumeration, in definition order *)
  Action : list enum_member;
  (** [HoldemTable(initial_stacks, small_blind, big_blind, render,
      funds_plot, max_raises_per_player_round, raise_illegal_moves)] *)
  HoldemTable : Z -> Z -> Z -> bool -> bool -> Z -> bool -> outcome table;
  add_player : string -> table -> table * outcome unit;
  reset : table -> table * outcome unit;
  step : Z -> table -> table * outcome (pyobj F * pyobj F * bool * pyobj F);
  _get_environment : table -> table * outcome unit;
  _get_legal_moves : table -> table * outcome unit;
  (** attributes; [None] stands for an attribute that is [None] or, for
      [legal_moves], [winner_ix] and [min_call], not set *)
  stage : table -> option enum_member;
  table_cards : table -> list card;
  community_pot : table -> Z;
  current_round_pot : table -> Z;
  current_player : table -> option (Player card);
  players : table -> list (Player card);
  legal_moves : table -> option (list enum_member);
  done : table -> bool;
  winner_ix : table -> option Z;
  min_call : table -> option Z;
  dealer_pos : table -> Z;
  player_pots : table -> list Z;
  (** [player_cycle.alive] when there is a player cycle *)
  player_cycle : table -> option (list bool)
}.
Arguments Engine : clear implicits.

(** The engine methods a tool invoked, oldest first. *)
Inductive EngineCall :=
| CallHoldemTable (initial_stacks small_blind big_blind : Z)
    (render funds_plot : bool) (max_raises_per_player_round : Z)
    (raise_illegal_moves : bool)
| CallAddPlayer (agent_name : string)
| CallReset
| CallStep (action_value : Z)
| CallGetEnvironment
| CallGetLegalMoves.

Section Tools.
Context {F : Type} {FO : FloatOps F}.
(** [str.upper] *)
Variable upper : string -> string.
Variable E : Engine F.

Abbreviation pyobj := (pyobj F).

(** The module globals, with the trace of engine calls made so far.
    [if not game_table] tells [None] from a table object. *)
Record World := {
  game_table : option (table E);
  current_game_state : pyobj;
  engine_calls : list EngineCall
}.

(** The [tool_context] of a session: its [state] and [actions.escalate]. *)
Record ToolContext := {
  state : list (string * pyobj);
  actions_escalate : bool
}.

(** The module as imported: no table, an empty state dictionary. *)
Definition initial_world : World :=
  {| game_table := None; current_game_state := PDict []; engine_calls := [] |}.

(** *** The monad of tool bodies: globals and context threaded, exceptions *)

Definition Tool (A : Type) : Type :=
  World * ToolContext -> (World * ToolContext) * outcome A.

Definition ret {A} (a : A) : Tool A := fun s => (s, Return a).

Definition bind {A B} (m : Tool A) (k : A -> Tool B) : Tool B :=
  fun s => match m s with
           | (s', Return a) => k a s'
           | (s', Raise e) => (s', Raise e)
           end.

Definition raise {A} (e : exn) : Tool A := fun s => (s, Raise e).

Definition lift {A} (o : outcome A) : Tool A := fun s => (s, o).

(** [try: body except Exception as e: handler] *)
Definition try_except {A} (body : Tool A) (handler : exn -> Tool A) : Tool A :=
  fun s => match body s with
           | (s', Return a) => (s', Return a)
           | (s', Raise e) => handler e s'
           end.

Definition get_world : Tool World := fun s => (s, Return (fst s)).

Definition set_game_table (t : table E) : Tool unit :=
  fun '(w, tc) =>
    (({| game_table := Some t; current_game_state := current_game_state w;
         engine_calls := engine_calls w |}, tc), Return tt).

Definition set_current_game_state (d : pyobj) : Tool unit :=
  fun '(w, tc) =>
    (({| game_table := game_table w; current_game_state := d;
         engine_calls := engine_calls w |}, tc), Return tt).

Definition log_call (c : EngineCall) : Tool unit :=
  fun '(w, tc) =>
    (({| game_table := game_table w; current_game_state := current_game_state w;
         engine_calls := engine_calls w ++ [c] |}, tc), Return tt).

(** [tool_context.state[key] = value] *)
Definition set_state (key : string) (value : pyobj) : Tool unit :=
  fun '(w, tc) =>
    ((w, {| state := dict_set key value (state tc);
            actions_escalate := actions_escalate tc |}), Return tt).

Definition set_escalate (b : bool) : Tool unit :=
  fun '(w, tc) =>
    ((w, {| state := state tc; actions_escalate := b |}), Return tt).

(** [AttributeError] for a read of [attribute] on an instance of [cls]. *)
Definition attribute_error (cls attribute : string) : exn :=
  {| exn_cls := OtherError;
     exn_str := "'" +:+ cls +:+ "' object has no attribute '" +:+ attribute +:+ "'" |}.

Definition method_name (c : EngineCall) : string :=
  match c with
  | CallHoldemTable _ _ _ _ _ _ _ => "HoldemTable"
  | CallAddPlayer _ => "add_player"
  | CallReset => "reset"
  | CallStep _ => "step"
  | CallGetEnvironment => "_get_environment"
  | CallGetLegalMoves => "_get_legal_moves"
  end.

(** [game_table.method(...)]: the method runs on the table the global
    holds and leaves its changes there, also when it raises. *)
Definition call {A} (c : EngineCall) (method : table E -> table E * outcome A)
  : Tool A :=
  fun '(w, tc) =>
    match game_table w with
    | None => ((w, tc), Raise (attribute_error "NoneType" (method_name c)))
    | Some t =>
        let '(t', r) := method t in
        (({| game_table := Some t'; current_game_state := current_game_state w;
             engine_calls := engine_calls w ++ [c] |}, tc), r)
    end.

(** The table behind the global, for attribute reads, the first of
    which is [first_read]. *)
Definition the_table (first_read : string) : Tool (table E) :=
  fun '(w, tc) =>
    match game_table w with
    | None => ((w, tc), Raise (attribute_error "NoneType" first_read))
    | Some t => ((w, tc), Return t)
    end.

Notation "x <- m ;; k" := (bind m (fun x => k))
  (at level 20, m at level 99, k at level 200, only parsing).
Notation "m ;;; k" := (bind m (fun _ => k))
  (at level 100, k at level 200, right associativity, only parsing).

(** *** [_convert_numpy_types] *)

(** An element of a numeric array: a numpy scalar, or a numeric array
    for a further dimension. *)
Fixpoint numeric (x : pyobj) : bool :=
  match x with
  | PNpInt _ | PNpFloat _ | PNpBool _ => true
  | PNpArray sub => forallb numeric sub
  | _ => false
  end.

(** An element of a numeric array as [tolist] hands it out: the nearest
    native scalar, a nested list for a further dimension. *)
Fixpoint tolist_item (x : pyobj) : pyobj :=
  match x with
  | PNpInt n => PInt n
  | PNpFloat y => PFloat y
  | PNpBool b => PBool b
  | PNpArray sub => PList (map tolist_item sub)
  | other => other
  end.

(** [ndarray.tolist()]: the elements of a numeric array become native
    scalars; the elements of an array of objects are handed out as they
    are. *)
Definition tolist (items : list pyobj) : list pyobj :=
  if forallb numeric items then map tolist_item items else items.

(** The branches in the order of the source; the objects of the last
    three kinds ([PMap] apart, a dictionary) fall through to [else]. *)
Fixpoint _convert_numpy_types (obj : pyobj) : pyobj :=
  match obj with
  | PNpInt n => PInt n
  | PNpFloat x => PFloat x
  | PNpBool b => PBool b
  | PNpArray items => PList (tolist items)
  | PEnum nm _ => PStr nm
  | PNamed name _ => name
  | PDict items =>
      PDict (map (fun kv => let '(key, value) := kv in
                            (key, _convert_numpy_types value)) items)
  | PMap entries =>
      PMap (map (fun kv => let '(key, value) := kv in
                           (key, _convert_numpy_types value)) entries)
  | PList items => PList (map _convert_numpy_types items)
  | PTuple items => PTuple (map _convert_numpy_types items)
  | other => other
  end.

(** *** Helpers shared by the tools *)

Definition error_dict (message : string) : pyobj :=
  PDict [("status", PStr "error"); ("message", PStr message)].

Definition not_initialized : pyobj := error_dict "Game not initialized".

Definition opt_obj {A} (f : A -> pyobj) (o : option A) : pyobj :=
  match o with
  | Some a => f a
  | None => PNone
  end.

(** [[str(card) for card in cs] if cs else []] *)
Definition str_cards (cs : list (card E)) : pyobj :=
  PList (map (fun c => PStr (str_card E c)) cs).

(** [[action.name for action in moves]] *)
Definition action_names (moves : list enum_member) : pyobj :=
  PList (map (fun a => PStr (member_name a)) moves).

(** *** GameMaster tools *)

Definition initialize_poker_game (initial_stacks small_blind big_blind : Z)
  : Tool pyobj :=
  try_except
    (log_call (CallHoldemTable initial_stacks small_blind big_blind
                 false false 2 false) ;;;
     t <- lift (HoldemTable E initial_stacks small_blind big_blind
                  false false 2 false) ;;
     set_game_table t ;;;
     call (CallAddPlayer "Player1") (add_player E "Player1") ;;;
     call (CallAddPlayer "Player2") (add_player E "Player2") ;;;
     call CallReset (reset E) ;;;
     let game_state :=
       PDict [("game_initialized", PBool true);
              ("num_players", PInt 2);
              ("initial_stacks", PInt initial_stacks);
              ("small_blind", PInt small_blind);
              ("big_blind", PInt big_blind);
              ("current_hand", PInt 1)] in
     set_current_game_state game_state ;;;
     set_state "game_state" game_state ;;;
     set_state "game_table_initialized" (PBool true) ;;;
     ret (PDict [("status", PStr "success");
                 ("message", PStr "Poker game initialized with 2 players");
                 ("game_state", game_state)]))
    (fun e => ret (error_dict ("Failed to initialize game: " +:+ exn_str e))).

(** The entry of [state["players"]] for the player at index [i]. *)
Definition player_info (t : table E) (i : nat) (player : Player (card E)) : pyobj :=
  PDict [("seat", _convert_numpy_types (PInt (seat player)));
         ("name", PStr (name player));
         ("stack", _convert_numpy_types (PInt (stack player)));
         ("cards", str_cards (cards player));
         ("current_bet",
           match player_pots E t !! i with
           | Some bet => _convert_numpy_types (PInt bet)
           | None => PInt 0
           end);
         ("is_active",
           match player_cycle E t with
           | Some alive =>
               _convert_numpy_types
                 (PBool (match alive !! i with
                         | Some b => b
                         | None => false
                         end))
           | None => PBool true
           end)].

Definition get_game_state : Tool pyobj :=
  w <- get_world ;;
  match game_table w with
  | None => ret not_initialized
  | Some _ =>
      try_except
        (call CallGetEnvironment (_get_environment E) ;;;
         t <- the_table "stage" ;;
         let state0 :=
           PDict [("status", PStr "success");
                  ("stage", PStr (match stage E t with
                                  | Some st => member_name st
                                  | None => "UNKNOWN"
                                  end));
                  ("community_cards", str_cards (table_cards E t));
                  ("community_pot", _convert_numpy_types (PInt (community_pot E t)));
                  ("current_round_pot",
                    _convert_numpy_types (PInt (current_round_pot E t)));
                  ("current_player_seat",
                    opt_obj (fun p => _convert_numpy_types (PInt (seat p)))
                      (current_player E t));
                  ("current_player_name",
                    opt_obj (fun p => PStr (name p)) (current_player E t));
                  ("players", PList (imap (player_info t) (players E t)));
                  ("legal_actions",
                    match legal_moves E t with
                    | Some moves => action_names moves
                    | None => PList []
                    end);
                  ("done", PBool (done E t));
                  ("winner",
                    opt_obj (fun ix => _convert_numpy_types (PInt ix)) (winner_ix E t));
                  ("min_call",
                    _convert_numpy_types (PInt (default 0 (min_call E t))));
                  ("dealer_position", _convert_numpy_types (PInt (dealer_pos E t)))] in
         let state1 := _convert_numpy_types state0 in
         set_state "current_game_state" state1 ;;;
         ret state1)
        (fun e => ret (error_dict ("Error getting game state: " +:+ exn_str e)))
  end.

(** [try: body except KeyError: ... except Exception as e: ...] *)
Definition try_except_KeyError {A} (body : Tool A)
    (on_key_error : Tool A) (handler : exn -> Tool A) : Tool A :=
  try_except body
    (fun e => match exn_cls e with
              | KeyError => on_key_error
              | _ => handler e
              end).

Definition process_player_action (action_name : string) : Tool pyobj :=
  w <- get_world ;;
  match game_table w with
  | None => ret not_initialized
  | Some _ =>
      try_except_KeyError
        (action <- lift (enum_getitem (Action E) (upper action_name)) ;;
         r <- call (CallStep (member_value action)) (step E (member_value action)) ;;
         let '(observation, reward, done, info) := r in
         updated_state <- get_game_state ;;
         let result0 :=
           PDict [("status", PStr "success");
                  ("action_taken", PStr action_name);
                  ("reward", _convert_numpy_types reward);
                  ("done", PBool done);
                  ("game_state", updated_state);
                  ("info", _convert_numpy_types info)] in
         let result1 := _convert_numpy_types result0 in
         set_state "last_action" result1 ;;;
         ret result1)
        (ret (error_dict ("Invalid action: " +:+ action_name
                          +:+ ". Valid actions are: "
                          +:+ repr_str_list (map member_name (Action E)))))
        (fun e => ret (error_dict ("Error processing action: " +:+ exn_str e)))
  end.

(** The entry of [final_stacks], and of [winner], for a player. *)
Definition final_stack_entry (player : Player (card E)) : pyobj :=
  PDict [("player", PStr (name player));
         ("seat", _convert_numpy_types (PInt (seat player)));
         ("final_stack", _convert_numpy_types (PInt (stack player)))].

Definition winner_entry (player : Player (card E)) : pyobj :=
  PDict [("name", PStr (name player));
         ("seat", _convert_numpy_types (PInt (seat player)));
         ("final_stack", _convert_numpy_types (PInt (stack player)))].

(** The loop over [enumerate(game_table.players)]: every player is
    appended to [final_stacks], and a player with chips overwrites
    [winner]. *)
Fixpoint game_over_loop (ps : list (Player (card E)))
    (final_stacks : list pyobj) (winner : pyobj) : list pyobj * pyobj :=
  match ps with
  | [] => (final_stacks, winner)
  | player :: ps' =>
      game_over_loop ps' (final_stacks ++ [final_stack_entry player])
        (if 0 <? stack player then winner_entry player else winner)
  end.

Definition check_game_over : Tool pyobj :=
  w <- get_world ;;
  match game_table w with
  | None => ret not_initialized
  | Some _ =>
      try_except
        (t <- the_table "done" ;;
         let '(final_stacks, winner) :=
           if done E t then game_over_loop (players E t) [] PNone
           else ([], PNone) in
         ret (_convert_numpy_types
                (PDict [("status", PStr "success");
                        ("game_over", PBool (done E t));
                        ("winner", winner);
                        ("final_stacks", PList final_stacks)])))
        (fun e => ret (error_dict ("Error checking game over: " +:+ exn_str e)))
  end.

(** *** Player tools *)

Definition get_player_hand (player_seat : Z) : Tool pyobj :=
  w <- get_world ;;
  match game_table w with
  | None => ret not_initialized
  | Some _ =>
      try_except
        (t <- the_table "players" ;;
         if (player_seat <? 0) || (Z.of_nat (length (players E t)) <=? player_seat)
         then ret (error_dict ("Invalid player seat: " +:+ str_int player_seat))
         else
           player <- lift (index (players E t) player_seat) ;;
           ret (_convert_numpy_types
                  (PDict [("status", PStr "success");
                          ("player_name", PStr (name player));
                          ("seat", _convert_numpy_types (PInt player_seat));
                          ("hand_cards", str_cards (cards player));
                          ("stack", _convert_numpy_types (PInt (stack player)))])))
        (fun e => ret (error_dict ("Error getting player hand: " +:+ exn_str e)))
  end.

Definition get_legal_actions : Tool pyobj :=
  w <- get_world ;;
  match game_table w with
  | None => ret not_initialized
  | Some _ =>
      try_except
        (call CallGetLegalMoves (_get_legal_moves E) ;;;
         t <- the_table "legal_moves" ;;
         moves <- match legal_moves E t with
                  | Some moves => ret moves
                  | None => raise (attribute_error "HoldemTable" "legal_moves")
                  end ;;
         current_bet <- match current_player E t with
                        | Some p =>
                            bet <- lift (index (player_pots E t) (seat p)) ;;
                            ret (_convert_numpy_types (PInt bet))
                        | None => ret (PInt 0)
                        end ;;
         ret (_convert_numpy_types
                (PDict [("status", PStr "success");
                        ("legal_actions", action_names moves);
                        ("current_player",
                          opt_obj (fun p => PStr (name p)) (current_player E t));
                        ("current_player_seat",
                          opt_obj (fun p => _convert_numpy_types (PInt (seat p)))
                            (current_player E t));
                        ("min_call",
                          _convert_numpy_types (PInt (default 0 (min_call E t))));
                        ("current_bet", current_bet)])))
        (fun e => ret (error_dict ("Error getting legal actions: " +:+ exn_str e)))
  end.

(** The quotients that round to a float are those below the midpoint
    between the largest float and [2 ^ 1024]. *)
Definition float_overflow_bound : Z := 2 ^ 1024 - 2 ^ 970.

(** The quotient of [a] by [b <> 0] is beyond the range of a float. *)
Definition truediv_overflows (a b : Z) : bool :=
  float_overflow_bound * Z.abs b <=? Z.abs a.

(** [a / b] on two Python [int]s, the type the engine interface gives
    the amounts: [ZeroDivisionError] on a zero divisor, [OverflowError]
    when the quotient is beyond the range of a float, else the float
    nearest to the quotient. *)
Definition truediv (a b : Z) : outcome F :=
  if b =? 0 then
    Raise {| exn_cls := ZeroDivisionError; exn_str := "division by zero" |}
  else if truediv_overflows a b then
    Raise {| exn_cls := OverflowError;
             exn_str := "integer division result too large for a float" |}
  else Return (int_truediv a b).

Definition calculate_pot_odds : Tool pyobj :=
  w <- get_world ;;
  match game_table w with
  | None => ret not_initialized
  | Some _ =>
      try_except
        (t <- the_table "community_pot" ;;
         let total_pot := community_pot E t + current_round_pot E t in
         let call_amount := default 0 (min_call E t) in
         odds <- (if 0 <? call_amount then
                    pot_odds <- lift (truediv total_pot call_amount) ;;
                    share <- lift (truediv call_amount (total_pot + call_amount)) ;;
                    ret (pot_odds, float_mul_int share 100)
                  else
                    (* float(0) of the integer percentage *)
                    ret (float_inf, float_of_int 0)) ;;
         let '(pot_odds, pot_odds_percentage) := odds in
         ret (_convert_numpy_types
                (PDict [("status", PStr "success");
                        ("total_pot", _convert_numpy_types (PInt total_pot));
                        ("call_amount", _convert_numpy_types (PInt call_amount));
                        ("pot_odds", _convert_numpy_types (PFloat pot_odds));
                        ("pot_odds_percentage",
                          PFloat (float_round pot_odds_percentage 2));
                        ("current_player",
                          opt_obj (fun p => PStr (name p)) (current_player E t))])))
        (fun e => ret (error_dict ("Error calculating pot odds: " +:+ exn_str e)))
  end.

Definition exit_game_loop : Tool pyobj :=
  set_escalate true ;;;
  ret (PDict [("status", PStr "success");
              ("message", PStr "Game loop terminated")]).

End Tools.
End Tools.

(** ** The table engine *)

(** The engine modules ([game/env.py], [game/enums.py], [game/cycle.py])
    are described by the specification only; this module follows its
    sections 3 (data model), 4 (component design) and 7 (errors). *)

Module Table.
Import Py.

Inductive Suit := Clubs | Diamonds | Hearts | Spades.

(** Modelled from the spec: the card type of the missing engine, a rank
    2..14 (14 is the ace) and one of four suits. *)
Record Card := { rank : Z; suit : Suit }.

(** Modelled from the spec: the [Stage] enumeration of the missing
    [enums.py]. *)
Inductive Stage := PREFLOP | FLOP | TURN | RIVER | SHOWDOWN | END_HIDDEN.

(** Modelled from the spec: the illegal-action policy chosen when the
    table is built, reject with no state change or force a fold. *)
Inductive Policy := Reject | AutoFold.

(** Modelled from the spec: the error taxonomy of section 7. *)
Inductive Error := DeckExhausted | InsufficientStack | IllegalAction | NoActivePlayer.

Inductive result (A : Type) :=
| Ok (a : A)
| Err (e : Error).
Arguments Ok {A} a.
Arguments Err {A} e.

Definition Player := Tools.Player Card.

Definition with_stack (p : Player) (s : Z) : Player :=
  {| Tools.seat := Tools.seat p; Tools.name := Tools.name p;
     Tools.stack := s; Tools.cards := Tools.cards p |}.

Definition with_cards (p : Player) (cs : list Card) : Player :=
  {| Tools.seat := Tools.seat p; Tools.name := Tools.name p;
     Tools.stack := Tools.stack p; Tools.cards := cs |}.

(** Modelled from the spec: the parameters of [new_table] of the missing
    engine, as the [HoldemTable] constructor receives them. *)
Record Config := {
  initial_stacks : Z;
  small_blind : Z;
  big_blind : Z;
  max_raises : Z;
  policy : Policy
}.

(** Modelled from the spec: the pot ledger state of the missing engine;
    [contributed] is the per-player contribution over the whole hand,
    which the side pots are computed from. *)
Record PotLedger := {
  community_pot : Z;
  current_round_pot : Z;
  player_pots : list Z;
  contributed : list Z
}.

(** Modelled from the spec: the player cycle state of the missing
    [cycle.py]: dealer position, seat to act, the [alive] bitset, the
    acted-since-last-raise flags and the raise count of each seat. *)
Record PlayerCycle := {
  dealer_pos : nat;
  current : option nat;
  alive : list bool;
  acted : list bool;
  raises : list Z
}.

(** Modelled from the spec: the state of the missing [HoldemTable]. *)
Record Table := {
  config : Config;
  players : list Player;
  deck : list Card;
  table_cards : list Card;
  stage : Stage;
  hands : Z;
  ledger : PotLedger;
  cycle : PlayerCycle;
  done : bool;
  winner_seats : list nat
}.

Definition with_players (t : Table) (ps : list Player) : Table :=
  {| config := config t; players := ps; deck := deck t;
     table_cards := table_cards t; stage := stage t; hands := hands t;
     ledger := ledger t; cycle := cycle t; done := done t;
     winner_seats := winner_seats t |}.

Definition with_ledger (t : Table) (l : PotLedger) : Table :=
  {| config := config t; players := players t; deck := deck t;
     table_cards := table_cards t; stage := stage t; hands := hands t;
     ledger := l; cycle := cycle t; done := done t;
     winner_seats := winner_seats t |}.

Definition with_cycle (t : Table) (c : PlayerCycle) : Table :=
  {| config := config t; players := players t; deck := deck t;
     table_cards := table_cards t; stage := stage t; hands := hands t;
     ledger := ledger t; cycle := c; done := done t;
     winner_seats := winner_seats t |}.

Definition with_board (t : Table) (d cs : list Card) (st : Stage) : Table :=
  {| config := config t; players := players t; deck := d;
     table_cards := cs; stage := st; hands := hands t;
     ledger := ledger t; cycle := cycle t; done := done t;
     winner_seats := winner_seats t |}.

Definition with_current (c : PlayerCycle) (cur : option nat) : PlayerCycle :=
  {| dealer_pos := dealer_pos c; current := cur; alive := alive c;
     acted := acted c; raises := raises c |}.

(** The hand is over: nobody is to act any more. *)
Definition with_done (t : Table) (st : Stage) (ws : list nat) : Table :=
  {| config := config t; players := players t; deck := deck t;
     table_cards := table_cards t; stage := st; hands := hands t;
     ledger := ledger t; cycle := with_current (cycle t) None; done := true;
     winner_seats := ws |}.

Fixpoint sumZ (l : list Z) : Z :=
  match l with
  | [] => 0
  | x :: l' => x + sumZ l'
  end.

Definition stacks (t : Table) : list Z := map Tools.stack (players t).

(** The conserved quantity: all stacks plus both pots. *)
Definition chips (t : Table) : Z :=
  sumZ (stacks t) + community_pot (ledger t) + current_round_pot (ledger t).

Definition stack_of (t : Table) (seat : nat) : Z :=
  match players t !! seat with
  | Some p => Tools.stack p
  | None => 0
  end.

Definition pot_of (t : Table) (seat : nat) : Z :=
  default 0 (player_pots (ledger t) !! seat).

Definition is_alive (t : Table) (seat : nat) : bool :=
  default false (alive (cycle t) !! seat).

(** *** Pot ledger (section 4.3) *)

(** Modelled from the spec: [commit(seat, amount)] of the missing pot
    ledger moves [amount] chips from the stack into the round pot and
    fails with [InsufficientStack] when the stack does not cover it. *)
Definition commit (seat : nat) (amount : Z) (t : Table) : result Table :=
  match players t !! seat with
  | None => Err NoActivePlayer
  | Some p =>
      if Tools.stack p <? amount then Err InsufficientStack
      else
        let l := ledger t in
        Ok (with_ledger
              (with_players t (<[seat := with_stack p (Tools.stack p - amount)]> (players t)))
              {| community_pot := community_pot l;
                 current_round_pot := current_round_pot l + amount;
                 player_pots := alter (Z.add amount) seat (player_pots l);
                 contributed := alter (Z.add amount) seat (contributed l) |})
  end.

(** The largest commitment among contesting seats this round. *)
Definition highest_commitment (t : Table) : Z :=
  foldr Z.max 0
    (imap (fun i pot => if is_alive t i then pot else 0) (player_pots (ledger t))).

(** Modelled from the spec: [min_call(seat)] of the missing pot ledger,
    the gap between the largest commitment among contesting seats and
    the seat's own. *)
Definition min_call (t : Table) (seat : nat) : Z :=
  highest_commitment t - pot_of t seat.

(** Modelled from the spec: [collapse_round()] of the missing pot ledger
    moves the round pot into the community pot and clears the
    per-player round commitments. *)
Definition collapse_round (t : Table) : Table :=
  let l := ledger t in
  with_ledger t
    {| community_pot := community_pot l + current_round_pot l;
       current_round_pot := 0;
       player_pots := map (fun _ => 0) (player_pots l);
       contributed := contributed l |}.

(** *** Paying a pot *)

(** Modelled from the spec: paying chips into a stack, as the missing
    engine does when a pot is awarded. *)
Definition add_stack (seat : nat) (x : Z) (ps : list Player) : list Player :=
  match ps !! seat with
  | Some p => <[seat := with_stack p (Tools.stack p + x)]> ps
  | None => ps
  end.

(** Modelled from the spec: the tie-break policy of the missing engine.
    The pot is split evenly among the winners and the indivisible
    remainder goes to the first of them; the result carries the amount
    paid, nothing when there is no winner. *)
Definition award (amount : Z) (winners : list nat) (ps : list Player)
  : list Player * Z :=
  match winners with
  | [] => (ps, 0)
  | first :: _ =>
      let k := Z.of_nat (length winners) in
      (add_stack first (amount `mod` k)
         (foldr (fun w acc => add_stack w (amount `div` k) acc) ps winners),
       amount)
  end.

(** Modelled from the spec: the level of the next side pot of the missing
    pot ledger, the smallest positive remaining contribution of a
    contesting seat. *)
Definition tier_level (rem : list Z) (al : list bool) : option Z :=
  foldr (fun ra acc =>
           if snd ra && (0 <? fst ra) then
             Some (match acc with
                   | Some m => Z.min (fst ra) m
                   | None => fst ra
                   end)
           else acc)
        None (zip rem al).

(** The seats, by index, that satisfy [f]. *)
Definition seats_where (f : nat -> bool) (n : nat) : list nat :=
  filter (fun i => Is_true (f i)) (seq 0 n).

(** Modelled from the spec: [side_pots()] of the missing pot ledger.
    Each tier takes from every seat its contribution up to the smallest
    remaining one among contesting seats, and is open to the contesting
    seats that reach it; what is left at the end are contributions of
    folded seats above the last tier. *)
Fixpoint side_pots (fuel : nat) (rem : list Z) (al : list bool)
  : list (Z * list nat) * list Z :=
  match fuel with
  | O => ([], rem)
  | S fuel' =>
      match tier_level rem al with
      | None => ([], rem)
      | Some m =>
          let eligible :=
            seats_where (fun i => default false (al !! i)
                                  && (0 <? default 0 (rem !! i)))
                        (length rem) in
          let '(pots, rest) :=
            side_pots fuel' (map (fun r => r - Z.min r m) rem) al in
          ((sumZ (map (fun r => Z.min r m) rem), eligible) :: pots, rest)
      end
  end.

(** Seats in dealer-relative order: the seat after [start] first. *)
Definition seats_after (n start : nat) : list nat :=
  map (fun k => (start + 1 + k) `mod` n)%nat (seq 0 n).

Section Engine.
(** The raise-size variants and their sizing table, the hand evaluator
    and the shuffle are left open by the specification. *)
Context {RaiseVariant : Type} `{EqDecision RaiseVariant}.
(** the variants, in the order of the enumeration *)
Variable raise_variants : list RaiseVariant.
Variable raise_name : RaiseVariant -> string.
(** chips a raise adds on top of the call, from the big blind and the pot *)
Variable raise_size : RaiseVariant -> Z -> Z -> N.
(** [evaluate(cards)], higher is stronger *)
Variable evaluate : list Card -> Z.
(** the shuffled deck of the hand with the given number *)
Variable shuffle : Z -> list Card.
(** the illegal-action policy the constructor flag [raise_illegal_moves]
    selects; the specification names the flag and the two policies, not
    which value selects which *)
Variable illegal_action_policy : bool -> Policy.

(** Modelled from the spec: the [Action] enumeration of the missing
    [enums.py]. *)
Inductive Action := FOLD | CHECK | CALL | RAISE (v : RaiseVariant) | ALL_IN.

#[export] Instance Action_eq_dec : EqDecision Action.
Proof. solve_decision. Defined.

(** Modelled from the spec: the rank of a seat's hand at the showdown of
    the missing engine, its hole cards with the community cards. *)
Definition hand_rank (t : Table) (seat : nat) : Z :=
  match players t !! seat with
  | Some p => evaluate (Tools.cards p ++ table_cards t)
  | None => 0
  end.

(** Modelled from the spec: the winners of a pot in the missing engine,
    the eligible seats no eligible seat beats, in dealer-relative
    order. *)
Definition winners_of (t : Table) (eligible : list nat) : list nat :=
  filter (fun i => i ∈ eligible
                   ∧ Forall (fun j => hand_rank t j <= hand_rank t i) eligible)
         (seats_after (length (players t)) (dealer_pos (cycle t))).

(** Modelled from the spec: the payout of the missing engine.
    Pays the pots in order; returns the players, the total paid and the
    winners of the first pot. *)
Fixpoint pay_pots (t : Table) (pots : list (Z * list nat)) (ps : list Player)
  : list Player * Z :=
  match pots with
  | [] => (ps, 0)
  | (amount, eligible) :: pots' =>
      let '(ps1, paid1) := award amount (winners_of t eligible) ps in
      let '(ps2, paid2) := pay_pots t pots' ps1 in
      (ps2, paid1 + paid2)
  end.

Definition alive_seats (t : Table) : list nat :=
  seats_where (is_alive t) (length (players t)).

(** Modelled from the spec: the payout of the missing engine on the
    table.  What is paid is taken out of the community pot, and the hand's
    contributions are cleared. *)
Definition settle_pots (t : Table) (pots : list (Z * list nat)) : Table :=
  let '(ps, paid) := pay_pots t pots (players t) in
  let l := ledger t in
  with_ledger (with_players t ps)
    {| community_pot := community_pot l - paid;
       current_round_pot := current_round_pot l;
       player_pots := player_pots l;
       contributed := map (fun _ => 0) (contributed l) |}.

(** Modelled from the spec: the showdown of the missing engine: hands
    are ranked among non-folded seats, side pots resolved and paid, and
    the hand is over. *)
Definition showdown (t : Table) : Table :=
  let n := length (players t) in
  let '(tiers, rest) := side_pots n (contributed (ledger t)) (alive (cycle t)) in
  let pots := tiers ++ [(sumZ rest, alive_seats t)] in
  with_done (settle_pots t pots) SHOWDOWN (winners_of t (alive_seats t)).

(** Modelled from the spec: the award without showdown of the missing
    engine: the one seat left takes the whole pot. *)
Definition award_sole (t : Table) : Table :=
  let t1 := collapse_round t in
  with_done (settle_pots t1 [(community_pot (ledger t1), alive_seats t1)])
    END_HIDDEN (alive_seats t1).

(** *** Player cycle (section 4.4) *)

(** Modelled from the spec: the seats of the missing player cycle that
    can act, those contesting the hand and not all-in. *)
Definition can_act (t : Table) (seat : nat) : bool :=
  is_alive t seat && (0 <? stack_of t seat).

Definition has_acted (t : Table) (seat : nat) : bool :=
  default false (acted (cycle t) !! seat).

Definition raises_of (t : Table) (seat : nat) : Z :=
  default 0 (raises (cycle t) !! seat).

(** Modelled from the spec: [next_to_act()] of the missing player cycle,
    the next contesting seat after [seat] that is not all-in. *)
Definition next_to_act (t : Table) (seat : nat) : option nat :=
  find (fun i => can_act t i) (seats_after (length (players t)) seat).

(** Modelled from the spec: [round_is_complete()] of the missing player
    cycle: every seat that can act has matched the highest commitment
    and acted since the last raise, or at most one seat can act. *)
Definition round_is_complete (t : Table) : bool :=
  forallb (fun i => negb (can_act t i)
                    || ((pot_of t i =? highest_commitment t) && has_acted t i))
          (seq 0 (length (players t)))
  || (length (seats_where (can_act t) (length (players t))) <=? 1)%nat.

(** Modelled from the spec: [record_action(seat, action)] of the missing
    player cycle: a raise clears the acted flag of the other seats and
    counts towards the seat's raises, a fold takes the seat out. *)
Definition record_action (seat : nat) (a : Action) (c : PlayerCycle) : PlayerCycle :=
  {| dealer_pos := dealer_pos c;
     current := current c;
     alive := match a with
              | FOLD => <[seat := false]> (alive c)
              | _ => alive c
              end;
     acted := <[seat := true]>
                (match a with
                 | RAISE _ => map (fun _ => false) (acted c)
                 | _ => acted c
                 end);
     raises := match a with
               | RAISE _ => alter (Z.add 1) seat (raises c)
               | _ => raises c
               end |}.

(** *** Legal moves and chip amounts (section 4.6) *)

Definition pot_total (t : Table) : Z :=
  community_pot (ledger t) + current_round_pot (ledger t).

(** Modelled from the spec: the chips a raise of the missing engine
    commits, the call amount plus the size of the variant. *)
Definition raise_amount (t : Table) (seat : nat) (v : RaiseVariant) : Z :=
  min_call t seat + Z.of_N (raise_size v (big_blind (config t)) (pot_total t)).

(** Modelled from the spec: the chip amount an action of the missing
    engine carries. *)
Definition action_amount (t : Table) (seat : nat) (a : Action) : Z :=
  match a with
  | FOLD | CHECK => 0
  | CALL => min_call t seat
  | RAISE v => raise_amount t seat v
  | ALL_IN => stack_of t seat
  end.

(** Modelled from the spec: the legality rules of the missing engine.
    CHECK needs a zero call amount, CALL a positive one the stack
    covers, a raise a raise count below the maximum and an amount the
    stack covers; FOLD is always legal, ALL_IN with any chips left. *)
Definition is_legal (t : Table) (seat : nat) (a : Action) : bool :=
  match a with
  | FOLD => true
  | CHECK => min_call t seat =? 0
  | CALL => (0 <? min_call t seat) && (min_call t seat <=? stack_of t seat)
  | RAISE v => (raises_of t seat <? max_raises (config t))
               && (raise_amount t seat v <=? stack_of t seat)
  | ALL_IN => 0 <? stack_of t seat
  end.

Definition all_actions : list Action :=
  [FOLD; CHECK; CALL] ++ map RAISE raise_variants ++ [ALL_IN].

(** Modelled from the spec: [legal_moves(seat)] of the missing engine,
    in the order of the enumeration. *)
Definition legal_moves (t : Table) (seat : nat) : list Action :=
  filter (fun a => Is_true (is_legal t seat a)) all_actions.

(** *** Stage machine (section 4.5) *)

(** Modelled from the spec: [deal(n)] of the missing deck. *)
Definition deal (n : nat) (d : list Card) : result (list Card * list Card) :=
  if (length d <? n)%nat then Err DeckExhausted else Ok (take n d, drop n d).

(** Modelled from the spec: the start of a betting round in the missing
    engine: nobody has acted or raised, the seat after the
    dealer that can act is first. *)
Definition new_round (t : Table) : Table :=
  let c := cycle t in
  with_cycle t
    {| dealer_pos := dealer_pos c;
       current := next_to_act t (dealer_pos c);
       alive := alive c;
       acted := map (fun _ => false) (acted c);
       raises := map (fun _ => 0) (raises c) |}.

(** Modelled from the spec: dealing [n] community cards and entering the
    next street in the missing engine. *)
Definition deal_board (n : nat) (st : Stage) (t : Table) : result Table :=
  match deal n (deck t) with
  | Err e => Err e
  | Ok (cs, d) => Ok (new_round (with_board t d (table_cards t ++ cs) st))
  end.

(** Modelled from the spec: the stage transitions of the missing engine.
    The round pot is collapsed and the next street dealt; streets follow
    without betting while at most one seat can act; after the river
    comes the showdown. *)
Fixpoint advance (fuel : nat) (t : Table) : result Table :=
  match fuel with
  | O => Ok t
  | S fuel' =>
      let t0 := collapse_round t in
      let next :=
        match stage t0 with
        | PREFLOP => deal_board 3 FLOP t0
        | FLOP => deal_board 1 TURN t0
        | TURN => deal_board 1 RIVER t0
        | RIVER => Ok (showdown t0)
        | SHOWDOWN | END_HIDDEN => Ok (with_done t0 (stage t0) (winner_seats t0))
        end in
      match next with
      | Err e => Err e
      | Ok t1 =>
          if done t1 then Ok t1
          else if (length (seats_where (can_act t1) (length (players t1))) <=? 1)%nat
               then advance fuel' t1
               else Ok t1
      end
  end.

(** Modelled from the spec: what the missing engine does after the
    action of [seat]: award without showdown when one seat is
    left, the next street when the round is complete, else the turn
    passes on. *)
Definition settle (seat : nat) (t : Table) : result Table :=
  if (length (alive_seats t) <=? 1)%nat then Ok (award_sole t)
  else if round_is_complete t then advance 4 t
  else Ok (with_cycle t (with_current (cycle t) (next_to_act t seat))).

(** *** The orchestrator (section 4.6) *)

(** Modelled from the spec: [new_table] of the missing engine; the seats
    are added one by one with [add_player], as the tool layer does. *)
Definition new_table (initial_stacks small_blind big_blind max_raises : Z)
    (p : Policy) : Table :=
  {| config := {| initial_stacks := initial_stacks; small_blind := small_blind;
                  big_blind := big_blind; max_raises := max_raises; policy := p |};
     players := []; deck := []; table_cards := []; stage := PREFLOP; hands := 0;
     ledger := {| community_pot := 0; current_round_pot := 0;
                  player_pots := []; contributed := [] |};
     cycle := {| dealer_pos := 0; current := None; alive := []; acted := [];
                 raises := [] |};
     done := false; winner_seats := [] |}.

(** Modelled from the spec: seating a player of the missing engine, at
    the next free seat with the configured starting stack. *)
Definition add_player (nm : string) (t : Table) : Table :=
  with_players t
    (players t ++ [{| Tools.seat := Z.of_nat (length (players t)); Tools.name := nm;
                      Tools.stack := initial_stacks (config t); Tools.cards := [] |}]).

(** Modelled from the spec: [reset()] of the missing engine: state
    cleared, deck reshuffled, dealer advanced, two hole cards per seat,
    blinds posted by the two seats after the dealer, stage PREFLOP, the
    seat after the big blind to act.  Seats without chips sit out. *)
Definition reset (t : Table) : result Table :=
  let n := length (players t) in
  let dealer := ((dealer_pos (cycle t) + 1) `mod` n)%nat in
  match deal (2 * n) (shuffle (hands t)) with
  | Err e => Err e
  | Ok (hole, d) =>
      let ps := imap (fun i p => with_cards p (take 2 (drop (2 * i) hole)))
                  (players t) in
      let t0 :=
        {| config := config t; players := ps; deck := d; table_cards := [];
           stage := PREFLOP; hands := hands t + 1;
           ledger := {| community_pot := 0; current_round_pot := 0;
                        player_pots := map (fun _ => 0) ps;
                        contributed := map (fun _ => 0) ps |};
           cycle := {| dealer_pos := dealer; current := None;
                       alive := map (fun p => 0 <? Tools.stack p) ps;
                       acted := map (fun _ => false) ps;
                       raises := map (fun _ => 0) ps |};
           done := false; winner_seats := [] |} in
      if (length (alive_seats t0) <? 2)%nat then Err NoActivePlayer
      else
        match commit ((dealer + 1) `mod` n)%nat (small_blind (config t)) t0 with
        | Err e => Err e
        | Ok t1 =>
            match commit ((dealer + 2) `mod` n)%nat (big_blind (config t)) t1 with
            | Err e => Err e
            | Ok t2 => settle ((dealer + 2) `mod` n)%nat t2
            end
        end
  end.

(** Modelled from the spec: what [step] of the missing engine returns. *)
Record StepResult := { reward : Z; step_done : bool }.

(** Modelled from the spec: [step(action)] of the missing engine.  An
    action outside the legal moves of the seat to act fails with
    [IllegalAction] under the reject policy and is played as a fold
    under the other; every failure leaves the table as it was.  The
    reward is the net chip change of the acting seat. *)
Definition step (a : Action) (t : Table) : Table * result StepResult :=
  if done t then (t, Err NoActivePlayer)
  else
    match current (cycle t) with
    | None => (t, Err NoActivePlayer)
    | Some seat =>
        let legal := bool_decide (a ∈ legal_moves t seat) in
        match legal, policy (config t) with
        | false, Reject => (t, Err IllegalAction)
        | _, _ =>
            let a' := if legal then a else FOLD in
            match commit seat (action_amount t seat a') t with
            | Err e => (t, Err e)
            | Ok t1 =>
                match settle seat (with_cycle t1 (record_action seat a' (cycle t1))) with
                | Err e => (t, Err e)
                | Ok t2 =>
                    (t2, Ok {| reward := stack_of t2 seat - stack_of t seat;
                               step_done := done t2 |})
                end
            end
        end
    end.

(** A run of [step] calls; a failed call leaves the table as it was. *)
Definition steps (acts : list Action) (t : Table) : Table :=
  foldl (fun t a => fst (step a t)) t acts.

(** *** Reachable tables and their invariants *)

(** The tables a caller can obtain: built with configuration [c], with
    players seated, hands started and actions played. *)
Inductive reachable (c : Config) : Table -> Prop :=
| reach_new :
    reachable c (new_table (initial_stacks c) (small_blind c) (big_blind c)
                   (max_raises c) (policy c))
| reach_add_player nm t :
    reachable c t -> reachable c (add_player nm t)
| reach_reset t t' :
    reachable c t -> reset t = Ok t' -> reachable c t'
| reach_step a t :
    reachable c t -> reachable c (fst (step a t)).

(** The configured stack and blinds are chip counts. *)
Definition config_ok (c : Config) : Prop :=
  0 <= initial_stacks c /\ 0 <= small_blind c /\ 0 <= big_blind c.

Definition nonneg (l : list Z) : Prop := Forall (fun x => 0 <= x) l.

(** Every amount the table holds is a chip count. *)
Definition amounts_ok (t : Table) : Prop :=
  nonneg (stacks t)
  /\ nonneg (player_pots (ledger t))
  /\ nonneg (contributed (ledger t))
  /\ 0 <= community_pot (ledger t)
  /\ 0 <= current_round_pot (ledger t).

(** While a hand is on, the contributions add up to the two pots. *)
Definition ledger_ok (t : Table) : Prop :=
  (length (alive (cycle t)) <= length (contributed (ledger t)))%nat
  /\ (done t = false ->
      sumZ (contributed (ledger t))
      = community_pot (ledger t) + current_round_pot (ledger t)).

(** The seat to act contests the hand. *)
Definition current_ok (t : Table) : Prop :=
  forall seat, current (cycle t) = Some seat -> is_alive t seat = true.

(** *** The engine as the tool layer sees it *)

Context {F : Type}.
(** [str(card)] *)
Variable card_str : Card -> string.

Definition stage_name (st : Stage) : string :=
  match st with
  | PREFLOP => "PREFLOP"
  | FLOP => "FLOP"
  | TURN => "TURN"
  | RIVER => "RIVER"
  | SHOWDOWN => "SHOWDOWN"
  | END_HIDDEN => "END_HIDDEN"
  end.

Definition stage_value (st : Stage) : Z :=
  match st with
  | PREFLOP => 0
  | FLOP => 1
  | TURN => 2
  | RIVER => 3
  | SHOWDOWN => 4
  | END_HIDDEN => 5
  end.

Definition stage_member (st : Stage) : enum_member :=
  {| member_name := stage_name st; member_value := stage_value st |}.

Definition action_name (a : Action) : string :=
  match a with
  | FOLD => "FOLD"
  | CHECK => "CHECK"
  | CALL => "CALL"
  | RAISE v => "RAISE_" +:+ raise_name v
  | ALL_IN => "ALL_IN"
  end.

(** The value of a member is its position in the enumeration. *)
Definition action_value (a : Action) : Z :=
  match list_find (fun b => b = a) all_actions with
  | Some (i, _) => Z.of_nat i
  | None => -1
  end.

Definition action_member (a : Action) : enum_member :=
  {| member_name := action_name a; member_value := action_value a |}.

(** [Action(value)] *)
Definition action_of_value (v : Z) : option Action :=
  if v <? 0 then None else all_actions !! Z.to_nat v.

Definition error_name (e : Error) : string :=
  match e with
  | DeckExhausted => "DeckExhausted"
  | InsufficientStack => "InsufficientStack"
  | IllegalAction => "IllegalAction"
  | NoActivePlayer => "NoActivePlayer"
  end.

Definition error_exn (e : Error) : exn :=
  {| exn_cls := OtherError; exn_str := error_name e |}.

Definition seat_to_act (t : Table) : option Player :=
  match current (cycle t) with
  | Some i => players t !! i
  | None => None
  end.

(** Modelled from the spec: the missing [HoldemTable] class behind the
    interface of the tool layer.  Legal moves and the call amount are
    functions of the state, so the two refresh methods have nothing to
    update; an engine error is raised as an exception. *)
Definition engine : Tools.Engine F :=
  {| Tools.table := Table;
     Tools.card := Card;
     Tools.str_card := card_str;
     Tools.Action := map action_member all_actions;
     Tools.HoldemTable :=
       fun initial_stacks small_blind big_blind _ _ max_raises flag =>
         Return (new_table initial_stacks small_blind big_blind max_raises
                   (illegal_action_policy flag));
     Tools.add_player := fun nm t => (add_player nm t, Return tt);
     Tools.reset :=
       fun t => match reset t with
                | Ok t' => (t', Return tt)
                | Err e => (t, Raise (error_exn e))
                end;
     Tools.step :=
       fun v t =>
         match action_of_value v with
         | None => (t, Raise {| exn_cls := OtherError;
                                exn_str := "not a valid Action" |})
         | Some a =>
             match step a t with
             | (t', Ok r) =>
                 (t', Return (PNone, PInt (reward r), step_done r, PDict []))
             | (t', Err e) => (t', Raise (error_exn e))
             end
         end;
     Tools._get_environment := fun t => (t, Return tt);
     Tools._get_legal_moves := fun t => (t, Return tt);
     Tools.stage := fun t => Some (stage_member (stage t));
     Tools.table_cards := table_cards;
     Tools.community_pot := fun t => community_pot (ledger t);
     Tools.current_round_pot := fun t => current_round_pot (ledger t);
     Tools.current_player := seat_to_act;
     Tools.players := players;
     Tools.legal_moves :=
       fun t => Some (match current (cycle t) with
                      | Some i => map action_member (legal_moves t i)
                      | None => []
                      end);
     Tools.done := done;
     Tools.winner_ix := fun t => Z.of_nat <$> head (winner_seats t);
     Tools.min_call :=
       fun t => Some (match current (cycle t) with
                      | Some i => min_call t i
                      | None => 0
                      end);
     Tools.dealer_pos := fun t => Z.of_nat (dealer_pos (cycle t));
     Tools.player_pots := fun t => player_pots (ledger t);
     Tools.player_cycle := fun t => Some (alive (cycle t)) |}.

End Engine.
End Table.

(** ** A concrete table, for running the definitions *)

Module Demo.
Import Py.

Inductive RaiseSize := BB_3 | POT.

#[export] Instance RaiseSize_eq_dec : EqDecision RaiseSize.
Proof. solve_decision. Defined.

Definition raise_name (v : RaiseSize) : string :=
  match v with
  | BB_3 => "3BB"
  | POT => "POT"
  end.

Definition raise_size (v : RaiseSize) (big_blind pot : Z) : N :=
  match v with
  | BB_3 => Z.to_N (3 * big_blind)
  | POT => Z.to_N pot
  end.

Definition ranks : list Z := [2; 3; 4; 5; 6; 7; 8; 9; 10; 11; 12; 13; 14].

Definition full_deck : list Table.Card :=
  flat_map (fun s => map (fun r => {| Table.rank := r; Table.suit := s |}) ranks)
    [Table.Clubs; Table.Diamonds; Table.Hearts; Table.Spades].

(** A fixed deck order per hand stands for the shuffle. *)
Definition shuffle (hand : Z) : list Table.Card :=
  rotate (Z.to_nat hand * 7) full_deck.

(** Hands are compared by the sum of their ranks. *)
Definition evaluate (cs : list Table.Card) : Z :=
  Table.sumZ (map Table.rank cs).

Definition suit_letter (s : Table.Suit) : string :=
  match s with
  | Table.Clubs => "C"
  | Table.Diamonds => "D"
  | Table.Hearts => "H"
  | Table.Spades => "S"
  end.

Definition card_str (c : Table.Card) : string :=
  str_int (Table.rank c) +:+ suit_letter (Table.suit c).

(** Floats as exact rationals, or infinity: a stand-in for doubles for
    running the tools, exact on the values the runs below produce (3.0
    and 25.0), not a model of rounding to 53 bits. *)
Inductive float := Fin (q : Q) | Inf.

(** Rounding to [nd] decimals, ties to even. *)
Definition round_q (q : Q) (nd : Z) : Q :=
  let scale := 10 ^ nd in
  let num := Qnum q * scale in
  let den := Z.pos (Qden q) in
  let fl := num `div` den in
  let twice := 2 * (num `mod` den) in
  let r := if twice <? den then fl
           else if den <? twice then fl + 1
           else if Z.even fl then fl else fl + 1 in
  Qred (Qmake r (Z.to_pos scale)).

#[export] Instance float_ops : FloatOps float :=
  {| int_truediv := fun a b => Fin (Qred (inject_Z a / inject_Z b));
     float_mul_int := fun x n => match x with
                                 | Fin q => Fin (Qred (q * inject_Z n))
                                 | Inf => Inf
                                 end;
     float_of_int := fun n => Fin (inject_Z n);
     float_round := fun x nd => match x with
                                | Fin q => Fin (round_q q nd)
                                | Inf => Inf
                                end;
     float_inf := Inf |}.

(** ASCII upper-casing. *)
Definition upper_ascii (c : ascii) : ascii :=
  let n := nat_of_ascii c in
  if ((97 <=? n) && (n <=? 122))%nat then ascii_of_nat (n - 32) else c.

Fixpoint upper (s : string) : string :=
  match s with
  | EmptyString => EmptyString
  | String c s' => String (upper_ascii c) (upper s')
  end.

(** The demo table rejects an illegal action whatever the flag; the
    runs below play legal actions only. *)
Definition illegal_action_policy (raise_illegal_moves : bool) : Table.Policy :=
  Table.Reject.

Definition engine : Tools.Engine float :=
  Table.engine [BB_3; POT] raise_name raise_size evaluate shuffle
    illegal_action_policy card_str.

Definition World := Tools.World engine.
Definition ToolContext := Tools.ToolContext (F := float).

Definition initial_context : ToolContext :=
  {| Tools.state := []; Tools.actions_escalate := false |}.

(** Runs a tool from the given globals with a fresh context. *)
Definition run {A} (tool : Tools.Tool engine A) (w : World) : World * outcome A :=
  let '((w', _), r) := tool (w, initial_context) in (w', r).

Definition config : Table.Config :=
  {| Table.initial_stacks := 100; Table.small_blind := 1; Table.big_blind := 2;
     Table.max_raises := 2; Table.policy := Table.Reject |}.

(** Two players seated, no hand started yet. *)
Definition seated : Table.Table :=
  Table.add_player "Player2"
    (Table.add_player "Player1" (Table.new_table 100 1 2 2 Table.Reject)).

(** The first hand: blinds posted, seat 0 to act. *)
Definition table1 : Table.Table :=
  Eval vm_compute in
    match Table.reset evaluate shuffle seated with
    | Table.Ok t => t
    | Table.Err _ => seated
    end.

Definition game_state1 : pyobj float :=
  PDict [("game_initialized", PBool true);
         ("num_players", PInt 2);
         ("initial_stacks", PInt 100);
         ("small_blind", PInt 1);
         ("big_blind", PInt 2);
         ("current_hand", PInt 1)].

(** The module as imported, and the globals and the session context
    after [initialize_poker_game(100, 1, 2)]. *)
Definition w0 : World := Tools.initial_world engine.

Definition w1 : World :=
  {| Tools.game_table := Some (table1 : Tools.table engine);
     Tools.current_game_state := game_state1;
     Tools.engine_calls :=
       [Tools.CallHoldemTable 100 1 2 false false 2 false;
        Tools.CallAddPlayer "Player1"; Tools.CallAddPlayer "Player2";
        Tools.CallReset] |}.

Definition context1 : ToolContext :=
  {| Tools.state := [("game_state", game_state1);
                     ("game_table_initialized", PBool true)];
     Tools.actions_escalate := false |}.

(** The first hand of a table with stacks of 50, as a second
    [initialize_poker_game(50, 1, 2)] builds it. *)
Definition table2 : Table.Table :=
  Eval vm_compute in
    match Table.reset evaluate shuffle
            (Table.add_player "Player2"
               (Table.add_player "Player1" (Table.new_table 50 1 2 2 Table.Reject)))
    with
    | Table.Ok t => t
    | Table.Err _ => seated
    end.

(** The first hand after a raise by seat 0 and a fold by seat 1. *)
Definition table_over : Table.Table :=
  Eval vm_compute in
    Table.steps [BB_3; POT] raise_size evaluate
      [Table.RAISE BB_3; Table.FOLD] table1.

Definition w_over : World :=
  fst (run (Tools.process_player_action upper engine "fold")
         (fst (run (Tools.process_player_action upper engine "raise_3bb") w1))).

(** What [get_game_state] returns at the start of the first hand. *)
Definition snapshot1 : pyobj float :=
  PDict [("status", PStr "success");
         ("stage", PStr "PREFLOP");
         ("community_cards", PList []);
         ("community_pot", PInt 0);
         ("current_round_pot", PInt 3);
         ("current_player_seat", PInt 0);
         ("current_player_name", PStr "Player1");
         ("players",
           PList [PDict [("seat", PInt 0); ("name", PStr "Player1");
                         ("stack", PInt 99);
                         ("cards", PList [PStr "2C"; PStr "3C"]);
                         ("current_bet", PInt 1); ("is_active", PBool true)];
                  PDict [("seat", PInt 1); ("name", PStr "Player2");
                         ("stack", PInt 98);
                         ("cards", PList [PStr "4C"; PStr "5C"]);
                         ("current_bet", PInt 2); ("is_active", PBool true)]]);
         ("legal_actions",
           PList [PStr "FOLD"; PStr "CALL"; PStr "RAISE_3BB"; PStr "RAISE_POT";
                  PStr "ALL_IN"]);
         ("done", PBool false);
         ("winner", PNone);
         ("min_call", PInt 1);
         ("dealer_position", PInt 1)].

(** What [calculate_pot_odds] returns there. *)
Definition pot_odds1 : pyobj float :=
  PDict [("status", PStr "success");
         ("total_pot", PInt 3);
         ("call_amount", PInt 1);
         ("pot_odds", PFloat (Fin (Qmake 3 1)));
         ("pot_odds_percentage", PFloat (Fin (Qmake 25 1)));
         ("current_player", PStr "Player1")].

(** What the first initialization returned. *)
Definition init_result1 : pyobj float :=
  PDict [("status", PStr "success");
         ("message", PStr "Poker game initialized with 2 players");
         ("game_state", game_state1)].

(** The first hand of a table built like the demo table, but with the
    policy that plays an illegal action as a fold. *)
Definition table1_auto_fold : Table.Table :=
  Eval vm_compute in
    match Table.reset evaluate shuffle
            (Table.add_player "Player2"
               (Table.add_player "Player1"
                  (Table.new_table 100 1 2 2 Table.AutoFold)))
    with
    | Table.Ok t => t
    | Table.Err _ => seated
    end.

(** The first hand of a table with a small blind of -1 and a big blind
    of 0, as [initialize_poker_game(100, -1, 0)] builds it: seat 0 has
    posted -1 and faces a call of 1. *)
Definition table_neg : Table.Table :=
  Eval vm_compute in
    match Table.reset evaluate shuffle
            (Table.add_player "Player2"
               (Table.add_player "Player1"
                  (Table.new_table 100 (-1) 0 2 Table.Reject)))
    with
    | Table.Ok t => t
    | Table.Err _ => seated
    end.

Definition w_neg : World :=
  {| Tools.game_table := Some (table_neg : Tools.table engine);
     Tools.current_game_state :=
       PDict [("game_initialized", PBool true);
              ("num_players", PInt 2);
              ("initial_stacks", PInt 100);
              ("small_blind", PInt (-1));
              ("big_blind", PInt 0);
              ("current_hand", PInt 1)];
     Tools.engine_calls :=
       [Tools.CallHoldemTable 100 (-1) 0 false false 2 false;
        Tools.CallAddPlayer "Player1"; Tools.CallAddPlayer "Player2";
        Tools.CallReset] |}.

(** The result a tool returns, [None] for a raised exception. *)
Definition result_of {A} (o : World * outcome A) : option A :=
  match snd o with
  | Return a => Some a
  | Raise _ => None
  end.

End Demo.

(** ** Shapes of the values the tools return *)

Module Shape.
Import Py.

Section Shape.
Context {F : Type}.

Abbreviation pyobj := (pyobj F).

(** An object made of native values only: [None], booleans, integers,
    floats and strings, and lists, tuples and dictionaries of such, the
    keys of a dictionary included. *)
Fixpoint native (o : pyobj) : bool :=
  match o with
  | PNone | PBool _ | PInt _ | PFloat _ | PStr _ => true
  | PNpInt _ | PNpFloat _ | PNpBool _ | PNpArray _ | PEnum _ _
  | PNamed _ _ | POther _ => false
  | PList items | PTuple items => forallb native items
  | PDict items => forallb (fun kv => native (snd kv)) items
  | PMap entries => forallb (fun kv => native (fst kv) && native (snd kv)) entries
  end.

(** An object the conversion reaches all of: its arrays are numeric,
    the keys of its dictionaries and the names of its named objects are
    native already (the conversion passes them on as they are), and no
    object of another kind occurs in it. *)
Fixpoint converts_fully (o : pyobj) : bool :=
  match o with
  | PNpArray items => forallb Tools.numeric items
  | PNamed name _ => native name
  | POther _ => false
  | PList items | PTuple items => forallb converts_fully items
  | PDict items => forallb (fun kv => converts_fully (snd kv)) items
  | PMap entries =>
      forallb (fun kv => native (fst kv) && converts_fully (snd kv)) entries
  | _ => true
  end.

(** No float, native or numpy, occurs in the object. *)
Fixpoint no_float (o : pyobj) : bool :=
  match o with
  | PFloat _ | PNpFloat _ => false
  | PNamed name value => no_float name && no_float value
  | PNpArray items | PList items | PTuple items => forallb no_float items
  | PDict items => forallb (fun kv => no_float (snd kv)) items
  | PMap entries => forallb (fun kv => no_float (fst kv) && no_float (snd kv)) entries
  | _ => true
  end.

(** A result dictionary: its status is "success" or "error". *)
Definition status_dict (r : pyobj) : Prop :=
  field "status" r = Some (PStr "success")
  \/ field "status" r = Some (PStr "error").

(** A tool run that returned such a dictionary instead of raising. *)
Definition returns_status {S : Type} (run : S * outcome pyobj) : Prop :=
  exists r, snd run = Return r /\ status_dict r.

End Shape.
End Shape.

(** ** What a tool run leaves alone *)

Module Frame.
Import Py Tools.

Section Frame.
Context {F : Type}.
Variable E : Engine F.

(** The context [tc'] after a run differs from the context [tc] before it
    at most in the session keys [keys]: every other key reads as before,
    and so does [actions.escalate]. *)
Definition context_kept_outside (keys : list string)
    (tc tc' : ToolContext (F := F)) : Prop :=
  actions_escalate tc' = actions_escalate tc
  /\ forall key, key ∉ keys -> dict_get key (state tc') = dict_get key (state tc).

(** A table installed before the run is not removed by it: the global
    holds a table afterwards too. *)
Definition table_kept (w w' : World E) : Prop :=
  is_Some (game_table E w) -> is_Some (game_table E w').

End Frame.
End Frame.

(** ** A scripted engine, for running the tools on engine failures *)

Module Stub.
Import Py.

(** The attributes the tools read, held as plain fields, and a count of
    the method calls the table has seen. *)
Record table := {
  stage : option enum_member;
  table_cards : list string;
  community_pot : Z;
  current_round_pot : Z;
  current_player : option (Tools.Player string);
  players : list (Tools.Player string);
  legal_moves : option (list enum_member);
  done : bool;
  winner_ix : option Z;
  min_call : option Z;
  dealer_pos : Z;
  player_pots : list Z;
  alive : option (list bool);
  touched : nat
}.

Definition touch (t : table) : table :=
  {| stage := stage t; table_cards := table_cards t;
     community_pot := community_pot t; current_round_pot := current_round_pot t;
     current_player := current_player t; players := players t;
     legal_moves := legal_moves t; done := done t; winner_ix := winner_ix t;
     min_call := min_call t; dealer_pos := dealer_pos t;
     player_pots := player_pots t; alive := alive t;
     touched := S (touched t) |}.

(** What each method does after touching the table. *)
Record script (F : Type) := {
  on_new : outcome table;
  on_add_player : outcome unit;
  on_reset : outcome unit;
  on_step : outcome (pyobj F * pyobj F * bool * pyobj F);
  on_env : outcome unit;
  on_legal : outcome unit
}.
Arguments on_new {F} _.
Arguments on_add_player {F} _.
Arguments on_reset {F} _.
Arguments on_step {F} _.
Arguments on_env {F} _.
Arguments on_legal {F} _.

Definition actions : list enum_member :=
  [{| member_name := "FOLD"; member_value := 0 |};
   {| member_name := "CHECK"; member_value := 1 |};
   {| member_name := "CALL"; member_value := 2 |}].

Definition engine {F : Type} (b : script F) : Tools.Engine F :=
  {| Tools.table := table;
     Tools.card := string;
     Tools.str_card := fun c => c;
     Tools.Action := actions;
     Tools.HoldemTable := fun _ _ _ _ _ _ _ => on_new b;
     Tools.add_player := fun _ t => (touch t, on_add_player b);
     Tools.reset := fun t => (touch t, on_reset b);
     Tools.step := fun _ t => (touch t, on_step b);
     Tools._get_environment := fun t => (touch t, on_env b);
     Tools._get_legal_moves := fun t => (touch t, on_legal b);
     Tools.stage := stage;
     Tools.table_cards := table_cards;
     Tools.community_pot := community_pot;
     Tools.current_round_pot := current_round_pot;
     Tools.current_player := current_player;
     Tools.players := players;
     Tools.legal_moves := legal_moves;
     Tools.done := done;
     Tools.winner_ix := winner_ix;
     Tools.min_call := min_call;
     Tools.dealer_pos := dealer_pos;
     Tools.player_pots := player_pots;
     Tools.player_cycle := alive |}.

Definition player (seat : Z) (name : string) (stack : Z) (cards : list string)
  : Tools.Player string :=
  {| Tools.seat := seat; Tools.name := name; Tools.stack := stack;
     Tools.cards := cards |}.

(** A table in mid-hand whose bookkeeping lists are shorter than the
    player list, and whose seat to act carries the seat number -1. *)
Definition table0 : table :=
  {| stage := None; table_cards := ["AS"];
     community_pot := 4; current_round_pot := 6;
     current_player := Some (player (-1) "Bob" 30 ["KH"; "KD"]);
     players := [player 0 "Ann" 60 ["2C"; "7D"]; player 1 "Bob" 30 ["KH"; "KD"]];
     legal_moves := Some actions; done := false; winner_ix := None;
     min_call := Some 2; dealer_pos := 0;
     player_pots := [5]; alive := Some [true]; touched := 0 |}.

(** The same table with pots that cancel the call amount, and with a
    seat to act beyond the pots. *)
Definition table_odd : table :=
  {| stage := stage table0; table_cards := table_cards table0;
     community_pot := -2; current_round_pot := 0;
     current_player := Some (player 5 "Bob" 30 ["KH"; "KD"]);
     players := players table0;
     legal_moves := legal_moves table0; done := false; winner_ix := None;
     min_call := Some 2; dealer_pos := 0;
     player_pots := [5]; alive := None; touched := 0 |}.

(** The same table with a pot of [10 ^ 400] chips against a call of 1. *)
Definition table_rich : table :=
  {| stage := stage table0; table_cards := table_cards table0;
     community_pot := 10 ^ 400; current_round_pot := 0;
     current_player := current_player table0;
     players := players table0;
     legal_moves := legal_moves table0; done := false; winner_ix := None;
     min_call := Some 1; dealer_pos := 0;
     player_pots := [5]; alive := None; touched := 0 |}.

Definition failure (cls : exn_class) (msg : string) : exn :=
  {| exn_cls := cls; exn_str := msg |}.

Section Scripts.
Context {F : Type}.

(** Every method returns. *)
Definition quiet : script F :=
  {| on_new := Return table0; on_add_player := Return tt; on_reset := Return tt;
     on_step := Return (PNone, PNpInt 3, false, PDict [("seat", PNpInt 1)]);
     on_env := Return tt; on_legal := Return tt |}.

(** The constructor raises. *)
Definition no_table : script F :=
  {| on_new := Raise (failure OtherError "bad blinds");
     on_add_player := Return tt; on_reset := Return tt;
     on_step := on_step quiet; on_env := Return tt; on_legal := Return tt |}.

(** [reset] raises. *)
Definition no_reset : script F :=
  {| on_new := Return table0; on_add_player := Return tt;
     on_reset := Raise (failure OtherError "deck exhausted");
     on_step := on_step quiet; on_env := Return tt; on_legal := Return tt |}.

(** [step] raises the given exception. *)
Definition bad_step (e : exn) : script F :=
  {| on_new := Return table0; on_add_player := Return tt; on_reset := Return tt;
     on_step := Raise e; on_env := Return tt; on_legal := Return tt |}.

(** [_get_environment] raises. *)
Definition no_env : script F :=
  {| on_new := Return table0; on_add_player := Return tt; on_reset := Return tt;
     on_step := on_step quiet;
     on_env := Raise (failure OtherError "no observation"); on_legal := Return tt |}.

(** Globals holding the given table, and an empty session context. *)
Definition world (b : script F) (t : table) : Tools.World (engine b) :=
  {| Tools.game_table := Some (t : Tools.table (engine b));
     Tools.current_game_state := PDict [];
     Tools.engine_calls := [] |}.

(** The same globals after the given engine calls. *)
Definition world_after (b : script F) (t : table) (calls : list Tools.EngineCall)
  : Tools.World (engine b) :=
  {| Tools.game_table := Some (t : Tools.table (engine b));
     Tools.current_game_state := PDict [];
     Tools.engine_calls := calls |}.

Definition context : Tools.ToolContext (F := F) :=
  {| Tools.state := [("user", PStr "ann")]; Tools.actions_escalate := false |}.

(** An [info] dictionary as an engine built on numpy hands it out. *)
Definition sample_info (x : F) : pyobj F :=
  PDict [("reward", PNpFloat x);
         ("pots", PNpArray [PNpInt 5; PNpInt 0]);
         ("move", PEnum "CALL" 2);
         ("stacks", PMap [(PInt 0, PNpInt 60); (PInt 1, PNpInt 30)]);
         ("log", PList [PTuple [PNpBool false; PStr "raise"]])].

End Scripts.
End Stub.

(** * Properties of the tool layer *)

Module PyFacts.
Import Py Tools.

Section Objects.
Context {F : Type}.

Abbreviation pyobj := (Py.pyobj F).

(** Induction over objects with the hypotheses for their components. *)
Lemma pyobj_nested_ind (P : pyobj -> Prop) :
  P PNone -> (forall b, P (PBool b)) -> (forall n, P (PInt n)) ->
  (forall x, P (PFloat x)) -> (forall s, P (PStr s)) ->
  (forall n, P (PNpInt n)) -> (forall x, P (PNpFloat x)) ->
  (forall b, P (PNpBool b)) ->
  (forall items, Forall P items -> P (PNpArray items)) ->
  (forall nm val, P (PEnum nm val)) ->
  (forall name value, P name -> P value -> P (PNamed name value)) ->
  (forall items, Forall P items -> P (PList items)) ->
  (forall items, Forall P items -> P (PTuple items)) ->
  (forall items, Forall (fun kv => P (snd kv)) items -> P (PDict items)) ->
  (forall entries,
     Forall (fun kv => P (fst kv) /\ P (snd kv)) entries -> P (PMap entries)) ->
  (forall description, P (POther description)) ->
  forall o, P o.
Proof.
  intros HNone HBool HInt HFloat HStr HNpInt HNpFloat HNpBool HNpArray HEnum
    HNamed HList HTuple HDict HMap HOther.
  fix IH 1. intros o.
  destruct o as [|b|n|x|s|n|x|b|items|nm val|name value|items|items|items
                 |entries|description].
  - exact HNone.
  - apply HBool.
  - apply HInt.
  - apply HFloat.
  - apply HStr.
  - apply HNpInt.
  - apply HNpFloat.
  - apply HNpBool.
  - apply HNpArray. induction items as [|y items IHitems]; constructor;
      [apply IH | exact IHitems].
  - apply HEnum.
  - apply HNamed; apply IH.
  - apply HList. induction items as [|y items IHitems]; constructor;
      [apply IH | exact IHitems].
  - apply HTuple. induction items as [|y items IHitems]; constructor;
      [apply IH | exact IHitems].
  - apply HDict. induction items as [|[k v] items IHitems]; constructor;
      [apply IH | exact IHitems].
  - apply HMap. induction entries as [|[k v] entries IHentries]; constructor;
      [split; apply IH | exact IHentries].
  - apply HOther.
Qed.

Lemma forallb_map_test {A} (f : A -> A) (test test' : A -> bool) (l : list A) :
  Forall (fun x => test x = true -> test' (f x) = true) l ->
  forallb test l = true -> forallb test' (map f l) = true.
Proof.
  induction 1 as [|x l Hx _ IH]; cbn; [reflexivity|].
  intros Htest. apply andb_true_iff in Htest as [Hx' Hl].
  rewrite (Hx Hx'), (IH Hl). reflexivity.
Qed.

Lemma tolist_item_no_float (x : pyobj) :
  Shape.no_float x = true -> Shape.no_float (tolist_item x) = true.
Proof.
  induction x as [| | | | | | | |items IH| | | | | | |] using pyobj_nested_ind;
    cbn; try (intros Hsame; exact Hsame); try discriminate.
  apply forallb_map_test. exact IH.
Qed.

(** The conversion brings no float into an object that has none. *)
Lemma no_float_convert (o : pyobj) :
  Shape.no_float o = true -> Shape.no_float (_convert_numpy_types o) = true.
Proof.
  induction o as [| | | | | | | |items IH| |name value IHname IHvalue
                  |items IH|items IH|items IH|entries IH|]
    using pyobj_nested_ind; cbn; try (intros Hsame; exact Hsame);
    try discriminate.
  - intros Hitems. unfold tolist. destruct (forallb numeric items); [|exact Hitems].
    apply (forallb_map_test tolist_item Shape.no_float Shape.no_float);
      [|exact Hitems].
    apply Forall_forall. intros x _. apply tolist_item_no_float.
  - intros Hpair. apply andb_true_iff in Hpair as [Hname _]. exact Hname.
  - apply forallb_map_test. exact IH.
  - apply forallb_map_test. exact IH.
  - induction IH as [|[k v] items Hv _ IHitems]; cbn; [reflexivity|].
    intros Htest. apply andb_true_iff in Htest as [Hv' Hitems].
    cbn in Hv. rewrite (Hv Hv'), (IHitems Hitems). reflexivity.
  - induction IH as [|[k v] entries [_ Hv] _ IHentries]; cbn; [reflexivity|].
    intros Htest. apply andb_true_iff in Htest as [Hkv Hentries].
    apply andb_true_iff in Hkv as [Hk Hv']. cbn in Hv.
    rewrite Hk, (Hv Hv'), (IHentries Hentries). reflexivity.
Qed.

End Objects.
End PyFacts.

Module ToolsFacts.
Import Py Tools.

Section Facts.
Context {F : Type} {FO : FloatOps F}.
Variable upper : string -> string.
Variable E : Engine F.

Abbreviation pyobj := (pyobj F).

(** The guard every tool starts with. *)
Lemma guard_not_initialized (body : Tool E pyobj) (w : World E) tc :
  game_table E w = None ->
  bind E (get_world E)
    (fun w => match game_table E w with
              | None => ret E (not_initialized (F := F))
              | Some _ => body
              end) (w, tc)
  = ((w, tc), Return (not_initialized (F := F))).
Proof.
  intros Hnone. unfold bind, get_world. cbn. rewrite Hnone. reflexivity.
Qed.

Lemma guard_initialized (body : Tool E pyobj) (w : World E) tc t :
  game_table E w = Some t ->
  bind E (get_world E)
    (fun w => match game_table E w with
              | None => ret E (not_initialized (F := F))
              | Some _ => body
              end) (w, tc)
  = body (w, tc).
Proof.
  intros Hsome. unfold bind, get_world. cbn. rewrite Hsome. reflexivity.
Qed.

Lemma the_table_initialized (w : World E) tc t {first_read : string} :
  game_table E w = Some t ->
  the_table E first_read (w, tc) = ((w, tc), Return t).
Proof. intros Hsome. unfold the_table. rewrite Hsome. reflexivity. Qed.

(** [Cls[key]] raises [KeyError] exactly when no member has that name. *)
Lemma enum_getitem_absent (cls : list enum_member) (key : string) :
  (forall m, m ∈ cls -> member_name m <> key) ->
  enum_getitem cls key
  = Raise {| exn_cls := KeyError; exn_str := "'" +:+ key +:+ "'" |}.
Proof.
  induction cls as [|m cls IH]; intros Habsent; cbn.
  - reflexivity.
  - destruct (String.eqb_spec (member_name m) key) as [Heq|Hne].
    + exfalso. apply (Habsent m); [left | exact Heq].
    + apply IH. intros m' Hin. apply Habsent. right. exact Hin.
Qed.

Lemma enum_getitem_present (cls : list enum_member) (key : string) m :
  enum_getitem cls key = Return m -> m ∈ cls /\ member_name m = key.
Proof.
  induction cls as [|m' cls IH]; cbn; [discriminate|].
  destruct (String.eqb_spec (member_name m') key) as [Heq|Hne].
  - intros [= <-]. split; [left | exact Heq].
  - intros Hget. destruct (IH Hget) as [Hin Hname]. split; [right|]; assumption.
Qed.

(** C9. With no game initialized (the global table is [None]), each of
    [get_game_state], [process_player_action], [check_game_over],
    [get_player_hand], [get_legal_actions] and [calculate_pot_odds]
    returns the dictionary with status "error" and message "Game not
    initialized"; globals, context and the trace of engine calls stay as
    they were, so no engine operation is performed. *)
Theorem not_initialized_error (w : World E) (tc : ToolContext)
    (action_name : string) (player_seat : Z) :
  game_table E w = None ->
  let error := PDict [("status", PStr "error");
                      ("message", PStr "Game not initialized")] in
  get_game_state E (w, tc) = ((w, tc), Return error)
  /\ process_player_action upper E action_name (w, tc) = ((w, tc), Return error)
  /\ check_game_over E (w, tc) = ((w, tc), Return error)
  /\ get_player_hand E player_seat (w, tc) = ((w, tc), Return error)
  /\ get_legal_actions E (w, tc) = ((w, tc), Return error)
  /\ calculate_pot_odds E (w, tc) = ((w, tc), Return error).
Proof.
  intros Hnone error.
  repeat split; apply guard_not_initialized; exact Hnone.
Qed.

(** C5. On an initialized game, an action name that names no member of
    [Action] after upper-casing makes [process_player_action] return the
    status "error" dictionary whose message lists the valid action
    names; nothing is raised, and globals, context and the trace of
    engine calls are unchanged, so [step] is not invoked. *)
Theorem invalid_action_name (w : World E) (tc : ToolContext) (t : table E)
    (action_name : string) :
  game_table E w = Some t ->
  (forall m, m ∈ Action E -> member_name m <> upper action_name) ->
  process_player_action upper E action_name (w, tc)
  = ((w, tc),
     Return (PDict [("status", PStr "error");
                    ("message",
                      PStr ("Invalid action: " +:+ action_name
                            +:+ ". Valid actions are: "
                            +:+ repr_str_list (map member_name (Action E))))])).
Proof.
  intros Hsome Habsent. unfold process_player_action.
  rewrite (guard_initialized _ w tc t Hsome).
  unfold try_except_KeyError, try_except, bind, lift.
  rewrite (enum_getitem_absent _ _ Habsent). reflexivity.
Qed.

(** What a successful [initialize_poker_game] has done. *)
Lemma initialize_inv (w w' : World E) (tc tc' : ToolContext) (r : pyobj)
    (initial_stacks small_blind big_blind : Z) :
  initialize_poker_game E initial_stacks small_blind big_blind (w, tc)
    = ((w', tc'), Return r) ->
  field "status" r = Some (PStr "success") ->
  exists t0 t1 t2 t3 game_state,
    HoldemTable E initial_stacks small_blind big_blind false false 2 false
      = Return t0
    /\ add_player E "Player1" t0 = (t1, Return tt)
    /\ add_player E "Player2" t1 = (t2, Return tt)
    /\ reset E t2 = (t3, Return tt)
    /\ game_table E w' = Some t3
    /\ engine_calls E w'
       = engine_calls E w
         ++ [CallHoldemTable initial_stacks small_blind big_blind false false 2 false;
             CallAddPlayer "Player1"; CallAddPlayer "Player2"; CallReset]
    /\ field "game_state" r = Some game_state
    /\ current_game_state E w' = game_state
    /\ field "num_players" game_state = Some (PInt 2)
    /\ field "initial_stacks" game_state = Some (PInt initial_stacks)
    /\ field "small_blind" game_state = Some (PInt small_blind)
    /\ field "big_blind" game_state = Some (PInt big_blind)
    /\ field "current_hand" game_state = Some (PInt 1).
Proof.
  unfold initialize_poker_game, try_except, bind, log_call, lift,
    set_game_table, call, set_current_game_state, set_state, ret.
  destruct w as [gt cgs calls]. cbn.
  destruct (HoldemTable E initial_stacks small_blind big_blind false false 2 false)
    as [t0|e0] eqn:Hnew; cbn; [|intros [= <- <- <-]; discriminate].
  destruct (add_player E "Player1" t0) as [t1 [[]|e1]] eqn:Hadd1; cbn;
    [|intros [= <- <- <-]; discriminate].
  destruct (add_player E "Player2" t1) as [t2 [[]|e2]] eqn:Hadd2; cbn;
    [|intros [= <- <- <-]; discriminate].
  destruct (reset E t2) as [t3 [[]|e3]] eqn:Hreset; cbn;
    [|intros [= <- <- <-]; discriminate].
  intros [= <- <- <-] _. cbn.
  exists t0, t1, t2, t3. eexists. repeat split; try eassumption; try reflexivity.
  rewrite <- !app_assoc. reflexivity.
Qed.


(** The run of [initialize_poker_game] when every engine call returns. *)
Lemma initialize_run (w : World E) (tc : ToolContext)
    (initial_stacks small_blind big_blind : Z) (t0 t1 t2 t3 : table E) :
  HoldemTable E initial_stacks small_blind big_blind false false 2 false
    = Return t0 ->
  add_player E "Player1" t0 = (t1, Return tt) ->
  add_player E "Player2" t1 = (t2, Return tt) ->
  reset E t2 = (t3, Return tt) ->
  exists w' tc' r,
    initialize_poker_game E initial_stacks small_blind big_blind (w, tc)
      = ((w', tc'), Return r)
    /\ field "status" r = Some (PStr "success")
    /\ game_table E w' = Some t3.
Proof.
  intros Hnew Hadd1 Hadd2 Hreset.
  unfold initialize_poker_game, try_except, bind, log_call, lift,
    set_game_table, call, set_current_game_state, set_state, ret.
  destruct w as [gt cgs calls]. cbn.
  rewrite Hnew. cbn. rewrite Hadd1. cbn. rewrite Hadd2. cbn. rewrite Hreset. cbn.
  do 3 eexists. split; [reflexivity|]. split; reflexivity.
Qed.

(** C6. When [initialize_poker_game] returns status "success", one
    table was constructed with the given stacks and blinds, at most 2
    raises per player and round and [raise_illegal_moves=False]; the
    players "Player1" and "Player2" were added to it in that order and
    [reset()] was called; these four are the only engine calls made, the
    global holds the resulting table, and the returned [game_state]
    records the arguments, [num_players = 2] and [current_hand = 1]. *)
Theorem initialize_success (w w' : World E) (tc tc' : ToolContext) (r : pyobj)
    (initial_stacks small_blind big_blind : Z) :
  initialize_poker_game E initial_stacks small_blind big_blind (w, tc)
    = ((w', tc'), Return r) ->
  field "status" r = Some (PStr "success") ->
  exists t0 t1 t2 t3 game_state,
    HoldemTable E initial_stacks small_blind big_blind false false 2 false
      = Return t0
    /\ add_player E "Player1" t0 = (t1, Return tt)
    /\ add_player E "Player2" t1 = (t2, Return tt)
    /\ reset E t2 = (t3, Return tt)
    /\ game_table E w' = Some t3
    /\ engine_calls E w'
       = engine_calls E w
         ++ [CallHoldemTable initial_stacks small_blind big_blind false false 2 false;
             CallAddPlayer "Player1"; CallAddPlayer "Player2"; CallReset]
    /\ field "game_state" r = Some game_state
    /\ current_game_state E w' = game_state
    /\ field "num_players" game_state = Some (PInt 2)
    /\ field "initial_stacks" game_state = Some (PInt initial_stacks)
    /\ field "small_blind" game_state = Some (PInt small_blind)
    /\ field "big_blind" game_state = Some (PInt big_blind)
    /\ field "current_hand" game_state = Some (PInt 1).
Proof. apply initialize_inv. Qed.

(** C4, as the code has it. The tool layer keeps one table for the whole
    process in the global [game_table]: when [initialize_poker_game]
    succeeds, the global holds the newly built table, and that table is
    the same whatever the globals held before, so a table initialized
    earlier is replaced and no longer reached by any tool. *)
Theorem initialize_replaces_table (w w' : World E) (tc tc' : ToolContext)
    (r : pyobj) (initial_stacks small_blind big_blind : Z) :
  initialize_poker_game E initial_stacks small_blind big_blind (w, tc)
    = ((w', tc'), Return r) ->
  field "status" r = Some (PStr "success") ->
  exists t_new,
    game_table E w' = Some t_new
    /\ forall (w2 : World E) (tc2 : ToolContext),
         exists w2' tc2' r2,
           initialize_poker_game E initial_stacks small_blind big_blind (w2, tc2)
             = ((w2', tc2'), Return r2)
           /\ field "status" r2 = Some (PStr "success")
           /\ game_table E w2' = Some t_new.
Proof.
  intros Hrun Hok.
  destruct (initialize_inv _ _ _ _ _ _ _ _ Hrun Hok)
    as (t0 & t1 & t2 & t3 & gs & Hnew & Hadd1 & Hadd2 & Hreset & Htable & _).
  exists t3. split; [exact Htable|].
  intros w2 tc2. exact (initialize_run w2 tc2 _ _ _ _ _ _ _ Hnew Hadd1 Hadd2 Hreset).
Qed.

(** The loop of [check_game_over] in closed form: all entries in list
    order, and the last player with chips as winner. *)
Lemma game_over_loop_spec (ps : list (Player (card E))) (acc : list pyobj)
    (win : pyobj) :
  game_over_loop E ps acc win
  = (acc ++ map (final_stack_entry E) ps,
     match last (filter (fun p => 0 < stack p) ps) with
     | Some p => winner_entry E p
     | None => win
     end).
Proof.
  revert acc win. induction ps as [|p ps IH]; intros acc win; cbn.
  - rewrite app_nil_r. reflexivity.
  - rewrite IH, <- app_assoc. cbn. f_equal.
    destruct (Z.ltb_spec 0 (stack p)) as [Hpos|Hnot].
    + rewrite decide_True by exact Hpos. rewrite last_cons.
      destruct (last (filter _ ps)); reflexivity.
    + rewrite decide_False by lia. reflexivity.
Qed.

Lemma convert_final_stack_entries (ps : list (Player (card E))) :
  map _convert_numpy_types (map (final_stack_entry E) ps)
  = map (final_stack_entry E) ps.
Proof. induction ps as [|p ps IH]; cbn; [|rewrite IH]; reflexivity. Qed.

(** C8. [check_game_over] on an initialized game: when [done] holds,
    [final_stacks] lists every player's name, seat and stack in the
    order of [players], and [winner] is the last player of that order
    with [stack > 0] (the only one when there is exactly one, [None]
    when there is none); when [done] does not hold, [winner] is [None]
    and [final_stacks] is empty. *)
Theorem check_game_over_result (w : World E) (tc : ToolContext) (t : table E) :
  game_table E w = Some t ->
  exists r,
    check_game_over E (w, tc) = ((w, tc), Return r)
    /\ field "status" r = Some (PStr "success")
    /\ field "game_over" r = Some (PBool (done E t))
    /\ (done E t = true ->
        field "final_stacks" r
          = Some (PList (map (final_stack_entry E) (players E t)))
        /\ field "winner" r
           = Some (match last (filter (fun p => 0 < stack p) (players E t)) with
                   | Some p => winner_entry E p
                   | None => PNone
                   end))
    /\ (done E t = false ->
        field "winner" r = Some PNone /\ field "final_stacks" r = Some (PList [])).
Proof.
  intros Hsome. unfold check_game_over.
  rewrite (guard_initialized _ w tc t Hsome).
  unfold try_except, bind. rewrite (the_table_initialized w tc t Hsome).
  destruct (done E t) eqn:Hdone.
  - rewrite game_over_loop_spec. cbn.
    eexists. split; [reflexivity|]. cbn.
    repeat split; try discriminate.
    + rewrite convert_final_stack_entries. reflexivity.
    + destruct (last (filter _ (players E t))); reflexivity.
  - cbn. eexists. split; [reflexivity|]. cbn.
    repeat split; discriminate.
Qed.

Lemma float_overflow_bound_large : 1 < float_overflow_bound.
Proof. reflexivity. Qed.

(** A quotient of magnitude at most 1 is within the range of a float. *)
Lemma truediv_small (a b : Z) :
  b <> 0 -> Z.abs a <= Z.abs b -> truediv_overflows a b = false.
Proof.
  intros Hb Hle. unfold truediv_overflows. apply Z.leb_gt.
  pose proof float_overflow_bound_large. nia.
Qed.

(** The run of [calculate_pot_odds] on any table: what it returns in
    each of its cases. *)
Lemma pot_odds_run (w : World E) (tc : ToolContext) (t : table E) :
  game_table E w = Some t ->
  let total_pot := community_pot E t + current_round_pot E t in
  let call_amount := default 0 (min_call E t) in
  let answer (pot_odds pot_odds_percentage : F) :=
    PDict [("status", PStr "success");
           ("total_pot", PInt total_pot);
           ("call_amount", PInt call_amount);
           ("pot_odds", PFloat pot_odds);
           ("pot_odds_percentage", PFloat (float_round pot_odds_percentage 2));
           ("current_player",
             opt_obj (fun p => PStr (name p)) (current_player E t))] in
  exists r,
    calculate_pot_odds E (w, tc) = ((w, tc), Return r)
    /\ (0 < call_amount -> total_pot + call_amount = 0 ->
        r = error_dict "Error calculating pot odds: division by zero")
    /\ (0 < call_amount -> total_pot + call_amount <> 0 ->
        truediv_overflows total_pot call_amount = true
        \/ truediv_overflows call_amount (total_pot + call_amount) = true ->
        r = error_dict
              "Error calculating pot odds: integer division result too large for a float")
    /\ (0 < call_amount -> total_pot + call_amount <> 0 ->
        truediv_overflows total_pot call_amount = false ->
        truediv_overflows call_amount (total_pot + call_amount) = false ->
        r = answer (int_truediv total_pot call_amount)
              (float_mul_int
                 (int_truediv call_amount (total_pot + call_amount)) 100))
    /\ (call_amount <= 0 -> r = answer float_inf (float_of_int 0)).
Proof.
  intros Hsome total_pot call_amount answer. unfold calculate_pot_odds.
  rewrite (guard_initialized _ w tc t Hsome).
  unfold try_except, bind. rewrite (the_table_initialized w tc t Hsome).
  fold total_pot. fold call_amount.
  destruct (Z.ltb_spec 0 call_amount) as [Hpos|Hnpos].
  - unfold lift, truediv, ret.
    destruct (Z.eqb_spec call_amount 0) as [|_]; [lia|].
    destruct (Z.eqb_spec (total_pot + call_amount) 0) as [Hzero|Hnz].
    + rewrite (truediv_small total_pot call_amount) by lia.
      eexists. split; [reflexivity|]. split; [reflexivity|].
      split; [intros _ Hne; contradiction|].
      split; [intros _ Hne; contradiction | intros Hle; lia].
    + destruct (truediv_overflows total_pot call_amount) eqn:Hover1.
      * eexists. split; [reflexivity|]. split; [intros _ Hz; contradiction|].
        split; [reflexivity|]. split; [discriminate | intros Hle; lia].
      * destruct (truediv_overflows call_amount (total_pot + call_amount))
          eqn:Hover2.
        -- eexists. split; [reflexivity|]. split; [intros _ Hz; contradiction|].
           split; [reflexivity|]. split; [discriminate | intros Hle; lia].
        -- eexists. split; [reflexivity|]. split; [intros _ Hz; contradiction|].
           split; [intros _ _ [Hover|Hover]; discriminate Hover|].
           split; [|intros Hle; lia].
           intros _ _ _ _. unfold answer. cbn.
           destruct (current_player E t); reflexivity.
  - unfold ret. eexists. split; [reflexivity|].
    split; [intros Hlt; lia|]. split; [intros Hlt; lia|].
    split; [intros Hlt; lia|].
    intros _. unfold answer. cbn. destruct (current_player E t); reflexivity.
Qed.

(** C10, as the code has it. [calculate_pot_odds] on an initialized game
    whose amounts are Python integers: for every state with
    [min_call > 0], a total pot that the call amount does not cancel
    ([total_pot + min_call <> 0]) and both quotients within the range of
    a float, it returns [pot_odds = total_pot / min_call] and
    [pot_odds_percentage = min_call / (total_pot + min_call) * 100]
    rounded to 2 places, where [total_pot] is the sum of the two pots;
    for every state with [min_call] equal to 0 or not set it returns
    infinity and the rounded [float(0)]. *)
Theorem pot_odds_result (w : World E) (tc : ToolContext) (t : table E) :
  game_table E w = Some t ->
  let total_pot := community_pot E t + current_round_pot E t in
  exists r,
    calculate_pot_odds E (w, tc) = ((w, tc), Return r)
    /\ (forall c, min_call E t = Some c -> 0 < c ->
        total_pot + c <> 0 ->
        truediv_overflows total_pot c = false ->
        truediv_overflows c (total_pot + c) = false ->
        field "status" r = Some (PStr "success")
        /\ field "pot_odds" r = Some (PFloat (int_truediv total_pot c))
        /\ field "pot_odds_percentage" r
           = Some (PFloat (float_round
                             (float_mul_int (int_truediv c (total_pot + c)) 100) 2)))
    /\ (min_call E t = Some 0 \/ min_call E t = None ->
        field "status" r = Some (PStr "success")
        /\ field "pot_odds" r = Some (PFloat float_inf)
        /\ field "pot_odds_percentage" r
           = Some (PFloat (float_round (float_of_int 0) 2))).
Proof.
  intros Hsome total_pot.
  destruct (pot_odds_run w tc t Hsome) as (r & Hrun & _ & _ & Hpos & Hzero).
  exists r. split; [exact Hrun|]. split.
  - intros c Hmc Hc Hnz Hover1 Hover2. rewrite Hmc in Hpos. cbn in Hpos.
    rewrite (Hpos Hc Hnz Hover1 Hover2). repeat split; reflexivity.
  - intros Hmc.
    assert (Hcall : default 0 (min_call E t) <= 0)
      by (destruct Hmc as [-> | ->]; cbn; lia).
    rewrite (Hzero Hcall). repeat split; reflexivity.
Qed.

Lemma no_float_names (moves : list enum_member) :
  forallb (Shape.no_float (F := F)) (map (fun a => PStr (member_name a)) moves)
  = true.
Proof. induction moves as [|m moves IH]; cbn; [reflexivity | exact IH]. Qed.

Lemma no_float_cards (cs : list (card E)) :
  forallb (Shape.no_float (F := F)) (map (fun c => PStr (str_card E c)) cs) = true.
Proof. induction cs as [|c cs IH]; cbn; [reflexivity | exact IH]. Qed.

Lemma no_float_imap {A} (f : nat -> A -> pyobj) (l : list A) :
  (forall i x, Shape.no_float (f i x) = true) ->
  forallb Shape.no_float (imap f l) = true.
Proof.
  revert f. induction l as [|x l IH]; intros f Hf; cbn; [reflexivity|].
  rewrite Hf. apply IH. intros i y. apply Hf.
Qed.

Lemma no_float_player_info (t : table E) (i : nat) (p : Player (card E)) :
  Shape.no_float (player_info E t i p) = true.
Proof.
  unfold player_info, str_cards. cbn. rewrite no_float_cards.
  destruct (player_pots E t !! i); destruct (player_cycle E t); reflexivity.
Qed.

(** The snapshot of [get_game_state] is built from integers, strings and
    booleans: whatever the engine, no float occurs in what the tool
    returns. *)
Lemma get_game_state_no_float (w : World E) (tc : ToolContext) :
  exists r,
    snd (get_game_state E (w, tc)) = Return r /\ Shape.no_float r = true.
Proof.
  destruct (game_table E w) as [t|] eqn:Hsome; unfold get_game_state.
  - rewrite (guard_initialized _ w tc t Hsome).
    unfold try_except, bind, call, the_table, set_state, ret.
    destruct w as [gt cgs calls]. cbn in Hsome. subst gt.
    cbn -[_convert_numpy_types].
    destruct (_get_environment E t) as [t' [[]|e]]; cbn -[_convert_numpy_types].
    + eexists. split; [reflexivity|]. apply PyFacts.no_float_convert.
      unfold str_cards, action_names. cbn.
      rewrite no_float_cards, (no_float_imap _ _ (no_float_player_info t')).
      destruct (current_player E t'), (legal_moves E t'), (winner_ix E t'); cbn;
        rewrite ?no_float_names; reflexivity.
    + eexists. split; reflexivity.
  - rewrite (guard_not_initialized _ w tc Hsome). eexists. split; reflexivity.
Qed.

Lemma convert_str_cards (cs : list (card E)) :
  _convert_numpy_types (str_cards E cs) = str_cards E cs.
Proof.
  unfold str_cards. cbn. f_equal.
  induction cs as [|c cs IH]; cbn; [|rewrite IH]; reflexivity.
Qed.

Lemma convert_player_info (t : table E) (i : nat) (p : Player (card E)) :
  _convert_numpy_types (player_info E t i p) = player_info E t i p.
Proof.
  unfold player_info.
  cbn [_convert_numpy_types map].
  fold (_convert_numpy_types (str_cards E (cards p))).
  rewrite convert_str_cards.
  destruct (player_pots E t !! i); destruct (player_cycle E t); reflexivity.
Qed.

Lemma map_imap_fixed {A} (g : pyobj -> pyobj) (f : nat -> A -> pyobj) (l : list A) :
  (forall i x, g (f i x) = f i x) -> map g (imap f l) = imap f l.
Proof.
  revert f. induction l as [|x l IH]; intros f Hfix; cbn; [reflexivity|].
  rewrite Hfix, IH; [reflexivity|]. intros i y. apply Hfix.
Qed.

(** The player entries of the snapshot [get_game_state] returns. *)
Lemma get_game_state_players (w : World E) (tc : ToolContext) (t t' : table E) :
  game_table E w = Some t ->
  _get_environment E t = (t', Return tt) ->
  exists env' r,
    get_game_state E (w, tc) = (env', Return r)
    /\ field "status" r = Some (PStr "success")
    /\ field "stage" r = Some (PStr (match stage E t' with
                                     | Some st => member_name st
                                     | None => "UNKNOWN"
                                     end))
    /\ field "players" r = Some (PList (imap (player_info E t') (players E t')))
    /\ field "community_pot" r = Some (PInt (community_pot E t'))
    /\ field "current_round_pot" r = Some (PInt (current_round_pot E t'))
    /\ field "min_call" r = Some (PInt (default 0 (min_call E t'))).
Proof.
  intros Hsome Henv. unfold get_game_state.
  rewrite (guard_initialized _ w tc t Hsome).
  unfold try_except, bind, call, the_table, set_state, ret.
  destruct w as [gt cgs calls]. cbn in Hsome. subst gt. cbn.
  rewrite Henv. cbn.
  do 2 eexists. split; [reflexivity|]. cbn.
  split; [reflexivity|]. split; [reflexivity|].
  split; [|split; [|split]; reflexivity].
  do 2 f_equal.
  apply (map_imap_fixed _convert_numpy_types). apply convert_player_info.
Qed.

(** C1, as the code has it. The tools take no observer and look at no
    stage: [get_game_state] returns, for every seat, that seat's hole
    cards in [players[i].cards], and [get_player_hand(seat)] returns the
    hole cards of the seat given as argument, for every valid seat. *)
Theorem hole_cards_exposed (w : World E) (tc : ToolContext) (t t' : table E) :
  game_table E w = Some t ->
  _get_environment E t = (t', Return tt) ->
  (exists env' r entries,
     get_game_state E (w, tc) = (env', Return r)
     /\ field "players" r = Some (PList entries)
     /\ forall i p, players E t' !! i = Some p ->
          exists entry, entries !! i = Some entry
                        /\ field "cards" entry = Some (str_cards E (cards p)))
  /\ (forall seat p, players E t !! seat = Some p ->
      exists r,
        get_player_hand E (Z.of_nat seat) (w, tc) = ((w, tc), Return r)
        /\ field "status" r = Some (PStr "success")
        /\ field "hand_cards" r = Some (str_cards E (cards p))).
Proof.
  intros Hsome Henv. split.
  - destruct (get_game_state_players w tc t t' Hsome Henv)
      as (env' & r & Hrun & _ & _ & Hplayers & _).
    exists env', r. eexists. split; [exact Hrun|]. split; [exact Hplayers|].
    intros i p Hp. rewrite list_lookup_imap, Hp. cbn.
    eexists. split; reflexivity.
  - intros seat p Hp. unfold get_player_hand.
    rewrite (guard_initialized _ w tc t Hsome).
    unfold try_except, bind. rewrite (the_table_initialized w tc t Hsome).
    pose proof (lookup_lt_Some _ _ _ Hp) as Hlt.
    destruct (Z.ltb_spec (Z.of_nat seat) 0) as [Hneg|_]; [lia|].
    destruct (Z.leb_spec (Z.of_nat (length (players E t))) (Z.of_nat seat))
      as [Hge|_]; [lia|].
    cbn [orb]. unfold lift, index.
    destruct (Z.ltb_spec (Z.of_nat seat) 0) as [Hneg|_]; [lia|].
    destruct (Z.leb_spec 0 (Z.of_nat seat)) as [_|Hneg]; [|lia].
    destruct (Z.ltb_spec (Z.of_nat seat) (Z.of_nat (length (players E t))))
      as [_|Hge]; [|lia].
    cbn [andb]. rewrite Nat2Z.id, Hp. unfold ret.
    eexists. split; [reflexivity|]. cbn.
    split; [reflexivity|].
    f_equal. exact (convert_str_cards (cards p)).
Qed.

End Facts.
End ToolsFacts.

(** * Properties of the table engine *)

Module TableFacts.
Import Py Table.

(** ** Sums of stacks under updates *)

Lemma sumZ_app (l1 l2 : list Z) : sumZ (l1 ++ l2) = sumZ l1 + sumZ l2.
Proof. induction l1 as [|x l1 IH]; cbn; [|rewrite IH]; lia. Qed.

Lemma sum_stacks_insert (ps : list Player) (i : nat) (p : Player) (s : Z) :
  ps !! i = Some p ->
  sumZ (map Tools.stack (<[i := with_stack p s]> ps))
  = sumZ (map Tools.stack ps) - Tools.stack p + s.
Proof.
  revert i. induction ps as [|q ps IH]; intros [|i] Hlook; try discriminate.
  - cbn in Hlook. injection Hlook as ->. cbn. lia.
  - change (<[S i := with_stack p s]> (q :: ps))
      with (q :: <[i := with_stack p s]> ps).
    cbn [map sumZ]. rewrite (IH i Hlook). lia.
Qed.

Lemma add_stack_length (i : nat) (x : Z) (ps : list Player) :
  length (add_stack i x ps) = length ps.
Proof.
  unfold add_stack. destruct (ps !! i); [apply length_insert | reflexivity].
Qed.

Lemma add_stack_sum (i : nat) (x : Z) (ps : list Player) :
  (i < length ps)%nat ->
  sumZ (map Tools.stack (add_stack i x ps)) = sumZ (map Tools.stack ps) + x.
Proof.
  intros Hlt. unfold add_stack.
  destruct (lookup_lt_is_Some_2 ps i Hlt) as [p Hp]. rewrite Hp.
  rewrite (sum_stacks_insert ps i p _ Hp). lia.
Qed.

(** Every winner receives the even share. *)
Lemma shares_sum (share : Z) (winners : list nat) (ps : list Player) :
  Forall (fun w => (w < length ps)%nat) winners ->
  let ps' := foldr (fun w acc => add_stack w share acc) ps winners in
  length ps' = length ps
  /\ sumZ (map Tools.stack ps')
     = sumZ (map Tools.stack ps) + Z.of_nat (length winners) * share.
Proof.
  induction 1 as [|w winners Hw _ IH]; cbn.
  - split; [reflexivity | lia].
  - destruct IH as [Hlen Hsum]. split.
    + rewrite add_stack_length. exact Hlen.
    + rewrite add_stack_sum by (rewrite Hlen; exact Hw). rewrite Hsum. lia.
Qed.

(** Paying a pot moves exactly the amount paid into the stacks. *)
Lemma award_sum (amount : Z) (winners : list nat) (ps : list Player) :
  Forall (fun w => (w < length ps)%nat) winners ->
  length (fst (award amount winners ps)) = length ps
  /\ sumZ (map Tools.stack (fst (award amount winners ps)))
     = sumZ (map Tools.stack ps) + snd (award amount winners ps).
Proof.
  intros Hvalid. destruct winners as [|first rest]; cbn [award fst snd].
  - split; [reflexivity | lia].
  - destruct (shares_sum (amount `div` Z.of_nat (length (first :: rest)))
                (first :: rest) ps Hvalid) as [Hlen Hsum].
    split.
    + rewrite add_stack_length. exact Hlen.
    + rewrite add_stack_sum.
      * rewrite Hsum.
        pose proof (Z.div_mod amount (Z.of_nat (length (first :: rest)))) as Hdm.
        cbn [length] in *. lia.
      * rewrite Hlen. inversion Hvalid; assumption.
Qed.

Lemma seats_after_valid (n start : nat) :
  Forall (fun i => (i < n)%nat) (seats_after n start).
Proof.
  unfold seats_after. apply Forall_forall. intros i Hin.
  apply list_elem_of_In, in_map_iff in Hin. destruct Hin as (k & <- & Hk).
  apply in_seq in Hk. apply Nat.mod_upper_bound. lia.
Qed.

Lemma seats_where_valid (f : nat -> bool) (n : nat) :
  Forall (fun i => (i < n)%nat) (seats_where f n).
Proof.
  unfold seats_where. apply Forall_forall. intros i Hin.
  apply list_elem_of_filter in Hin. destruct Hin as [_ Hin].
  apply list_elem_of_In, in_seq in Hin. lia.
Qed.

(** ** Amounts that stay chip counts *)

Lemma sumZ_nonneg (l : list Z) : nonneg l -> 0 <= sumZ l.
Proof. induction 1; cbn; lia. Qed.

Lemma nonneg_zeros {A} (l : list A) : nonneg (map (fun _ => 0) l).
Proof. induction l; constructor; [lia | assumption]. Qed.

Lemma sumZ_zeros {A} (l : list A) : sumZ (map (fun _ => 0) l) = 0.
Proof. induction l; cbn; lia. Qed.

Lemma nonneg_alter_add (a : Z) (i : nat) (l : list Z) :
  0 <= a -> nonneg l -> nonneg (alter (Z.add a) i l).
Proof.
  intros Ha Hl. apply Forall_alter; [exact Hl|]. intros x _ Hx. lia.
Qed.

Lemma sumZ_alter_add (a : Z) (i : nat) (l : list Z) :
  (i < length l)%nat -> sumZ (alter (Z.add a) i l) = sumZ l + a.
Proof.
  revert i. induction l as [|x l IH]; intros [|i] Hlt; cbn in Hlt; try lia.
  - cbn. lia.
  - change (alter (Z.add a) (S i) (x :: l)) with (x :: alter (Z.add a) i l).
    cbn [sumZ]. rewrite IH by lia. lia.
Qed.

Lemma nonneg_stacks_insert (ps : list Player) (i : nat) (p : Player) (s : Z) :
  nonneg (map Tools.stack ps) -> 0 <= s ->
  nonneg (map Tools.stack (<[i := with_stack p s]> ps)).
Proof.
  intros Hps Hs. revert i. induction ps as [|q ps IH]; intros [|i]; cbn.
  - constructor.
  - constructor.
  - inversion Hps; subst. constructor; assumption.
  - inversion Hps; subst. constructor; [assumption|]. apply IH. assumption.
Qed.

Lemma stack_lookup_nonneg (ps : list Player) (i : nat) (p : Player) :
  nonneg (map Tools.stack ps) -> ps !! i = Some p -> 0 <= Tools.stack p.
Proof.
  intros Hps. revert i. induction ps as [|q ps IH]; intros [|i] Hlook;
    try discriminate; inversion Hps; subst.
  - cbn in Hlook. injection Hlook as <-. assumption.
  - exact (IH H2 i Hlook).
Qed.

Lemma add_stack_nonneg (i : nat) (x : Z) (ps : list Player) :
  0 <= x -> nonneg (map Tools.stack ps) ->
  nonneg (map Tools.stack (add_stack i x ps)).
Proof.
  intros Hx Hps. unfold add_stack. destruct (ps !! i) as [p|] eqn:Hp; [|exact Hps].
  apply nonneg_stacks_insert; [exact Hps|].
  pose proof (stack_lookup_nonneg ps i p Hps Hp). lia.
Qed.

Lemma award_amounts (amount : Z) (winners : list nat) (ps : list Player) :
  0 <= amount -> nonneg (map Tools.stack ps) ->
  nonneg (map Tools.stack (fst (award amount winners ps)))
  /\ 0 <= snd (award amount winners ps) <= amount.
Proof.
  intros Hamount Hps. destruct winners as [|first rest]; cbn [award fst snd].
  - split; [exact Hps | lia].
  - set (k := Z.of_nat (length (first :: rest))).
    assert (Hk : 0 < k) by (unfold k; cbn [length]; lia).
    split; [|lia].
    apply add_stack_nonneg; [apply Z.mod_pos_bound; exact Hk|].
    assert (Hshare : 0 <= amount `div` k) by (apply Z.div_pos; lia).
    generalize (first :: rest) as ws. intros ws.
    induction ws as [|w ws IH]; cbn; [exact Hps|].
    apply add_stack_nonneg; assumption.
Qed.

(** One tier and what it leaves add up to the contributions. *)
Lemma tier_split_sum (rem : list Z) (m : Z) :
  sumZ (map (fun r => Z.min r m) rem) + sumZ (map (fun r => r - Z.min r m) rem)
  = sumZ rem.
Proof. induction rem as [|r rem IH]; cbn; lia. Qed.

Lemma tier_level_pos (rem : list Z) (al : list bool) (m : Z) :
  tier_level rem al = Some m -> 0 < m.
Proof.
  unfold tier_level. generalize (zip rem al) as l. intros l. revert m.
  induction l as [|[r a] l IH]; intros m; cbn; [discriminate|].
  destruct a; cbn; [|apply IH].
  destruct (Z.ltb_spec 0 r) as [Hr|_]; [|apply IH].
  destruct (foldr _ None l) as [m'|].
  - intros [= <-]. specialize (IH m' eq_refl). lia.
  - intros [= <-]. exact Hr.
Qed.

Lemma side_pots_amounts (fuel : nat) (rem : list Z) (al : list bool) :
  nonneg rem ->
  sumZ (map fst (fst (side_pots fuel rem al))) + sumZ (snd (side_pots fuel rem al))
  = sumZ rem
  /\ Forall (fun pot => 0 <= fst pot) (fst (side_pots fuel rem al))
  /\ nonneg (snd (side_pots fuel rem al)).
Proof.
  revert rem. induction fuel as [|fuel IH]; intros rem Hrem; cbn.
  - split; [lia | split; [constructor | exact Hrem]].
  - destruct (tier_level rem al) as [m|] eqn:Hm; cbn.
    + apply tier_level_pos in Hm.
      assert (Hrest : nonneg (map (fun r => r - Z.min r m) rem)).
      { clear -Hrem. induction Hrem; constructor; [lia | assumption]. }
      assert (Htier : nonneg (map (fun r => Z.min r m) rem)).
      { clear -Hrem Hm. induction Hrem; constructor; [lia | assumption]. }
      destruct (IH _ Hrest) as (Hsum & Hpots & Hleft).
      destruct (side_pots fuel _ al) as [pots rest]. cbn [fst snd map sumZ] in *.
      pose proof (tier_split_sum rem m). pose proof (sumZ_nonneg _ Htier).
      split; [lia | split; [constructor; [cbn; lia | exact Hpots] | exact Hleft]].
    + split; [lia | split; [constructor | exact Hrem]].
Qed.

Section EngineFacts.
Context {RaiseVariant : Type} `{EqDecision RaiseVariant}.
Variable raise_variants : list RaiseVariant.
Variable raise_size : RaiseVariant -> Z -> Z -> N.
Variable evaluate : list Card -> Z.
Variable shuffle : Z -> list Card.

Lemma winners_of_valid (t : Table) (eligible : list nat) :
  Forall (fun w => (w < length (players t))%nat) (winners_of evaluate t eligible).
Proof.
  unfold winners_of. apply Forall_forall. intros i Hin.
  apply list_elem_of_filter in Hin. destruct Hin as [_ Hin].
  pose proof (seats_after_valid (length (players t)) (dealer_pos (cycle t))) as Hv.
  rewrite Forall_forall in Hv. exact (Hv i Hin).
Qed.

Lemma pay_pots_sum (t : Table) (pots : list (Z * list nat)) (ps : list Player) :
  length ps = length (players t) ->
  length (fst (pay_pots evaluate t pots ps)) = length ps
  /\ sumZ (map Tools.stack (fst (pay_pots evaluate t pots ps)))
     = sumZ (map Tools.stack ps) + snd (pay_pots evaluate t pots ps).
Proof.
  revert ps. induction pots as [|[amount eligible] pots IH]; intros ps Hlen; cbn.
  - split; [reflexivity | lia].
  - pose proof (winners_of_valid t eligible) as Hvalid. rewrite <- Hlen in Hvalid.
    destruct (award_sum amount _ ps Hvalid) as [Hlen1 Hsum1].
    destruct (award amount (winners_of evaluate t eligible) ps) as [ps1 paid1].
    cbn [fst snd] in *.
    destruct (IH ps1 (eq_trans Hlen1 Hlen)) as [Hlen2 Hsum2].
    destruct (pay_pots evaluate t pots ps1) as [ps2 paid2]. cbn [fst snd] in *.
    split; [congruence | lia].
Qed.

Lemma chips_settle_pots (t : Table) (pots : list (Z * list nat)) :
  chips (settle_pots evaluate t pots) = chips t.
Proof.
  unfold settle_pots.
  destruct (pay_pots_sum t pots (players t) eq_refl) as [_ Hsum].
  destruct (pay_pots evaluate t pots (players t)) as [ps paid].
  cbn [fst snd] in Hsum. unfold chips, stacks. cbn. rewrite Hsum. lia.
Qed.

Lemma chips_collapse_round (t : Table) : chips (collapse_round t) = chips t.
Proof. unfold chips, stacks, collapse_round. cbn. lia. Qed.

Lemma chips_showdown (t : Table) : chips (showdown evaluate t) = chips t.
Proof.
  unfold showdown.
  destruct (side_pots _ _ _) as [tiers rest].
  change (chips (with_done ?u _ _)) with (chips u).
  apply chips_settle_pots.
Qed.

Lemma chips_award_sole (t : Table) : chips (award_sole evaluate t) = chips t.
Proof.
  unfold award_sole.
  change (chips (with_done ?u _ _)) with (chips u).
  rewrite chips_settle_pots. apply chips_collapse_round.
Qed.

Lemma chips_commit (seat : nat) (amount : Z) (t t' : Table) :
  commit seat amount t = Ok t' -> chips t' = chips t.
Proof.
  unfold commit. destruct (players t !! seat) as [p|] eqn:Hp; [|discriminate].
  destruct (Tools.stack p <? amount); [discriminate|].
  intros [= <-]. unfold chips, stacks. cbn.
  rewrite (sum_stacks_insert _ _ _ _ Hp). lia.
Qed.

Lemma chips_deal_board (n : nat) (st : Stage) (t t' : Table) :
  deal_board n st t = Ok t' -> chips t' = chips t.
Proof.
  unfold deal_board. destruct (deal n (deck t)) as [[cs d]|e]; [|discriminate].
  intros [= <-]. reflexivity.
Qed.

Lemma chips_advance (fuel : nat) (t t' : Table) :
  advance evaluate fuel t = Ok t' -> chips t' = chips t.
Proof.
  revert t t'. induction fuel as [|fuel IH]; intros t t'; cbn.
  - intros [= <-]. reflexivity.
  - set (t0 := collapse_round t).
    assert (Hnext : forall t1,
               match stage t0 with
               | PREFLOP => deal_board 3 FLOP t0
               | FLOP => deal_board 1 TURN t0
               | TURN => deal_board 1 RIVER t0
               | RIVER => Ok (showdown evaluate t0)
               | SHOWDOWN | END_HIDDEN =>
                   Ok (with_done t0 (stage t0) (winner_seats t0))
               end = Ok t1 -> chips t1 = chips t).
    { intros t1 Hstage. rewrite <- (chips_collapse_round t). fold t0.
      destruct (stage t0); try (apply (chips_deal_board _ _ _ _ Hstage));
        injection Hstage as <-; [apply chips_showdown | reflexivity | reflexivity]. }
    destruct (match stage t0 with
              | PREFLOP => _ | FLOP => _ | TURN => _ | RIVER => _
              | SHOWDOWN | END_HIDDEN => _ end) as [t1|e]; [|discriminate].
    specialize (Hnext t1 eq_refl).
    destruct (done t1); [intros [= <-]; exact Hnext|].
    destruct (_ <=? 1)%nat.
    + intros Hadv. rewrite (IH _ _ Hadv). exact Hnext.
    + intros [= <-]. exact Hnext.
Qed.

Lemma chips_settle (seat : nat) (t t' : Table) :
  settle evaluate seat t = Ok t' -> chips t' = chips t.
Proof.
  unfold settle. destruct (_ <=? 1)%nat.
  - intros [= <-]. apply chips_award_sole.
  - destruct (round_is_complete t).
    + apply chips_advance.
    + intros [= <-]. reflexivity.
Qed.

Lemma chips_step (a : Action) (t : Table) :
  chips (fst (step raise_variants raise_size evaluate a t)) = chips t.
Proof.
  unfold step. destruct (done t); [reflexivity|].
  destruct (current (cycle t)) as [seat|]; [|reflexivity].
  set (legal := bool_decide _).
  assert (Hgo : forall a',
    chips (fst match commit seat (action_amount raise_size t seat a') t with
               | Ok t1 =>
                   match settle evaluate seat
                           (with_cycle t1 (record_action seat a' (cycle t1))) with
                   | Ok t2 => (t2, Ok {| reward := stack_of t2 seat - stack_of t seat;
                                         step_done := done t2 |})
                   | Err e => (t, Err e)
                   end
               | Err e => (t, Err e)
               end) = chips t).
  { intros a'. destruct (commit seat _ t) as [t1|e] eqn:Hcommit; [|reflexivity].
    destruct (settle evaluate seat _) as [t2|e] eqn:Hsettle; [|reflexivity].
    cbn [fst]. rewrite (chips_settle _ _ _ Hsettle).
    exact (chips_commit _ _ _ _ Hcommit). }
  destruct legal; [apply Hgo|].
  destruct (policy (config t)); [reflexivity | apply Hgo].
Qed.

(** C2. Across every [step] call, and so across every sequence of
    actions of a hand, the sum of all stacks plus the community pot plus
    the current round pot is unchanged. *)
Theorem chip_conservation (acts : list Action) (t : Table) :
  chips (steps raise_variants raise_size evaluate acts t) = chips t.
Proof.
  unfold steps. revert t. induction acts as [|a acts IH]; intros t; cbn.
  - reflexivity.
  - rewrite IH. apply chips_step.
Qed.

(** ** The configuration is fixed at construction *)

Lemma config_commit (seat : nat) (amount : Z) (t t' : Table) :
  commit seat amount t = Ok t' -> config t' = config t.
Proof.
  unfold commit. destruct (players t !! seat); [|discriminate].
  destruct (_ <? _); [discriminate|]. intros [= <-]. reflexivity.
Qed.

Lemma config_settle_pots (t : Table) (pots : list (Z * list nat)) :
  config (settle_pots evaluate t pots) = config t.
Proof. unfold settle_pots. destruct (pay_pots _ _ _ _). reflexivity. Qed.

Lemma config_showdown (t : Table) : config (showdown evaluate t) = config t.
Proof.
  unfold showdown. destruct (side_pots _ _ _). cbn. apply config_settle_pots.
Qed.

Lemma config_deal_board (n : nat) (st : Stage) (t t' : Table) :
  deal_board n st t = Ok t' -> config t' = config t.
Proof.
  unfold deal_board. destruct (deal n (deck t)) as [[cs d]|e]; [|discriminate].
  intros [= <-]. reflexivity.
Qed.

Lemma config_advance (fuel : nat) (t t' : Table) :
  advance evaluate fuel t = Ok t' -> config t' = config t.
Proof.
  revert t t'. induction fuel as [|fuel IH]; intros t t'; cbn.
  - intros [= <-]. reflexivity.
  - set (t0 := collapse_round t).
    assert (Hnext : forall t1,
               match stage t0 with
               | PREFLOP => deal_board 3 FLOP t0
               | FLOP => deal_board 1 TURN t0
               | TURN => deal_board 1 RIVER t0
               | RIVER => Ok (showdown evaluate t0)
               | SHOWDOWN | END_HIDDEN =>
                   Ok (with_done t0 (stage t0) (winner_seats t0))
               end = Ok t1 -> config t1 = config t).
    { intros t1 Hstage. change (config t) with (config t0).
      destruct (stage t0); try (apply (config_deal_board _ _ _ _ Hstage));
        injection Hstage as <-; [apply config_showdown | reflexivity | reflexivity]. }
    destruct (match stage t0 with
              | PREFLOP => _ | FLOP => _ | TURN => _ | RIVER => _
              | SHOWDOWN | END_HIDDEN => _ end) as [t1|e]; [|discriminate].
    specialize (Hnext t1 eq_refl).
    destruct (done t1); [intros [= <-]; exact Hnext|].
    destruct (_ <=? 1)%nat.
    + intros Hadv. rewrite (IH _ _ Hadv). exact Hnext.
    + intros [= <-]. exact Hnext.
Qed.

Lemma config_settle (seat : nat) (t t' : Table) :
  settle evaluate seat t = Ok t' -> config t' = config t.
Proof.
  unfold settle. destruct (_ <=? 1)%nat.
  - intros [= <-]. unfold award_sole. cbn. rewrite config_settle_pots. reflexivity.
  - destruct (round_is_complete t).
    + apply config_advance.
    + intros [= <-]. reflexivity.
Qed.

Lemma config_step (a : Action) (t : Table) :
  config (fst (step raise_variants raise_size evaluate a t)) = config t.
Proof.
  unfold step. destruct (done t); [reflexivity|].
  destruct (current (cycle t)) as [seat|]; [|reflexivity].
  destruct (bool_decide _), (policy (config t)); try reflexivity;
    (destruct (commit seat _ t) as [t1|e] eqn:Hcommit; [|reflexivity];
     destruct (settle evaluate seat _) as [t2|e] eqn:Hsettle; [|reflexivity];
     cbn [fst]; rewrite (config_settle _ _ _ Hsettle);
     exact (config_commit _ _ _ _ Hcommit)).
Qed.

Lemma config_reset (t t' : Table) :
  reset evaluate shuffle t = Ok t' -> config t' = config t.
Proof.
  unfold reset. destruct (deal _ _) as [[hole d]|e]; [|discriminate].
  destruct (_ <? 2)%nat; [discriminate|].
  destruct (commit _ _ _) as [t1|e] eqn:H1; [|discriminate].
  destruct (commit _ _ t1) as [t2|e] eqn:H2; [|discriminate].
  intros Hsettle. rewrite (config_settle _ _ _ Hsettle).
  rewrite (config_commit _ _ _ _ H2), (config_commit _ _ _ _ H1). reflexivity.
Qed.

Lemma reachable_config (c : Config) (t : Table) :
  reachable raise_variants raise_size evaluate shuffle c t -> config t = c.
Proof.
  induction 1 as [|nm t _ IH|t t' _ IH Hreset|a t _ IH].
  - destruct c. reflexivity.
  - exact IH.
  - rewrite (config_reset _ _ Hreset). exact IH.
  - rewrite config_step. exact IH.
Qed.

(** The two illegal-action policies of the modelled engine.  On a table
    with the reject policy, [step(a)] succeeds only if [a] is among the
    legal moves of the seat to act; while a hand is on, an action
    outside them fails with [IllegalAction]; and a failed [step] leaves
    the table as it was. *)
Lemma reject_policy_step (t : Table) (a : Action) :
  policy (config t) = Reject ->
  (forall t' r,
     step raise_variants raise_size evaluate a t = (t', Ok r) ->
     exists seat, current (cycle t) = Some seat
                  /\ a ∈ legal_moves raise_variants raise_size t seat)
  /\ (forall seat,
        done t = false ->
        current (cycle t) = Some seat ->
        a ∉ legal_moves raise_variants raise_size t seat ->
        step raise_variants raise_size evaluate a t = (t, Err IllegalAction))
  /\ (forall t' e,
        step raise_variants raise_size evaluate a t = (t', Err e) -> t' = t).
Proof.
  intros Hreject. unfold step. rewrite Hreject.
  repeat split.
  - intros t' r. destruct (done t); [discriminate|].
    destruct (current (cycle t)) as [seat|]; [|discriminate].
    destruct (bool_decide _) eqn:Hlegal; [|discriminate].
    intros _. exists seat. split; [reflexivity|].
    exact (bool_decide_eq_true_1 _ Hlegal).
  - intros seat -> -> Hillegal.
    rewrite (bool_decide_eq_false_2 _ Hillegal). reflexivity.
  - intros t' e. destruct (done t); [intros [= <- _]; reflexivity|].
    destruct (current (cycle t)) as [seat|]; [|intros [= <- _]; reflexivity].
    destruct (bool_decide _); [|intros [= <- _]; reflexivity].
    destruct (commit seat _ t) as [t1|e1]; [|intros [= <- _]; reflexivity].
    destruct (settle evaluate seat _) as [t2|e2]; [discriminate|].
    intros [= <- _]. reflexivity.
Qed.

(** On a table with the other policy an action outside the legal moves
    is played as a fold: the call runs as [step(FOLD)] does. *)
Lemma auto_fold_policy_step (t : Table) (a : Action) (seat : nat) :
  policy (config t) = AutoFold ->
  done t = false ->
  current (cycle t) = Some seat ->
  a ∉ legal_moves raise_variants raise_size t seat ->
  FOLD ∈ legal_moves raise_variants raise_size t seat ->
  step raise_variants raise_size evaluate a t
  = step raise_variants raise_size evaluate FOLD t.
Proof.
  intros Hpolicy Hdone Hseat Hillegal Hfold. unfold step.
  rewrite Hpolicy, Hdone, Hseat.
  rewrite (bool_decide_eq_false_2 _ Hillegal).
  rewrite (bool_decide_eq_true_2 _ Hfold). reflexivity.
Qed.

(** ** Invariants of reachable tables *)

Lemma pay_pots_amounts (t : Table) (pots : list (Z * list nat)) (ps : list Player) :
  Forall (fun pot => 0 <= fst pot) pots ->
  nonneg (map Tools.stack ps) ->
  nonneg (map Tools.stack (fst (pay_pots evaluate t pots ps)))
  /\ 0 <= snd (pay_pots evaluate t pots ps) <= sumZ (map fst pots).
Proof.
  intros Hpots. revert ps.
  induction Hpots as [|[amount eligible] pots Hamount _ IH]; intros ps Hps; cbn.
  - split; [exact Hps | lia].
  - cbn in Hamount.
    destruct (award_amounts amount (winners_of evaluate t eligible) ps Hamount Hps)
      as [Hps1 Hpaid1].
    destruct (award amount _ ps) as [ps1 paid1]. cbn [fst snd] in *.
    destruct (IH ps1 Hps1) as [Hps2 Hpaid2].
    destruct (pay_pots evaluate t pots ps1) as [ps2 paid2]. cbn [fst snd] in *.
    split; [exact Hps2 | lia].
Qed.

Lemma amounts_settle_pots (t : Table) (pots : list (Z * list nat)) :
  amounts_ok t ->
  Forall (fun pot => 0 <= fst pot) pots ->
  sumZ (map fst pots) <= community_pot (ledger t) ->
  amounts_ok (settle_pots evaluate t pots).
Proof.
  intros (Hst & Hpp & Hco & Hcp & Hrp) Hpots Hle. unfold settle_pots.
  destruct (pay_pots_amounts t pots (players t) Hpots Hst) as [Hps Hpaid].
  destruct (pay_pots evaluate t pots (players t)) as [ps paid]. cbn [fst snd] in *.
  unfold amounts_ok, stacks. cbn.
  split; [exact Hps|]. split; [exact Hpp|]. split; [apply nonneg_zeros|].
  split; [lia | exact Hrp].
Qed.

Lemma amounts_collapse_round (t : Table) :
  amounts_ok t -> amounts_ok (collapse_round t).
Proof.
  intros (Hst & Hpp & Hco & Hcp & Hrp). unfold amounts_ok, collapse_round. cbn.
  split; [exact Hst|]. split; [apply nonneg_zeros|]. split; [exact Hco|]. lia.
Qed.

Lemma ledger_collapse_round (t : Table) :
  ledger_ok t -> ledger_ok (collapse_round t).
Proof.
  intros [Hlen Hsum]. unfold ledger_ok, collapse_round. cbn.
  split; [exact Hlen|]. intros Hdone. rewrite (Hsum Hdone). lia.
Qed.

Lemma settle_pots_shape (t : Table) (pots : list (Z * list nat)) :
  cycle (settle_pots evaluate t pots) = cycle t
  /\ length (contributed (ledger (settle_pots evaluate t pots)))
     = length (contributed (ledger t)).
Proof.
  unfold settle_pots. destruct (pay_pots _ _ _ _). cbn.
  split; [reflexivity | apply length_map].
Qed.

(** A table whose hand is over. *)
Lemma finished_ok (t : Table) (st : Stage) (ws : list nat) :
  amounts_ok t ->
  (length (alive (cycle t)) <= length (contributed (ledger t)))%nat ->
  amounts_ok (with_done t st ws)
  /\ ledger_ok (with_done t st ws)
  /\ current_ok (with_done t st ws).
Proof.
  intros Hamounts Hlen. split; [exact Hamounts|]. split.
  - split; [exact Hlen | discriminate].
  - intros seat. discriminate.
Qed.

Lemma showdown_ok (t : Table) :
  amounts_ok t -> ledger_ok t -> done t = false ->
  current_round_pot (ledger t) = 0 ->
  amounts_ok (showdown evaluate t)
  /\ ledger_ok (showdown evaluate t)
  /\ current_ok (showdown evaluate t).
Proof.
  intros Hamounts [Hlen Hsum] Hdone Hround. unfold showdown.
  pose proof (side_pots_amounts (length (players t)) (contributed (ledger t))
                (alive (cycle t)) (proj1 (proj2 (proj2 Hamounts))))
    as (Htotal & Htiers & Hrest).
  destruct (side_pots _ _ _) as [tiers rest]. cbn [fst snd] in *.
  set (pots := tiers ++ [(sumZ rest, alive_seats t)]).
  destruct (settle_pots_shape t pots) as [Hcycle Hcontrib].
  apply finished_ok.
  - apply amounts_settle_pots; [exact Hamounts| |].
    + apply Forall_app. split; [exact Htiers|].
      constructor; [cbn; apply sumZ_nonneg; exact Hrest | constructor].
    + unfold pots. rewrite map_app, sumZ_app. cbn. specialize (Hsum Hdone). lia.
  - rewrite Hcycle, Hcontrib. exact Hlen.
Qed.

Lemma award_sole_ok (t : Table) :
  amounts_ok t -> ledger_ok t ->
  amounts_ok (award_sole evaluate t)
  /\ ledger_ok (award_sole evaluate t)
  /\ current_ok (award_sole evaluate t).
Proof.
  intros Hamounts [Hlen _]. unfold award_sole.
  set (t1 := collapse_round t).
  destruct (settle_pots_shape t1 [(community_pot (ledger t1), alive_seats t1)])
    as [Hcycle Hcontrib].
  pose proof (amounts_collapse_round t Hamounts) as Hamounts1. fold t1 in Hamounts1.
  apply finished_ok.
  - apply amounts_settle_pots; [exact Hamounts1| |].
    + constructor; [|constructor]. cbn. apply Hamounts1.
    + cbn. lia.
  - rewrite Hcycle, Hcontrib. exact Hlen.
Qed.

Lemma can_act_alive (t : Table) (seat : nat) :
  can_act t seat = true -> is_alive t seat = true.
Proof. unfold can_act. intros Hcan. apply andb_true_iff in Hcan. apply Hcan. Qed.

Lemma next_to_act_alive (t : Table) (seat next : nat) :
  next_to_act t seat = Some next -> is_alive t next = true.
Proof.
  unfold next_to_act. intros Hfind. apply find_some in Hfind.
  apply can_act_alive, Hfind.
Qed.

Lemma deal_board_ok (n : nat) (st : Stage) (t t' : Table) :
  deal_board n st t = Ok t' ->
  amounts_ok t -> ledger_ok t ->
  amounts_ok t' /\ ledger_ok t' /\ current_ok t' /\ done t' = done t.
Proof.
  unfold deal_board. destruct (deal n (deck t)) as [[cs d]|e]; [|discriminate].
  intros [= <-] Hamounts Hledger.
  split; [exact Hamounts|]. split; [exact Hledger|]. split; [|reflexivity].
  intros seat Hcur. cbn in Hcur.
  exact (next_to_act_alive _ _ _ Hcur).
Qed.

Lemma advance_ok (fuel : nat) (t t' : Table) :
  advance evaluate fuel t = Ok t' ->
  amounts_ok t -> ledger_ok t -> (fuel = 0%nat -> current_ok t) ->
  done t = false ->
  amounts_ok t' /\ ledger_ok t' /\ current_ok t'.
Proof.
  revert t t'. induction fuel as [|fuel IH]; intros t t'; cbn.
  - intros [= <-] Hamounts Hledger Hcurrent _.
    split; [|split]; auto.
  - intros Hadv Hamounts Hledger _ Hdone.
    set (t0 := collapse_round t) in *.
    pose proof (amounts_collapse_round t Hamounts) as Hamounts0.
    pose proof (ledger_collapse_round t Hledger) as Hledger0.
    fold t0 in Hamounts0, Hledger0.
    assert (Hnext : forall t1,
               match stage t0 with
               | PREFLOP => deal_board 3 FLOP t0
               | FLOP => deal_board 1 TURN t0
               | TURN => deal_board 1 RIVER t0
               | RIVER => Ok (showdown evaluate t0)
               | SHOWDOWN | END_HIDDEN =>
                   Ok (with_done t0 (stage t0) (winner_seats t0))
               end = Ok t1 -> amounts_ok t1 /\ ledger_ok t1 /\ current_ok t1).
    { intros t1 Hstage.
      destruct (stage t0);
        try (destruct (deal_board_ok _ _ _ _ Hstage Hamounts0 Hledger0)
               as (? & ? & ? & _); split; [|split]; assumption);
        injection Hstage as <-.
      - apply showdown_ok; [assumption | assumption | exact Hdone | reflexivity].
      - apply finished_ok; [assumption | apply Hledger0].
      - apply finished_ok; [assumption | apply Hledger0]. }
    destruct (match stage t0 with
              | PREFLOP => _ | FLOP => _ | TURN => _ | RIVER => _
              | SHOWDOWN | END_HIDDEN => _ end) as [t1|e]; [|discriminate].
    destruct (Hnext t1 eq_refl) as (Hamounts1 & Hledger1 & Hcurrent1).
    destruct (done t1) eqn:Hdone1;
      [injection Hadv as <-; split; [|split]; assumption|].
    destruct (_ <=? 1)%nat.
    + exact (IH _ _ Hadv Hamounts1 Hledger1 (fun _ => Hcurrent1) Hdone1).
    + injection Hadv as <-. split; [|split]; assumption.
Qed.

Lemma settle_ok (seat : nat) (t t' : Table) :
  settle evaluate seat t = Ok t' ->
  amounts_ok t -> ledger_ok t -> done t = false ->
  amounts_ok t' /\ ledger_ok t' /\ current_ok t'.
Proof.
  unfold settle. intros Hsettle Hamounts Hledger Hdone.
  destruct (_ <=? 1)%nat.
  - injection Hsettle as <-. apply award_sole_ok; assumption.
  - destruct (round_is_complete t).
    + refine (advance_ok 4 t t' Hsettle Hamounts Hledger _ Hdone). discriminate.
    + injection Hsettle as <-.
      split; [exact Hamounts|]. split; [exact Hledger|].
      intros next Hcur. cbn in Hcur. exact (next_to_act_alive _ _ _ Hcur).
Qed.

Lemma fold_max_nonneg (l : list Z) : 0 <= foldr Z.max 0 l.
Proof. induction l; cbn; lia. Qed.

Lemma fold_max_imap_ge {A} (f : nat -> A -> Z) (l : list A) (i : nat) (x : A) :
  l !! i = Some x -> f i x <= foldr Z.max 0 (imap f l).
Proof.
  revert f i. induction l as [|y l IH]; intros f [|i] Hlook; try discriminate.
  - cbn in Hlook. injection Hlook as ->. cbn. lia.
  - cbn in Hlook. cbn. specialize (IH (f ∘ S) i Hlook). cbn in IH. lia.
Qed.

(** The seat to act never has more in the round pot than the highest
    commitment, so its call amount is a chip count. *)
Lemma min_call_nonneg (t : Table) (seat : nat) :
  is_alive t seat = true -> 0 <= min_call t seat.
Proof.
  intros Halive. unfold min_call, pot_of, highest_commitment.
  destruct (player_pots (ledger t) !! seat) as [pot|] eqn:Hpot; cbn.
  - pose proof (fold_max_imap_ge
                  (fun i pot => if is_alive t i then pot else 0) _ _ _ Hpot) as Hge.
    cbn in Hge. rewrite Halive in Hge. lia.
  - pose proof (fold_max_nonneg
                  (imap (fun i pot => if is_alive t i then pot else 0)
                     (player_pots (ledger t)))). lia.
Qed.

Lemma stack_of_nonneg (t : Table) (seat : nat) :
  amounts_ok t -> 0 <= stack_of t seat.
Proof.
  intros [Hst _]. unfold stack_of.
  destruct (players t !! seat) as [p|] eqn:Hp; [|lia].
  exact (stack_lookup_nonneg _ _ _ Hst Hp).
Qed.

Lemma action_amount_nonneg (t : Table) (seat : nat) (a : Action) :
  amounts_ok t -> is_alive t seat = true ->
  is_legal raise_size t seat a = true \/ a = FOLD ->
  0 <= action_amount raise_size t seat a.
Proof.
  intros Hamounts Halive Hlegal.
  pose proof (min_call_nonneg t seat Halive) as Hmin.
  destruct a; cbn; try lia.
  - unfold raise_amount. lia.
  - apply stack_of_nonneg. exact Hamounts.
Qed.

Lemma commit_ok (seat : nat) (amount : Z) (t t' : Table) :
  commit seat amount t = Ok t' ->
  0 <= amount ->
  (seat < length (contributed (ledger t)))%nat ->
  amounts_ok t -> ledger_ok t ->
  amounts_ok t' /\ ledger_ok t'
  /\ done t' = done t /\ cycle t' = cycle t
  /\ length (players t') = length (players t)
  /\ length (contributed (ledger t')) = length (contributed (ledger t)).
Proof.
  unfold commit. destruct (players t !! seat) as [p|] eqn:Hp; [|discriminate].
  destruct (Z.ltb_spec (Tools.stack p) amount) as [|Hcover]; [discriminate|].
  intros [= <-] Hamount Hseat (Hst & Hpp & Hco & Hcp & Hrp) [Hlen Hsum].
  unfold amounts_ok, ledger_ok, stacks. cbn.
  split; [|split; [|split; [reflexivity|split; [reflexivity|split]]]].
  - split; [apply nonneg_stacks_insert; [exact Hst | lia]|].
    split; [apply nonneg_alter_add; assumption|].
    split; [apply nonneg_alter_add; assumption|]. lia.
  - rewrite length_alter. split; [exact Hlen|].
    intros Hdone. rewrite sumZ_alter_add by exact Hseat. rewrite (Hsum Hdone). lia.
  - apply length_insert.
  - apply length_alter.
Qed.

Lemma commit_seat (seat : nat) (amount : Z) (t t' : Table) :
  commit seat amount t = Ok t' -> (seat < length (players t))%nat.
Proof.
  unfold commit. destruct (players t !! seat) as [p|] eqn:Hp; [|discriminate].
  intros _. exact (lookup_lt_Some _ _ _ Hp).
Qed.

Lemma alive_seat_bound (t : Table) (seat : nat) :
  is_alive t seat = true -> (seat < length (alive (cycle t)))%nat.
Proof.
  unfold is_alive. destruct (alive (cycle t) !! seat) eqn:Hlook; [|discriminate].
  intros _. exact (lookup_lt_Some _ _ _ Hlook).
Qed.

Lemma record_action_ok (seat : nat) (a : @Action RaiseVariant) (t : Table) :
  amounts_ok t -> ledger_ok t ->
  amounts_ok (with_cycle t (record_action seat a (cycle t)))
  /\ ledger_ok (with_cycle t (record_action seat a (cycle t))).
Proof.
  intros Hamounts [Hlen Hsum]. split; [exact Hamounts|].
  split; [|exact Hsum]. cbn.
  destruct a; try exact Hlen. rewrite length_insert. exact Hlen.
Qed.

Lemma step_ok (a : Action) (t : Table) :
  amounts_ok t -> ledger_ok t -> current_ok t ->
  amounts_ok (fst (step raise_variants raise_size evaluate a t))
  /\ ledger_ok (fst (step raise_variants raise_size evaluate a t))
  /\ current_ok (fst (step raise_variants raise_size evaluate a t)).
Proof.
  intros Hamounts Hledger Hcurrent. unfold step.
  destruct (done t) eqn:Hdone; [split; [|split]; assumption|].
  destruct (current (cycle t)) as [seat|] eqn:Hcur; [|split; [|split]; assumption].
  pose proof (Hcurrent seat Hcur) as Halive.
  assert (Hgo : forall a',
    is_legal raise_size t seat a' = true \/ a' = FOLD ->
    let r := match commit seat (action_amount raise_size t seat a') t with
             | Ok t1 =>
                 match settle evaluate seat
                         (with_cycle t1 (record_action seat a' (cycle t1))) with
                 | Ok t2 => (t2, Ok {| reward := stack_of t2 seat - stack_of t seat;
                                       step_done := done t2 |})
                 | Err e => (t, Err e)
                 end
             | Err e => (t, Err e)
             end in
    amounts_ok (fst r) /\ ledger_ok (fst r) /\ current_ok (fst r)).
  { intros a' Hlegal.
    destruct (commit seat _ t) as [t1|e] eqn:Hcommit;
      [|split; [|split]; assumption].
    pose proof (action_amount_nonneg t seat a' Hamounts Halive Hlegal) as Hamount.
    assert (Hseat : (seat < length (contributed (ledger t)))%nat).
    { pose proof (alive_seat_bound t seat Halive). destruct Hledger. lia. }
    destruct (commit_ok _ _ _ _ Hcommit Hamount Hseat Hamounts Hledger)
      as (Hamounts1 & Hledger1 & Hdone1 & _).
    destruct (record_action_ok seat a' t1 Hamounts1 Hledger1) as [Hamounts2 Hledger2].
    destruct (settle evaluate seat _) as [t2|e] eqn:Hsettle;
      [|split; [|split]; assumption].
    refine (settle_ok _ _ _ Hsettle Hamounts2 Hledger2 _).
    cbn. rewrite Hdone1. exact Hdone. }
  destruct (bool_decide _) eqn:Hlegal.
  - apply Hgo. left.
    apply bool_decide_eq_true_1, list_elem_of_filter in Hlegal.
    apply Is_true_true, Hlegal.
  - destruct (policy (config t)); [split; [|split]; assumption|].
    apply Hgo. right. reflexivity.
Qed.

Lemma stacks_with_cards (f : nat -> Player -> list Card) (ps : list Player) :
  map Tools.stack (imap (fun i p => with_cards p (f i p)) ps) = map Tools.stack ps.
Proof.
  revert f. induction ps as [|p ps IH]; intros f; cbn; [reflexivity|].
  f_equal. apply (IH (fun i q => f (S i) q)).
Qed.

Lemma reset_ok (t t' : Table) :
  reset evaluate shuffle t = Ok t' ->
  nonneg (stacks t) -> config_ok (config t) ->
  amounts_ok t' /\ ledger_ok t' /\ current_ok t'.
Proof.
  unfold reset. intros Hreset Hst (_ & Hsb & Hbb).
  destruct (deal _ _) as [[hole d]|e]; [|discriminate].
  set (ps := imap _ (players t)) in *.
  set (t0 := {| config := config t; players := ps |}) in *.
  destruct (_ <? 2)%nat; [discriminate|].
  assert (Hamounts0 : amounts_ok t0).
  { unfold amounts_ok, stacks. cbn. unfold ps.
    rewrite (stacks_with_cards (fun i _ => take 2 (drop (2 * i) hole))).
    split; [exact Hst|]. split; [apply nonneg_zeros|].
    split; [apply nonneg_zeros|]. lia. }
  assert (Hledger0 : ledger_ok t0).
  { split; cbn.
    - rewrite !length_map. apply Nat.le_refl.
    - intros _. rewrite sumZ_zeros. reflexivity. }
  assert (Hlen0 : length (contributed (ledger t0)) = length (players t0))
    by (cbn; apply length_map).
  destruct (commit _ (small_blind (config t)) t0) as [t1|e] eqn:H1; [|discriminate].
  pose proof (commit_seat _ _ _ _ H1) as Hseat1. rewrite <- Hlen0 in Hseat1.
  destruct (commit_ok _ _ _ _ H1 Hsb Hseat1 Hamounts0 Hledger0)
    as (Hamounts1 & Hledger1 & Hdone1 & _ & Hps1 & Hco1).
  destruct (commit _ (big_blind (config t)) t1) as [t2|e] eqn:H2; [|discriminate].
  pose proof (commit_seat _ _ _ _ H2) as Hseat2.
  rewrite Hps1, <- Hlen0, <- Hco1 in Hseat2.
  destruct (commit_ok _ _ _ _ H2 Hbb Hseat2 Hamounts1 Hledger1)
    as (Hamounts2 & Hledger2 & Hdone2 & _).
  refine (settle_ok _ _ _ Hreset Hamounts2 Hledger2 _).
  rewrite Hdone2, Hdone1. reflexivity.
Qed.

(** Every reachable table holds chip counts only, keeps its ledger
    balanced while a hand is on, and has a contesting seat to act. *)
Lemma reachable_ok (c : Config) (t : Table) :
  config_ok c ->
  reachable raise_variants raise_size evaluate shuffle c t ->
  amounts_ok t /\ ledger_ok t /\ current_ok t.
Proof.
  intros Hc Hreach.
  induction Hreach as [|nm t Hreach IH|t t' Hreach IH Hreset|a t _ IH].
  - split; [|split].
    + unfold amounts_ok, nonneg, stacks. cbn. repeat split; try constructor; lia.
    + split; cbn; [lia | reflexivity].
    + intros seat. discriminate.
  - destruct IH as ((Hst & Hrest) & Hledger & Hcurrent).
    split; [|split; assumption]. split; [|exact Hrest].
    unfold stacks, add_player. cbn. rewrite map_app. apply Forall_app.
    split; [exact Hst|]. constructor; [|constructor]. cbn.
    rewrite (reachable_config _ _ Hreach). apply Hc.
  - apply (reset_ok _ _ Hreset); [apply IH|].
    rewrite (reachable_config _ _ Hreach). exact Hc.
  - destruct IH as (Hamounts & Hledger & Hcurrent). apply step_ok; assumption.
Qed.

(** ** What the tool layer exposes of a reachable table *)

Context {F : Type} {FO : FloatOps F}.
Variable raise_name : RaiseVariant -> string.
Variable illegal_action_policy : bool -> Policy.
Variable card_str : Card -> string.

Local Abbreviation E :=
  (engine (F := F) raise_variants raise_name raise_size evaluate shuffle
     illegal_action_policy card_str).

Lemma player_entries_chip_counts (t : Table) :
  amounts_ok t ->
  Forall (fun entry => is_chip_count (field "stack" entry)
                       /\ is_chip_count (field "current_bet" entry))
         (imap (Tools.player_info E t) (players t)).
Proof.
  intros (Hst & Hpp & _). apply Forall_lookup_2. intros i entry Hentry.
  rewrite list_lookup_imap in Hentry.
  apply fmap_Some in Hentry as (p & Hp & ->). split.
  - exists (Tools.stack p). split; [reflexivity|].
    exact (stack_lookup_nonneg _ _ _ Hst Hp).
  - unfold Tools.player_info. cbn.
    destruct (player_pots (ledger t) !! i) as [bet|] eqn:Hbet.
    + exists bet. split; [reflexivity|].
      exact (Forall_lookup_1 _ _ _ _ Hpp Hbet).
    + exists 0. split; [reflexivity | lia].
Qed.

(** C7, as the code has it. On every table reachable from a
    construction with non-negative stack and blinds, the chip amounts
    the tools expose -- [community_pot], [current_round_pot], [min_call],
    every player's [stack] and [current_bet], and the [total_pot] and
    [call_amount] of [calculate_pot_odds] -- are non-negative native
    integers.  No float occurs anywhere in the snapshot of
    [get_game_state]; in the answer of [calculate_pot_odds] the fields
    [pot_odds] and [pot_odds_percentage] are floats, computed from those
    integers, and no other field is; the call leaves globals and table
    as they were.  ([calculate_pot_odds] answers with its amounts unless
    the quotient of pot and call amount is beyond the range of a
    float.) *)
Theorem exposed_chip_amounts (c : Config) (t : Table)
    (w : Tools.World E) (tc : Tools.ToolContext) :
  config_ok c ->
  reachable raise_variants raise_size evaluate shuffle c t ->
  Tools.game_table E w = Some t ->
  (exists env' r entries,
     Tools.get_game_state E (w, tc) = (env', Return r)
     /\ is_chip_count (field "community_pot" r)
     /\ is_chip_count (field "current_round_pot" r)
     /\ is_chip_count (field "min_call" r)
     /\ field "players" r = Some (PList entries)
     /\ length entries = length (players t)
     /\ Forall (fun entry => is_chip_count (field "stack" entry)
                             /\ is_chip_count (field "current_bet" entry))
               entries
     /\ Shape.no_float r = true)
  /\ (exists r,
       Tools.calculate_pot_odds E (w, tc) = ((w, tc), Return r)
       /\ (forall key x,
             field key r = Some (PFloat x) ->
             key = "pot_odds" \/ key = "pot_odds_percentage")
       /\ (Tools.truediv_overflows
             (Tools.community_pot E t + Tools.current_round_pot E t)
             (default 0 (Tools.min_call E t)) = false
           \/ default 0 (Tools.min_call E t) = 0 ->
           is_chip_count (field "total_pot" r)
           /\ is_chip_count (field "call_amount" r)
           /\ (exists x, field "pot_odds" r = Some (PFloat x))
           /\ (exists y, field "pot_odds_percentage" r = Some (PFloat y)))).
Proof.
  intros Hc Hreach Hsome.
  destruct (reachable_ok c t Hc Hreach) as (Hamounts & _ & Hcurrent).
  assert (Hcall : 0 <= default 0 (Tools.min_call E t)).
  { cbn. destruct (current (cycle t)) as [seat|] eqn:Hcur; [|lia].
    apply min_call_nonneg. exact (Hcurrent seat Hcur). }
  pose proof Hamounts as (_ & _ & _ & Hcp & Hrp).
  split.
  - destruct (ToolsFacts.get_game_state_players E w tc t t Hsome eq_refl)
      as (env' & r & Hrun & _ & _ & Hplayers & Hfcp & Hfrp & Hfmc).
    exists env', r. eexists. split; [exact Hrun|].
    split; [rewrite Hfcp; eexists; split; [reflexivity | exact Hcp]|].
    split; [rewrite Hfrp; eexists; split; [reflexivity | exact Hrp]|].
    split; [rewrite Hfmc; eexists; split; [reflexivity | exact Hcall]|].
    split; [exact Hplayers|].
    split; [apply length_imap|].
    split; [apply player_entries_chip_counts; exact Hamounts|].
    destruct (ToolsFacts.get_game_state_no_float E w tc) as (r' & Hrun' & Hfree).
    rewrite Hrun in Hrun'. cbn in Hrun'. injection Hrun' as <-. exact Hfree.
  - destruct (ToolsFacts.pot_odds_run E w tc t Hsome)
      as (r & Hrun & Hzero & Hover & Hpos & Hnone).
    set (total_pot := Tools.community_pot E t + Tools.current_round_pot E t) in *.
    set (call_amount := default 0 (Tools.min_call E t)) in *.
    assert (Htotal : 0 <= total_pot) by (unfold total_pot; cbn; lia).
    assert (Hfloats : forall (a b : F) key x,
      field key
        (PDict [("status", PStr "success"); ("total_pot", PInt total_pot);
                ("call_amount", PInt call_amount); ("pot_odds", PFloat a);
                ("pot_odds_percentage", PFloat b);
                ("current_player",
                  Tools.opt_obj (fun p => PStr (Tools.name p))
                    (Tools.current_player E t))])
      = Some (PFloat x) ->
      key = "pot_odds" \/ key = "pot_odds_percentage").
    { intros a b key x. cbn -[String.eqb].
      destruct (String.eqb_spec key "status"); [discriminate|].
      destruct (String.eqb_spec key "total_pot"); [discriminate|].
      destruct (String.eqb_spec key "call_amount"); [discriminate|].
      destruct (String.eqb_spec key "pot_odds"); [intros _; left; assumption|].
      destruct (String.eqb_spec key "pot_odds_percentage");
        [intros _; right; assumption|].
      destruct (String.eqb_spec key "current_player"); [|discriminate].
      destruct (seat_to_act t); discriminate. }
    assert (Herror : forall msg key (x : F),
      field key (Tools.error_dict msg) <> Some (PFloat x)).
    { intros msg key x. cbn -[String.eqb].
      destruct (String.eqb key "status"); [discriminate|].
      destruct (String.eqb key "message"); discriminate. }
    exists r. split; [exact Hrun|].
    destruct (Z.eq_dec call_amount 0) as [Hcall0|Hcall0].
    + rewrite (Hnone ltac:(lia)). split; [apply Hfloats|].
      intros _.
      split; [eexists; split; [reflexivity | exact Htotal]|].
      split; [eexists; split; [reflexivity | exact Hcall]|].
      split; eexists; reflexivity.
    + assert (Hcallpos : 0 < call_amount) by (fold call_amount in Hcall; lia).
      assert (Hnz : total_pot + call_amount <> 0) by lia.
      assert (Hover2 : Tools.truediv_overflows call_amount (total_pot + call_amount)
                       = false) by (apply ToolsFacts.truediv_small; lia).
      destruct (Tools.truediv_overflows total_pot call_amount) eqn:Hover1.
      * rewrite (Hover Hcallpos Hnz (or_introl eq_refl)).
        split; [intros key x Hfield; exfalso; exact (Herror _ _ _ Hfield)|].
        intros [Hfalse|Hfalse]; [discriminate Hfalse | contradiction].
      * rewrite (Hpos Hcallpos Hnz eq_refl Hover2). split; [apply Hfloats|].
        intros _.
        split; [eexists; split; [reflexivity | exact Htotal]|].
        split; [eexists; split; [reflexivity | exact Hcall]|].
        split; eexists; reflexivity.
Qed.

End EngineFacts.
End TableFacts.

(** * The properties at work on the demo table *)

Module Examples.
Import Py Demo.

Lemma w1_table : Tools.game_table engine w1 = Some table1.
Proof. reflexivity. Qed.

Lemma table1_reset : Table.reset evaluate shuffle seated = Table.Ok table1.
Proof. vm_compute. reflexivity. Qed.

Lemma table1_reachable :
  Table.reachable [BB_3; POT] raise_size evaluate shuffle config table1.
Proof.
  apply (Table.reach_reset _ _ _ _ _ seated); [|exact table1_reset].
  apply Table.reach_add_player, Table.reach_add_player, Table.reach_new.
Qed.

Lemma config_chip_counts : Table.config_ok config.
Proof. unfold Table.config_ok. cbn. lia. Qed.

(** Before any initialization every tool reports the missing game. *)
Lemma not_initialized_error_witness :
  Tools.game_table engine w0 = None
  /\ Tools.get_legal_actions engine (w0, initial_context)
     = ((w0, initial_context),
        Return (PDict [("status", PStr "error");
                       ("message", PStr "Game not initialized")])).
Proof.
  split; [reflexivity|].
  exact (proj1 (proj2 (proj2 (proj2 (proj2
    (ToolsFacts.not_initialized_error upper engine w0 initial_context
       "fold" 0 eq_refl)))))).
Defined.

(** "bet" names no action: the error lists the six valid names. *)
Lemma invalid_action_name_witness :
  Tools.game_table engine w1 = Some table1
  /\ (forall m, m ∈ Tools.Action engine -> member_name m <> upper "bet")
  /\ Tools.process_player_action upper engine "bet" (w1, initial_context)
     = ((w1, initial_context),
        Return (PDict [("status", PStr "error");
                       ("message",
                         PStr "Invalid action: bet. Valid actions are: ['FOLD', 'CHECK', 'CALL', 'RAISE_3BB', 'RAISE_POT', 'ALL_IN']")])).
Proof.
  assert (Habsent : forall m, m ∈ Tools.Action engine -> member_name m <> upper "bet").
  { apply (proj1 (Forall_forall
               (fun m : enum_member => member_name m <> upper "bet")
               (Tools.Action engine))).
    vm_compute. repeat (constructor; [discriminate|]). constructor. }
  split; [exact w1_table|]. split; [exact Habsent|].
  exact (ToolsFacts.invalid_action_name upper engine w1 initial_context table1
           "bet" w1_table Habsent).
Defined.

Local Abbreviation first_run :=
  (Tools.initialize_poker_game engine 100 1 2 (w0, initial_context)).

Lemma initialize_run1 : first_run = ((w1, context1), Return init_result1).
Proof.
  assert (Htable : Tools.game_table engine (fst (fst first_run)) = Some table1)
    by (vm_compute; reflexivity).
  assert (Hstate : Tools.current_game_state engine (fst (fst first_run)) = game_state1)
    by (vm_compute; reflexivity).
  assert (Hcalls : Tools.engine_calls engine (fst (fst first_run))
                   = Tools.engine_calls engine w1) by (vm_compute; reflexivity).
  assert (Hsession : Tools.state (snd (fst first_run)) = Tools.state context1)
    by (vm_compute; reflexivity).
  assert (Hescalate : Tools.actions_escalate (snd (fst first_run)) = false)
    by (vm_compute; reflexivity).
  assert (Hresult : snd first_run = Return init_result1)
    by (vm_compute; reflexivity).
  revert Htable Hstate Hcalls Hsession Hescalate Hresult.
  generalize first_run. intros [[[gt cgs calls] [st esc]] o]. cbn.
  intros -> -> -> -> -> ->. reflexivity.
Qed.

(** [initialize_poker_game(100, 1, 2)] on the fresh module. *)
Lemma initialize_success_witness :
  first_run = ((w1, context1), Return init_result1)
  /\ field "status" init_result1 = Some (PStr "success")
  /\ Tools.game_table engine w1 = Some table1
  /\ Tools.engine_calls engine w1
     = Tools.engine_calls engine w0
       ++ [Tools.CallHoldemTable 100 1 2 false false 2 false;
           Tools.CallAddPlayer "Player1"; Tools.CallAddPlayer "Player2";
           Tools.CallReset].
Proof.
  destruct (ToolsFacts.initialize_success engine w0 w1 initial_context
              context1 init_result1 100 1 2 initialize_run1 eq_refl)
    as (t0 & t1 & t2 & t3 & gs & _ & _ & _ & _ & _ & Hcalls & _).
  split; [exact initialize_run1|]. split; [reflexivity|].
  split; [exact w1_table | exact Hcalls].
Defined.

(** The table of the first initialization is the one any later
    initialization with the same arguments installs again. *)
Lemma initialize_replaces_table_witness :
  first_run = ((w1, context1), Return init_result1)
  /\ field "status" init_result1 = Some (PStr "success")
  /\ exists t_new,
       Tools.game_table engine w1 = Some t_new
       /\ forall (w : World) (tc : ToolContext),
            exists w' tc2 r2,
              Tools.initialize_poker_game engine 100 1 2 (w, tc)
                = ((w', tc2), Return r2)
              /\ field "status" r2 = Some (PStr "success")
              /\ Tools.game_table engine w' = Some t_new.
Proof.
  split; [exact initialize_run1|]. split; [reflexivity|].
  exact (ToolsFacts.initialize_replaces_table engine w0 w1 initial_context
           context1 init_result1 100 1 2 initialize_run1 eq_refl).
Defined.

Lemma w_over_table : Tools.game_table engine w_over = Some table_over.
Proof. vm_compute. reflexivity. Qed.

(** After a raise and a fold the hand is over with both players holding
    chips: the last-seated one is reported. *)
Lemma check_game_over_result_witness :
  Tools.game_table engine w_over = Some table_over
  /\ exists r,
       Tools.check_game_over engine (w_over, initial_context)
         = ((w_over, initial_context), Return r)
       /\ field "winner" r
          = Some (PDict [("name", PStr "Player2"); ("seat", PInt 1);
                         ("final_stack", PInt 98)])
       /\ field "final_stacks" r
          = Some (PList [PDict [("player", PStr "Player1"); ("seat", PInt 0);
                                ("final_stack", PInt 102)];
                         PDict [("player", PStr "Player2"); ("seat", PInt 1);
                                ("final_stack", PInt 98)]]).
Proof.
  split; [exact w_over_table|].
  destruct (ToolsFacts.check_game_over_result engine w_over initial_context
              table_over w_over_table)
    as (r & Hrun & _ & _ & Hdone & _).
  exists r. split; [exact Hrun|].
  destruct (Hdone eq_refl) as [Hstacks Hwinner].
  split; [exact Hwinner | exact Hstacks].
Defined.

(** Pot 3 against a call of 1: odds 3, 25 percent. *)
Lemma pot_odds_result_witness :
  Tools.game_table engine w1 = Some table1
  /\ exists r,
       Tools.calculate_pot_odds engine (w1, initial_context)
         = ((w1, initial_context), Return r)
       /\ field "pot_odds" r = Some (PFloat (Fin (Qmake 3 1)))
       /\ field "pot_odds_percentage" r = Some (PFloat (Fin (Qmake 25 1))).
Proof.
  split; [exact w1_table|].
  destruct (ToolsFacts.pot_odds_result engine w1 initial_context table1 w1_table)
    as (r & Hrun & Hpos & _).
  exists r. split; [exact Hrun|].
  assert (Hnz : Tools.community_pot engine table1
                + Tools.current_round_pot engine table1 + 1 <> 0)
    by (vm_compute; discriminate).
  destruct (Hpos 1 eq_refl eq_refl Hnz eq_refl eq_refl) as (_ & Hodds & Hpct).
  split; [exact Hodds | exact Hpct].
Defined.

Lemma w_neg_table :
  Tools.game_table engine
    (fst (fst (Tools.initialize_poker_game engine 100 (-1) 0
                 (w0, initial_context))))
  = Some table_neg.
Proof. vm_compute. reflexivity. Qed.

(** The division by zero does happen.  After
    [initialize_poker_game(100, -1, 0)] the pot is -1 and the seat to
    act faces a call of 1, so the percentage divides by
    [total_pot + call_amount = 0]: the tool answers with the status
    "error" dictionary and no [pot_odds].  And on a table with a pot of
    [10 ^ 400] against a call of 1 the quotient is beyond the range of a
    float: the same, with the text of the [OverflowError]. *)
Lemma pot_odds_divides_by_zero :
  Tools.game_table engine
    (fst (fst (Tools.initialize_poker_game engine 100 (-1) 0
                 (w0, initial_context))))
  = Tools.game_table engine w_neg
  /\ Tools.min_call engine table_neg = Some 1
  /\ Tools.community_pot engine table_neg + Tools.current_round_pot engine table_neg
     = -1
  /\ snd (Tools.calculate_pot_odds engine (w_neg, initial_context))
     = Return (PDict [("status", PStr "error");
                      ("message",
                        PStr "Error calculating pot odds: division by zero")])
  /\ Tools.min_call (Stub.engine (Stub.quiet (F := float))) Stub.table_rich
     = Some 1
  /\ snd (Tools.calculate_pot_odds (Stub.engine Stub.quiet)
            (Stub.world Stub.quiet Stub.table_rich, initial_context))
     = Return (PDict [("status", PStr "error");
                      ("message",
                        PStr "Error calculating pot odds: integer division result too large for a float")]).
Proof.
  split; [exact w_neg_table|]. split; [reflexivity|]. split; [reflexivity|].
  split; [vm_compute; reflexivity|]. split; [reflexivity|].
  vm_compute. reflexivity.
Qed.

Lemma snapshot1_run :
  exists env',
    Tools.get_game_state engine (w1, initial_context) = (env', Return snapshot1).
Proof.
  exists (fst (Tools.get_game_state engine (w1, initial_context))).
  assert (Hsnap : snd (Tools.get_game_state engine (w1, initial_context))
                  = Return snapshot1) by (vm_compute; reflexivity).
  rewrite <- Hsnap.
  generalize (Tools.get_game_state engine (w1, initial_context)).
  intros [env o]. reflexivity.
Qed.

(** At PREFLOP of the first hand the snapshot shows both hands, so
    whoever the observer is, another seat's hole cards are exposed; and
    [get_player_hand] hands out either seat's cards at the same time. *)
Lemma snapshot_shows_all_hole_cards :
  (exists env',
     Tools.get_game_state engine (w1, initial_context) = (env', Return snapshot1))
  /\ field "stage" snapshot1 = Some (PStr "PREFLOP")
  /\ (forall observer, ~ hides_other_seats snapshot1 observer)
  /\ (field "hand_cards"
        <$> result_of (run (Tools.get_player_hand engine 0) w1)
      = Some (Some (PList [PStr "2C"; PStr "3C"])))
  /\ (field "hand_cards"
        <$> result_of (run (Tools.get_player_hand engine 1) w1)
      = Some (Some (PList [PStr "4C"; PStr "5C"]))).
Proof.
  split; [exact snapshot1_run|]. split; [reflexivity|]. split.
  - intros [|observer] Hhides.
    + apply (Hhides 1%nat); [discriminate|].
      do 4 eexists. split; [reflexivity|]. split; reflexivity.
    + apply (Hhides 0%nat); [discriminate|].
      do 4 eexists. split; [reflexivity|]. split; reflexivity.
  - split; vm_compute; reflexivity.
Qed.

(** The first hand of the demo table: every seat's hole cards are in
    the snapshot and obtainable by seat number. *)
Lemma hole_cards_exposed_witness :
  Tools.game_table engine w1 = Some table1
  /\ Tools._get_environment engine table1 = (table1, Return tt)
  /\ (exists env' r entries,
        Tools.get_game_state engine (w1, initial_context) = (env', Return r)
        /\ field "players" r = Some (PList entries)
        /\ forall i p, Tools.players engine table1 !! i = Some p ->
             exists entry,
               entries !! i = Some entry
               /\ field "cards" entry
                  = Some (Tools.str_cards engine (Tools.cards p))).
Proof.
  split; [exact w1_table|]. split; [reflexivity|].
  exact (proj1 (ToolsFacts.hole_cards_exposed engine w1 initial_context
                  table1 table1 w1_table eq_refl)).
Defined.

(** A second initialization puts another table in the global: the first
    one is gone, and the tools report the new stacks. *)
Lemma second_initialize_replaces_table :
  Tools.game_table engine w1 = Some table1
  /\ Tools.game_table engine
       (fst (fst (Tools.initialize_poker_game engine 50 1 2 (w1, context1))))
     = Some table2
  /\ table2 <> table1
  /\ (field "stack" <$> result_of (run (Tools.get_player_hand engine 0) w1)
      = Some (Some (PInt 99)))
  /\ (field "stack"
        <$> result_of
              (run (Tools.get_player_hand engine 0)
                 (fst (fst (Tools.initialize_poker_game engine 50 1 2
                              (w1, context1)))))
      = Some (Some (PInt 49))).
Proof.
  split; [exact w1_table|]. split; [vm_compute; reflexivity|].
  split; [discriminate|]. split; vm_compute; reflexivity.
Qed.

(** CHECK is not legal for the small blind facing the big blind: on the
    demo table, built with the reject policy, the step fails and the
    table stays. *)
Lemma illegal_check_rejected :
  Table.step [BB_3; POT] raise_size evaluate Table.CHECK table1
  = (table1, Table.Err Table.IllegalAction).
Proof.
  destruct (TableFacts.reject_policy_step [BB_3; POT] raise_size evaluate
              table1 Table.CHECK eq_refl)
    as (_ & Hillegal & _).
  apply (Hillegal 0%nat); [reflexivity | reflexivity |].
  intros Hin. apply list_elem_of_filter in Hin as [Hlegal _].
  vm_compute in Hlegal. exact Hlegal.
Qed.

(** On the same hand of a table built with the other policy the illegal
    CHECK goes through: it is played as a fold of seat 0, which ends
    the hand. *)
Lemma illegal_check_auto_folds :
  Table.step [BB_3; POT] raise_size evaluate Table.CHECK table1_auto_fold
  = Table.step [BB_3; POT] raise_size evaluate Table.FOLD table1_auto_fold
  /\ snd (Table.step [BB_3; POT] raise_size evaluate Table.CHECK table1_auto_fold)
     = Table.Ok {| Table.reward := 0; Table.step_done := true |}.
Proof. split; vm_compute; reflexivity. Qed.

(** The amounts of the first hand. *)
Lemma exposed_chip_amounts_witness :
  Table.config_ok config
  /\ Table.reachable [BB_3; POT] raise_size evaluate shuffle config table1
  /\ Tools.game_table engine w1 = Some table1
  /\ exists r,
       Tools.calculate_pot_odds engine (w1, initial_context)
         = ((w1, initial_context), Return r)
       /\ is_chip_count (field "total_pot" r)
       /\ is_chip_count (field "call_amount" r)
       /\ (exists x, field "pot_odds" r = Some (PFloat x))
       /\ (exists y, field "pot_odds_percentage" r = Some (PFloat y)).
Proof.
  split; [exact config_chip_counts|]. split; [exact table1_reachable|].
  split; [exact w1_table|].
  destruct (proj2 (TableFacts.exposed_chip_amounts [BB_3; POT] raise_size evaluate
                     shuffle raise_name illegal_action_policy card_str config
                     table1 w1 initial_context
                     config_chip_counts table1_reachable w1_table))
    as (r & Hrun & _ & Hamounts).
  exists r. split; [exact Hrun|].
  apply Hamounts. left. vm_compute. reflexivity.
Defined.

(** Both halves fail.  With a small blind of -1 the snapshot of
    [get_game_state] shows a [current_round_pot] of -1 and a bet of -1
    for seat 0; and on the first hand of the usual table
    [calculate_pot_odds] computes the pot odds in floating point from
    the pot amounts. *)
Lemma amounts_negative_and_odds_float :
  Tools.game_table engine
    (fst (fst (Tools.initialize_poker_game engine 100 (-1) 0
                 (w0, initial_context))))
  = Tools.game_table engine w_neg
  /\ (field "current_round_pot"
        <$> result_of (run (Tools.get_game_state engine) w_neg)
      = Some (Some (PInt (-1))))
  /\ ~ is_chip_count (Some (PInt (F := float) (-1)))
  /\ Tools.calculate_pot_odds engine (w1, initial_context)
     = ((w1, initial_context), Return pot_odds1)
  /\ field "total_pot" pot_odds1 = Some (PInt 3)
  /\ field "call_amount" pot_odds1 = Some (PInt 1)
  /\ field "pot_odds" pot_odds1 = Some (PFloat (int_truediv 3 1))
  /\ ~ float_free pot_odds1.
Proof.
  split; [exact w_neg_table|]. split; [vm_compute; reflexivity|].
  split; [intros (n & [= <-] & Hn); lia|].
  split; [|split; [reflexivity|split; [reflexivity|split; [reflexivity|]]]].
  - assert (Hodds : snd (Tools.calculate_pot_odds engine (w1, initial_context))
                    = Return pot_odds1) by (vm_compute; reflexivity).
    destruct (ToolsFacts.pot_odds_run engine w1 initial_context table1 w1_table)
      as (r & Hrun & _).
    assert (Hsame : Return r = Return pot_odds1)
      by exact (eq_trans (eq_sym (f_equal snd Hrun)) Hodds).
    injection Hsame as ->. exact Hrun.
  - intros Hfree. exact (Hfree "pot_odds" _ eq_refl).
Qed.

End Examples.

(** * Further properties of the tool layer *)

Module ToolsExtra.
Import Py Tools Shape Frame.

Section Conversion.
Context {F : Type}.

Abbreviation pyobj := (Py.pyobj F).

Lemma forallb_map_fixed {A} (f : A -> A) (test : A -> bool) (l : list A) :
  Forall (fun x => test x = true -> f x = x) l ->
  forallb test l = true -> map f l = l.
Proof.
  induction 1 as [|x l Hx _ IH]; cbn; [reflexivity|].
  intros Htest. apply andb_true_iff in Htest as [Hx' Hl].
  rewrite (Hx Hx'), (IH Hl). reflexivity.
Qed.

(** Converting an object that is native already changes nothing. *)
Lemma convert_native_fixed (o : pyobj) :
  native o = true -> _convert_numpy_types o = o.
Proof.
  induction o as [| | | | | | | |items IH| |name value IHname IHvalue
                  |items IH|items IH|items IH|entries IH|]
    using PyFacts.pyobj_nested_ind; cbn; try reflexivity; try discriminate.
  - intros Hnative. f_equal. exact (forallb_map_fixed _ _ _ IH Hnative).
  - intros Hnative. f_equal. exact (forallb_map_fixed _ _ _ IH Hnative).
  - intros Hnative. f_equal.
    induction IH as [|[k v] items Hv _ IHitems]; cbn in *; [reflexivity|].
    apply andb_true_iff in Hnative as [Hv' Hitems].
    rewrite (Hv Hv'), (IHitems Hitems). reflexivity.
  - intros Hnative. f_equal.
    induction IH as [|[k v] entries [_ Hv] _ IHentries]; cbn in *; [reflexivity|].
    apply andb_true_iff in Hnative as [Hkv Hentries].
    apply andb_true_iff in Hkv as [_ Hv'].
    rewrite (Hv Hv'), (IHentries Hentries). reflexivity.
Qed.

(** [tolist] of a numeric array is native. *)
Lemma tolist_item_native (o : pyobj) :
  numeric o = true -> native (tolist_item o) = true.
Proof.
  induction o as [| | | | | | | |items IH| | | | | | |]
    using PyFacts.pyobj_nested_ind; cbn; try reflexivity; try discriminate.
  intros Hnumeric. exact (PyFacts.forallb_map_test _ _ _ _ IH Hnumeric).
Qed.

Lemma convert_fully_native (o : pyobj) :
  converts_fully o = true -> native (_convert_numpy_types o) = true.
Proof.
  induction o as [| | | | | | | |items IH| |name value IHname IHvalue
                  |items IH|items IH|items IH|entries IH|]
    using PyFacts.pyobj_nested_ind; cbn; try reflexivity; try discriminate.
  - intros Hnumeric. unfold tolist. rewrite Hnumeric.
    apply (PyFacts.forallb_map_test tolist_item numeric native); [|exact Hnumeric].
    apply Forall_forall. intros x _. apply tolist_item_native.
  - intros Hname. exact Hname.
  - intros Hfully. exact (PyFacts.forallb_map_test _ _ _ _ IH Hfully).
  - intros Hfully. exact (PyFacts.forallb_map_test _ _ _ _ IH Hfully).
  - intros Hfully.
    induction IH as [|[k v] items Hv _ IHitems]; cbn in *; [reflexivity|].
    apply andb_true_iff in Hfully as [Hv' Hitems].
    rewrite (Hv Hv'), (IHitems Hitems). reflexivity.
  - intros Hfully.
    induction IH as [|[k v] entries [_ Hv] _ IHentries]; cbn in *; [reflexivity|].
    apply andb_true_iff in Hfully as [Hkv Hentries].
    apply andb_true_iff in Hkv as [Hk Hv'].
    rewrite Hk, (Hv Hv'), (IHentries Hentries). reflexivity.
Qed.

(** X1. [_convert_numpy_types] yields a native object -- no numpy scalar
    or array, no enumeration member and no other object at any depth --
    whenever the conversion reaches all of its argument: the arrays
    inside are numeric, the keys of the dictionaries and the names of
    the named objects, which the conversion passes on as they are, are
    native already, and no object of another kind occurs.  Converting
    the result once more changes nothing. *)
Theorem convert_yields_native (o : pyobj) :
  converts_fully o = true ->
  native (_convert_numpy_types o) = true
  /\ _convert_numpy_types (_convert_numpy_types o) = _convert_numpy_types o.
Proof.
  intros Hfully. pose proof (convert_fully_native o Hfully) as Hnative.
  split; [exact Hnative | exact (convert_native_fixed _ Hnative)].
Qed.

(** X2. [_convert_numpy_types] keeps the keys of a dictionary, in their
    order, and converts the value under each key: looking a key up after
    the conversion gives the converted value of the lookup before. *)
Theorem convert_dict_lookup (items : list (string * pyobj)) (key : string) :
  map fst (match _convert_numpy_types (PDict items) with
           | PDict items' => items'
           | _ => []
           end) = map fst items
  /\ field key (_convert_numpy_types (PDict items))
     = option_map _convert_numpy_types (field key (PDict items)).
Proof.
  cbn. split.
  - induction items as [|[k v] items IH]; cbn; [|rewrite IH]; reflexivity.
  - induction items as [|[k v] items IH]; cbn; [reflexivity|].
    destruct (String.eqb key k); [reflexivity | exact IH].
Qed.

End Conversion.

Section Boundary.
Context {F : Type} {FO : FloatOps F}.
Variable upper : string -> string.
Variable E : Engine F.

Abbreviation Run := ((World E * ToolContext (F := F)) * outcome (Py.pyobj F))%type.

Lemma error_dict_status (msg : string) : status_dict (error_dict (F := F) msg).
Proof. right. reflexivity. Qed.

Lemma returns_error (s : World E * ToolContext (F := F)) (msg : string) :
  returns_status (s, Return (error_dict (F := F) msg)).
Proof. eexists. split; [reflexivity | apply error_dict_status]. Qed.

Lemma guard_cases (body : Tool E (Py.pyobj F)) (w : World E) (tc : ToolContext) :
  (forall t, game_table E w = Some t -> returns_status (body (w, tc))) ->
  returns_status
    (bind E (get_world E)
       (fun w => match game_table E w with
                 | None => ret E (not_initialized (F := F))
                 | Some _ => body
                 end) (w, tc)).
Proof.
  intros Hbody. destruct (game_table E w) as [t|] eqn:Htable.
  - rewrite (ToolsFacts.guard_initialized E _ w tc t Htable). exact (Hbody t eq_refl).
  - rewrite (ToolsFacts.guard_not_initialized E _ w tc Htable). apply returns_error.
Qed.

Lemma get_game_state_returns (w : World E) (tc : ToolContext) :
  returns_status (get_game_state E (w, tc)).
Proof.
  unfold get_game_state. apply guard_cases. intros t Htable.
  unfold try_except, bind, call, the_table, set_state, ret.
  destruct w as [gt cgs calls]. cbn in Htable. subst gt. cbn.
  destruct (_get_environment E t) as [t' [[]|e]]; cbn.
  - eexists. split; [reflexivity|]. left. reflexivity.
  - apply returns_error.
Qed.

Lemma initialize_returns (w : World E) (tc : ToolContext) (a b c : Z) :
  returns_status (initialize_poker_game E a b c (w, tc)).
Proof.
  unfold initialize_poker_game, try_except, bind, log_call, lift,
    set_game_table, call, set_current_game_state, set_state, ret.
  destruct w as [gt cgs calls]. cbn.
  destruct (HoldemTable E a b c false false 2 false) as [t0|e0]; cbn;
    [|apply returns_error].
  destruct (add_player E "Player1" t0) as [t1 [[]|e1]]; cbn; [|apply returns_error].
  destruct (add_player E "Player2" t1) as [t2 [[]|e2]]; cbn; [|apply returns_error].
  destruct (reset E t2) as [t3 [[]|e3]]; cbn; [|apply returns_error].
  eexists. split; [reflexivity|]. left. reflexivity.
Qed.

Lemma process_returns (w : World E) (tc : ToolContext) (action_name : string) :
  returns_status (process_player_action upper E action_name (w, tc)).
Proof.
  unfold process_player_action. apply guard_cases. intros t Htable.
  pose proof get_game_state_returns as Hsnapshot.
  remember (get_game_state E) as snapshot eqn:Hdef. clear Hdef.
  unfold try_except_KeyError, try_except, bind, lift, call.
  destruct (enum_getitem (Action E) (upper action_name)) as [m|e].
  - destruct w as [gt cgs calls]. cbn in Htable. subst gt. cbn.
    destruct (step E (member_value m) t) as [t1 [[[[obs reward] done] info]|e]]; cbn.
    + match goal with
      | |- context [snapshot (?w', ?tc')] =>
          destruct (Hsnapshot w' tc') as (r & Hr & _);
          destruct (snapshot (w', tc')) as [[w2 tc2] o]
      end.
      cbn in Hr. subst o. cbn.
      eexists. split; [reflexivity|]. left. reflexivity.
    + destruct (exn_cls e); apply returns_error.
  - destruct (exn_cls e); apply returns_error.
Qed.

Lemma check_game_over_returns (w : World E) (tc : ToolContext) :
  returns_status (check_game_over E (w, tc)).
Proof.
  unfold check_game_over. apply guard_cases. intros t Htable.
  unfold try_except, bind. rewrite (ToolsFacts.the_table_initialized E w tc t Htable).
  destruct (if done E t then _ else _) as [final_stacks winner]. cbn.
  eexists. split; [reflexivity|]. left. reflexivity.
Qed.

Lemma get_player_hand_returns (w : World E) (tc : ToolContext) (player_seat : Z) :
  returns_status (get_player_hand E player_seat (w, tc)).
Proof.
  unfold get_player_hand. apply guard_cases. intros t Htable.
  unfold try_except, bind. rewrite (ToolsFacts.the_table_initialized E w tc t Htable).
  destruct (_ || _); [apply returns_error|].
  unfold lift. destruct (index (players E t) player_seat) as [p|e]; cbn.
  - eexists. split; [reflexivity|]. left. reflexivity.
  - apply returns_error.
Qed.

Lemma get_legal_actions_returns (w : World E) (tc : ToolContext) :
  returns_status (get_legal_actions E (w, tc)).
Proof.
  unfold get_legal_actions. apply guard_cases. intros t Htable.
  unfold try_except, bind, call, the_table, lift, raise, ret.
  destruct w as [gt cgs calls]. cbn in Htable. subst gt. cbn.
  destruct (_get_legal_moves E t) as [t' [[]|e]]; cbn; [|apply returns_error].
  destruct (legal_moves E t') as [moves|]; cbn; [|apply returns_error].
  destruct (current_player E t') as [p|]; cbn.
  - destruct (index (player_pots E t') (seat p)) as [bet|e]; cbn.
    + eexists. split; [reflexivity|]. left. reflexivity.
    + apply returns_error.
  - eexists. split; [reflexivity|]. left. reflexivity.
Qed.

Lemma pot_odds_returns (w : World E) (tc : ToolContext) :
  returns_status (calculate_pot_odds E (w, tc)).
Proof.
  unfold calculate_pot_odds. apply guard_cases. intros t Htable.
  unfold try_except, bind. rewrite (ToolsFacts.the_table_initialized E w tc t Htable).
  destruct (0 <? default 0 (min_call E t)).
  - unfold lift, truediv, ret.
    destruct (_ =? 0); [apply returns_error|].
    destruct (truediv_overflows _ _); [apply returns_error|].
    destruct (_ =? 0); [apply returns_error|].
    destruct (truediv_overflows _ _); [apply returns_error|].
    eexists. split; [reflexivity|]. left. reflexivity.
  - eexists. split; [reflexivity|]. left. reflexivity.
Qed.

(** X3. The GameMaster tools do not raise across the boundary: whatever
    the engine does, including raising in its constructor or in any of
    its methods, and whatever the globals hold, each of them returns a
    dictionary whose status is "success" or "error". *)
Theorem gamemaster_tools_never_raise (w : World E) (tc : ToolContext)
    (initial_stacks small_blind big_blind : Z) (action_name : string) :
  returns_status (initialize_poker_game E initial_stacks small_blind big_blind (w, tc))
  /\ returns_status (get_game_state E (w, tc))
  /\ returns_status (process_player_action upper E action_name (w, tc))
  /\ returns_status (check_game_over E (w, tc)).
Proof.
  split; [apply initialize_returns|]. split; [apply get_game_state_returns|].
  split; [apply process_returns | apply check_game_over_returns].
Qed.

(** X4. The player tools do not raise across the boundary: for any
    seat, any table and any behaviour of the engine each of them returns
    a dictionary whose status is "success" or "error" -- an index out of
    range or a division by zero inside comes back as status "error". *)
Theorem player_tools_never_raise (w : World E) (tc : ToolContext)
    (player_seat : Z) :
  returns_status (get_player_hand E player_seat (w, tc))
  /\ returns_status (get_legal_actions E (w, tc))
  /\ returns_status (calculate_pot_odds E (w, tc))
  /\ returns_status (exit_game_loop E (w, tc)).
Proof.
  split; [apply get_player_hand_returns|]. split; [apply get_legal_actions_returns|].
  split; [apply pot_odds_returns|].
  eexists. split; [reflexivity|]. left. reflexivity.
Qed.

(** ** Seats and indices *)

Lemma index_in_range {A} (l : list A) (i : Z) (x : A) :
  0 <= i -> l !! Z.to_nat i = Some x -> index l i = Return x.
Proof.
  intros Hi Hlook. pose proof (lookup_lt_Some _ _ _ Hlook) as Hlt. unfold index.
  destruct (Z.ltb_spec i 0) as [|_]; [lia|].
  destruct (Z.leb_spec 0 i) as [_|]; [|lia].
  destruct (Z.ltb_spec i (Z.of_nat (length l))) as [_|]; [|lia].
  cbn. rewrite Hlook. reflexivity.
Qed.

Lemma index_from_end {A} (l : list A) (i : Z) (x : A) :
  i < 0 -> 0 <= i + Z.of_nat (length l) ->
  l !! Z.to_nat (i + Z.of_nat (length l)) = Some x -> index l i = Return x.
Proof.
  intros Hneg Hi Hlook. unfold index.
  destruct (Z.ltb_spec i 0) as [_|]; [|lia].
  destruct (Z.leb_spec 0 (i + Z.of_nat (length l))) as [_|]; [|lia].
  destruct (Z.ltb_spec (i + Z.of_nat (length l)) (Z.of_nat (length l))) as [_|]; [|lia].
  cbn. rewrite Hlook. reflexivity.
Qed.

Lemma index_out_of_range {A} (l : list A) (i : Z) :
  i < - Z.of_nat (length l) \/ Z.of_nat (length l) <= i ->
  index l i = Raise {| exn_cls := IndexError; exn_str := "list index out of range" |}.
Proof.
  intros Hout. unfold index.
  destruct (Z.ltb_spec i 0) as [Hneg|Hpos].
  - destruct (Z.leb_spec 0 (i + Z.of_nat (length l))) as [|_]; [lia|]. reflexivity.
  - destruct (Z.leb_spec 0 i) as [_|]; [|lia].
    destruct (Z.ltb_spec i (Z.of_nat (length l))) as [|_]; [lia|]. reflexivity.
Qed.

(** X5. [get_player_hand] checks the seat before indexing: a negative
    seat or one past the last player gives the status "error"
    dictionary naming the seat -- a negative seat does not count from
    the end as a Python index would --, and a seat in range gives that
    player's name, the seat, the cards and the stack; globals, context
    and engine are left alone in both cases. *)
Theorem get_player_hand_bounds (w : World E) (tc : ToolContext) (t : table E)
    (player_seat : Z) :
  game_table E w = Some t ->
  (player_seat < 0 \/ Z.of_nat (length (players E t)) <= player_seat ->
   get_player_hand E player_seat (w, tc)
   = ((w, tc),
      Return (PDict [("status", PStr "error");
                     ("message",
                       PStr ("Invalid player seat: " +:+ str_int player_seat))])))
  /\ (forall p,
        0 <= player_seat ->
        players E t !! Z.to_nat player_seat = Some p ->
        get_player_hand E player_seat (w, tc)
        = ((w, tc),
           Return (PDict [("status", PStr "success");
                          ("player_name", PStr (name p));
                          ("seat", PInt player_seat);
                          ("hand_cards", str_cards E (cards p));
                          ("stack", PInt (stack p))]))).
Proof.
  intros Htable. unfold get_player_hand.
  rewrite (ToolsFacts.guard_initialized E _ w tc t Htable).
  unfold try_except, bind. rewrite (ToolsFacts.the_table_initialized E w tc t Htable).
  split.
  - intros Hout.
    destruct (Z.ltb_spec player_seat 0) as [|Hpos]; [reflexivity|].
    destruct (Z.leb_spec (Z.of_nat (length (players E t))) player_seat) as [|]; [|lia].
    reflexivity.
  - intros p Hpos Hlook. pose proof (lookup_lt_Some _ _ _ Hlook) as Hlt.
    destruct (Z.ltb_spec player_seat 0) as [|_]; [lia|].
    destruct (Z.leb_spec (Z.of_nat (length (players E t))) player_seat) as [|_]; [lia|].
    cbn [orb]. unfold lift. rewrite (index_in_range _ _ _ Hpos Hlook). unfold ret.
    cbn. do 5 f_equal.
    change (PList (map _convert_numpy_types
                     (map (fun c => PStr (str_card E c)) (cards p))))
      with (_convert_numpy_types (str_cards E (cards p))).
    rewrite ToolsFacts.convert_str_cards. reflexivity.
Qed.

Lemma convert_names (moves : list enum_member) :
  map (_convert_numpy_types (F := F))
    (map (fun a => PStr (member_name a)) moves)
  = map (fun a => PStr (member_name a)) moves.
Proof. induction moves as [|m moves IH]; cbn; [|rewrite IH]; reflexivity. Qed.

(** X6. [get_legal_actions], when the engine's refresh returns and the
    table has its [legal_moves]: the names of the moves come back in
    order with the call amount (0 when not set) and the current bet.
    The current bet is read at the acting player's seat with a plain
    Python index, so it is 0 without a seat to act, a negative seat
    counts from the end of [player_pots], and a seat outside the list
    turns the whole answer into the status "error" dictionary. *)
Theorem get_legal_actions_result (w : World E) (tc : ToolContext)
    (t t' : table E) (moves : list enum_member) :
  game_table E w = Some t ->
  _get_legal_moves E t = (t', Return tt) ->
  legal_moves E t' = Some moves ->
  let w' := {| game_table := Some t';
               current_game_state := current_game_state E w;
               engine_calls := engine_calls E w ++ [CallGetLegalMoves] |} in
  let answer (current_bet : Z) :=
    PDict [("status", PStr "success");
           ("legal_actions", action_names moves);
           ("current_player", opt_obj (fun p => PStr (name p)) (current_player E t'));
           ("current_player_seat",
             opt_obj (fun p => PInt (seat p)) (current_player E t'));
           ("min_call", PInt (default 0 (min_call E t')));
           ("current_bet", PInt current_bet)] in
  let pots := player_pots E t' in
  (current_player E t' = None ->
   get_legal_actions E (w, tc) = ((w', tc), Return (answer 0)))
  /\ (forall p bet,
        current_player E t' = Some p ->
        (0 <= seat p /\ pots !! Z.to_nat (seat p) = Some bet)
        \/ (seat p < 0 /\ 0 <= seat p + Z.of_nat (length pots)
            /\ pots !! Z.to_nat (seat p + Z.of_nat (length pots)) = Some bet) ->
        get_legal_actions E (w, tc) = ((w', tc), Return (answer bet)))
  /\ (forall p,
        current_player E t' = Some p ->
        seat p < - Z.of_nat (length pots) \/ Z.of_nat (length pots) <= seat p ->
        get_legal_actions E (w, tc)
        = ((w', tc),
           Return (PDict [("status", PStr "error");
                          ("message",
                            PStr "Error getting legal actions: list index out of range")]))).
Proof.
  intros Htable Hrefresh Hmoves w' answer pots. subst pots.
  unfold get_legal_actions.
  rewrite (ToolsFacts.guard_initialized E _ w tc t Htable).
  unfold try_except, bind, call, the_table, lift, raise, ret.
  destruct w as [gt cgs calls]. cbn in Htable. subst gt. cbn.
  rewrite Hrefresh. cbn. rewrite Hmoves. cbn.
  split; [|split].
  - intros Hnone. rewrite Hnone. cbn. rewrite convert_names.
    unfold w', answer. rewrite Hnone. cbn. reflexivity.
  - intros p bet Hsome Hseat. rewrite Hsome. cbn.
    assert (Hindex : index (player_pots E t') (seat p) = Return bet).
    { destruct Hseat as [[Hpos Hlook]|(Hneg & Hpos & Hlook)].
      - exact (index_in_range _ _ _ Hpos Hlook).
      - exact (index_from_end _ _ _ Hneg Hpos Hlook). }
    rewrite Hindex. cbn. rewrite convert_names.
    unfold w', answer. rewrite Hsome. cbn. reflexivity.
  - intros p Hsome Hout. rewrite Hsome. cbn.
    rewrite (index_out_of_range _ _ Hout). cbn. reflexivity.
Qed.

(** ** The session dictionary *)

Lemma dict_get_set_eq (k : string) (v : Py.pyobj F) (d : list (string * Py.pyobj F)) :
  dict_get k (dict_set k v d) = Some v.
Proof.
  induction d as [|[k' v'] d IH]; cbn.
  - rewrite String.eqb_refl. reflexivity.
  - destruct (String.eqb k k') eqn:Hk; cbn.
    + rewrite String.eqb_refl. reflexivity.
    + rewrite Hk. exact IH.
Qed.

Lemma dict_get_set_ne (k k' : string) (v : Py.pyobj F)
    (d : list (string * Py.pyobj F)) :
  k <> k' -> dict_get k' (dict_set k v d) = dict_get k' d.
Proof.
  intros Hne. induction d as [|[k0 v0] d IH]; cbn.
  - destruct (String.eqb_spec k' k) as [->|_]; [contradiction | reflexivity].
  - destruct (String.eqb_spec k k0) as [->|Hk0]; cbn.
    + destruct (String.eqb_spec k' k0) as [->|_]; [contradiction | reflexivity].
    + destruct (String.eqb k' k0); [reflexivity | exact IH].
Qed.

(** ** [get_game_state] *)

(** X7. When the engine's [_get_environment] raises, [get_game_state]
    returns the status "error" dictionary carrying the text of the
    exception; the session state is not touched, and the global keeps
    the table as the failed call left it. *)
Theorem get_game_state_engine_failure (w : World E) (tc : ToolContext)
    (t t' : table E) (e : exn) :
  game_table E w = Some t ->
  _get_environment E t = (t', Raise e) ->
  get_game_state E (w, tc)
  = (({| game_table := Some t';
         current_game_state := current_game_state E w;
         engine_calls := engine_calls E w ++ [CallGetEnvironment] |}, tc),
     Return (PDict [("status", PStr "error");
                    ("message", PStr ("Error getting game state: " +:+ exn_str e))])).
Proof.
  intros Htable Henv. unfold get_game_state.
  rewrite (ToolsFacts.guard_initialized E _ w tc t Htable).
  unfold try_except, bind, call.
  destruct w as [gt cgs calls]. cbn in Htable. subst gt. cbn.
  rewrite Henv. reflexivity.
Qed.

(** The run of [get_game_state] when the engine's refresh returns. *)
Lemma get_game_state_run (w : World E) (tc : ToolContext) (t t' : table E) :
  game_table E w = Some t ->
  _get_environment E t = (t', Return tt) ->
  exists r,
    get_game_state E (w, tc)
    = (({| game_table := Some t';
           current_game_state := current_game_state E w;
           engine_calls := engine_calls E w ++ [CallGetEnvironment] |},
        {| state := dict_set "current_game_state" r (state tc);
           actions_escalate := actions_escalate tc |}),
       Return r)
    /\ field "status" r = Some (PStr "success")
    /\ _convert_numpy_types r = r.
Proof.
  intros Htable Henv. unfold get_game_state.
  rewrite (ToolsFacts.guard_initialized E _ w tc t Htable).
  unfold try_except, bind, call, the_table, set_state, ret.
  destruct w as [gt cgs calls]. cbn in Htable. subst gt. cbn.
  rewrite Henv. cbn.
  eexists. split; [reflexivity|]. split; [reflexivity|].
  cbn.
  assert (Hcards : forall cs : list (card E),
    map _convert_numpy_types
      (map (_convert_numpy_types (F := F)) (map (fun c => PStr (str_card E c)) cs))
    = map _convert_numpy_types (map (fun c => PStr (str_card E c)) cs)).
  { intros cs. induction cs as [|c cs IH]; cbn; [|rewrite IH]; reflexivity. }
  rewrite Hcards.
  rewrite !(ToolsFacts.map_imap_fixed _convert_numpy_types (player_info E t')
              (players E t') (ToolsFacts.convert_player_info E t')).
  destruct (current_player E t'), (legal_moves E t'), (winner_ix E t'); cbn;
    rewrite ?convert_names; reflexivity.
Qed.

(** X8. A successful [get_game_state] stores the snapshot it returns in
    the session state under "current_game_state" and leaves every other
    session key and the escalation flag as they were; of the globals
    only the table changes, to what the engine's refresh made of it. *)
Theorem get_game_state_session (w : World E) (tc : ToolContext) (t t' : table E) :
  game_table E w = Some t ->
  _get_environment E t = (t', Return tt) ->
  exists r tc',
    get_game_state E (w, tc)
    = (({| game_table := Some t';
           current_game_state := current_game_state E w;
           engine_calls := engine_calls E w ++ [CallGetEnvironment] |}, tc'),
       Return r)
    /\ dict_get "current_game_state" (state tc') = Some r
    /\ (forall key, key <> "current_game_state" ->
         dict_get key (state tc') = dict_get key (state tc))
    /\ actions_escalate tc' = actions_escalate tc.
Proof.
  intros Htable Henv.
  destruct (get_game_state_run w tc t t' Htable Henv) as (r & Hrun & _).
  exists r. eexists. split; [exact Hrun|]. cbn.
  split; [apply dict_get_set_eq|]. split; [|reflexivity].
  intros key Hkey. apply dict_get_set_ne. congruence.
Qed.

(** X9. In the snapshot every player has one entry, in the order of
    [players].  Seat, name and stack are the player's own attributes,
    while [current_bet] and [is_active] are read at the player's
    position in the list: a position past the end of [player_pots]
    gives a bet of 0, a position past the end of the alive flags gives
    inactive, and without a player cycle everyone is active. *)
Theorem snapshot_player_entries (w : World E) (tc : ToolContext) (t t' : table E) :
  game_table E w = Some t ->
  _get_environment E t = (t', Return tt) ->
  exists env' r entries,
    get_game_state E (w, tc) = (env', Return r)
    /\ field "players" r = Some (PList entries)
    /\ length entries = length (players E t')
    /\ forall i p,
         players E t' !! i = Some p ->
         exists entry,
           entries !! i = Some entry
           /\ field "seat" entry = Some (PInt (seat p))
           /\ field "name" entry = Some (PStr (name p))
           /\ field "stack" entry = Some (PInt (stack p))
           /\ field "current_bet" entry
              = Some (PInt (default 0 (player_pots E t' !! i)))
           /\ field "is_active" entry
              = Some (PBool (match player_cycle E t' with
                             | Some alive => default false (alive !! i)
                             | None => true
                             end)).
Proof.
  intros Htable Henv.
  destruct (ToolsFacts.get_game_state_players E w tc t t' Htable Henv)
    as (env' & r & Hrun & _ & _ & Hplayers & _).
  exists env', r. eexists. split; [exact Hrun|]. split; [exact Hplayers|].
  split; [apply length_imap|].
  intros i p Hp. rewrite list_lookup_imap, Hp. cbn.
  eexists. split; [reflexivity|]. cbn.
  do 3 (split; [reflexivity|]). split.
  - destruct (player_pots E t' !! i); reflexivity.
  - destruct (player_cycle E t') as [alive|]; [|reflexivity].
    destruct (alive !! i); reflexivity.
Qed.

(** X10. Attributes the table lacks get defaults in the snapshot: the
    stage is "UNKNOWN" when the table has none, the legal actions are
    empty and the winner is [None] when the attributes are not set, the
    call amount is 0 when [min_call] is not set, and seat and name of
    the player to act are [None] when nobody is to act. *)
Theorem snapshot_defaults (w : World E) (tc : ToolContext) (t t' : table E) :
  game_table E w = Some t ->
  _get_environment E t = (t', Return tt) ->
  exists env' r,
    get_game_state E (w, tc) = (env', Return r)
    /\ field "stage" r
       = Some (PStr (match stage E t' with
                     | Some st => member_name st
                     | None => "UNKNOWN"
                     end))
    /\ field "legal_actions" r
       = Some (match legal_moves E t' with
               | Some moves => action_names moves
               | None => PList []
               end)
    /\ field "winner" r
       = Some (match winner_ix E t' with
               | Some ix => PInt ix
               | None => PNone
               end)
    /\ field "min_call" r
       = Some (PInt (match min_call E t' with
                     | Some amount => amount
                     | None => 0
                     end))
    /\ field "current_player_seat" r
       = Some (match current_player E t' with
               | Some p => PInt (seat p)
               | None => PNone
               end)
    /\ field "current_player_name" r
       = Some (match current_player E t' with
               | Some p => PStr (name p)
               | None => PNone
               end).
Proof.
  intros Htable Henv. unfold get_game_state.
  rewrite (ToolsFacts.guard_initialized E _ w tc t Htable).
  unfold try_except, bind, call, the_table, set_state, ret.
  destruct w as [gt cgs calls]. cbn in Htable. subst gt. cbn.
  rewrite Henv. cbn.
  do 2 eexists. split; [reflexivity|]. cbn.
  split; [reflexivity|].
  split; [destruct (legal_moves E t'); cbn; rewrite ?convert_names; reflexivity|].
  split; [destruct (winner_ix E t'); reflexivity|].
  split; [destruct (min_call E t'); reflexivity|].
  split; destruct (current_player E t'); reflexivity.
Qed.

(** ** [process_player_action] *)

(** X11. A valid action name whose [step] returns: the engine is called
    with the member's value, then once more for the snapshot; the result
    echoes the name as it was given, carries reward and info (both
    passed through the conversion twice), the done flag and the snapshot
    of the table after the step, and is stored in the session state
    under "last_action" next to the snapshot under
    "current_game_state". *)
Theorem process_action_success (w : World E) (tc : ToolContext)
    (t t1 t2 : table E) (m : enum_member) (action_name : string)
    (observation reward info : Py.pyobj F) (done : bool) :
  game_table E w = Some t ->
  enum_getitem (Action E) (upper action_name) = Return m ->
  step E (member_value m) t = (t1, Return (observation, reward, done, info)) ->
  _get_environment E t1 = (t2, Return tt) ->
  exists snapshot result tc',
    process_player_action upper E action_name (w, tc)
    = (({| game_table := Some t2;
           current_game_state := current_game_state E w;
           engine_calls := (engine_calls E w ++ [CallStep (member_value m)])
                           ++ [CallGetEnvironment] |}, tc'),
       Return result)
    /\ result
       = PDict [("status", PStr "success");
                ("action_taken", PStr action_name);
                ("reward", _convert_numpy_types (_convert_numpy_types reward));
                ("done", PBool done);
                ("game_state", snapshot);
                ("info", _convert_numpy_types (_convert_numpy_types info))]
    /\ field "status" snapshot = Some (PStr "success")
    /\ dict_get "last_action" (state tc') = Some result
    /\ dict_get "current_game_state" (state tc') = Some snapshot.
Proof.
  intros Htable Hlookup Hstep Henv. unfold process_player_action.
  rewrite (ToolsFacts.guard_initialized E _ w tc t Htable).
  destruct w as [gt cgs calls]. cbn in Htable. subst gt.
  destruct (get_game_state_run
              {| game_table := Some t1; current_game_state := cgs;
                 engine_calls := calls ++ [CallStep (member_value m)] |}
              tc t1 t2 eq_refl Henv) as (snapshot & Hrun & Hstatus & Hfixed).
  remember (get_game_state E) as snap eqn:Hdef. clear Hdef.
  unfold try_except_KeyError, try_except, bind, lift, call, set_state, ret.
  rewrite Hlookup. cbn. rewrite Hstep. cbn. rewrite Hrun. cbn.
  rewrite Hfixed.
  exists snapshot. do 2 eexists. split; [reflexivity|]. cbn.
  split; [reflexivity|]. split; [exact Hstatus|].
  split; [apply dict_get_set_eq|].
  rewrite dict_get_set_ne by discriminate. apply dict_get_set_eq.
Qed.

(** X12. A [KeyError] raised inside the engine's [step] is taken for a
    bad action name: although the name was valid and [step] did run --
    the global holds the table as the failed step left it --, the answer
    is the "Invalid action" dictionary with the list of valid names. *)
Theorem engine_key_error_misreported (w : World E) (tc : ToolContext)
    (t t1 : table E) (m : enum_member) (action_name : string) (e : exn) :
  game_table E w = Some t ->
  enum_getitem (Action E) (upper action_name) = Return m ->
  step E (member_value m) t = (t1, Raise e) ->
  exn_cls e = KeyError ->
  process_player_action upper E action_name (w, tc)
  = (({| game_table := Some t1;
         current_game_state := current_game_state E w;
         engine_calls := engine_calls E w ++ [CallStep (member_value m)] |}, tc),
     Return (PDict [("status", PStr "error");
                    ("message",
                      PStr ("Invalid action: " +:+ action_name
                            +:+ ". Valid actions are: "
                            +:+ repr_str_list (map member_name (Action E))))])).
Proof.
  intros Htable Hlookup Hstep Hcls. unfold process_player_action.
  rewrite (ToolsFacts.guard_initialized E _ w tc t Htable).
  destruct w as [gt cgs calls]. cbn in Htable. subst gt.
  unfold try_except_KeyError, try_except, bind, lift, call.
  rewrite Hlookup. cbn. rewrite Hstep. cbn. rewrite Hcls. reflexivity.
Qed.

(** X13. Any other exception of the engine's [step] comes back as the
    status "error" dictionary with the text of the exception; nothing is
    rolled back -- the global holds the table as the failed step left
    it -- and the session state is not touched. *)
Theorem engine_step_failure (w : World E) (tc : ToolContext)
    (t t1 : table E) (m : enum_member) (action_name : string) (e : exn) :
  game_table E w = Some t ->
  enum_getitem (Action E) (upper action_name) = Return m ->
  step E (member_value m) t = (t1, Raise e) ->
  exn_cls e <> KeyError ->
  process_player_action upper E action_name (w, tc)
  = (({| game_table := Some t1;
         current_game_state := current_game_state E w;
         engine_calls := engine_calls E w ++ [CallStep (member_value m)] |}, tc),
     Return (PDict [("status", PStr "error");
                    ("message",
                      PStr ("Error processing action: " +:+ exn_str e))])).
Proof.
  intros Htable Hlookup Hstep Hcls. unfold process_player_action.
  rewrite (ToolsFacts.guard_initialized E _ w tc t Htable).
  destruct w as [gt cgs calls]. cbn in Htable. subst gt.
  unfold try_except_KeyError, try_except, bind, lift, call.
  rewrite Hlookup. cbn. rewrite Hstep. cbn.
  destruct (exn_cls e); try reflexivity. contradiction.
Qed.

(** Looking a member up by its own name finds it, names being distinct. *)
Lemma enum_getitem_member (cls : list enum_member) (m : enum_member) :
  NoDup (map member_name cls) -> m ∈ cls ->
  enum_getitem cls (member_name m) = Return m.
Proof.
  induction cls as [|m' cls IH]; intros Hnodup Hin; [inversion Hin|].
  cbn in *. apply NoDup_cons in Hnodup as [Hfresh Hnodup].
  destruct (String.eqb_spec (member_name m') (member_name m)) as [Heq|Hne].
  - apply elem_of_cons in Hin as [->|Hin]; [reflexivity|].
    exfalso. apply Hfresh. rewrite Heq.
    apply list_elem_of_In, in_map, list_elem_of_In. exact Hin.
  - apply elem_of_cons in Hin as [->|Hin]; [contradiction|].
    exact (IH Hnodup Hin).
Qed.

Lemma get_game_state_calls (w : World E) (tc : ToolContext) :
  exists rest,
    engine_calls E (fst (fst (get_game_state E (w, tc)))) = engine_calls E w ++ rest.
Proof.
  destruct (game_table E w) as [t|] eqn:Htable.
  - unfold get_game_state.
    rewrite (ToolsFacts.guard_initialized E _ w tc t Htable).
    unfold try_except, bind, call, the_table, set_state, ret.
    destruct w as [gt cgs calls]. cbn in Htable. subst gt. cbn.
    destruct (_get_environment E t) as [t' [[]|e]]; cbn; eexists; reflexivity.
  - unfold get_game_state.
    rewrite (ToolsFacts.guard_not_initialized E _ w tc Htable).
    exists []. cbn. rewrite app_nil_r. reflexivity.
Qed.

(** X14. The names the "Invalid action" message lists are the names that
    are accepted: with distinct member names, passing the name of any
    member of [Action] (a name that upper-casing leaves alone) makes the
    tool call [step] with that member's value. *)
Theorem listed_names_accepted (w : World E) (tc : ToolContext) (t : table E)
    (m : enum_member) :
  game_table E w = Some t ->
  NoDup (map member_name (Action E)) ->
  m ∈ Action E ->
  upper (member_name m) = member_name m ->
  exists rest,
    engine_calls E
      (fst (fst (process_player_action upper E (member_name m) (w, tc))))
    = engine_calls E w ++ CallStep (member_value m) :: rest.
Proof.
  intros Htable Hnodup Hin Hupper. unfold process_player_action.
  rewrite (ToolsFacts.guard_initialized E _ w tc t Htable).
  destruct w as [gt cgs calls]. cbn in Htable. subst gt.
  pose proof get_game_state_calls as Hcalls.
  remember (get_game_state E) as snap eqn:Hdef. clear Hdef.
  unfold try_except_KeyError, try_except, bind, lift, call, set_state, ret.
  rewrite Hupper, (enum_getitem_member _ _ Hnodup Hin). cbn.
  destruct (step E (member_value m) t) as [t1 [[[[obs reward] done] info]|e]]; cbn.
  - match goal with
    | |- context [snap (?w', ?tc')] =>
        destruct (Hcalls w' tc') as [rest Hrest];
        destruct (snap (w', tc')) as [[w2 tc2] [r|e]]
    end; cbn in Hrest; exists rest; [|destruct (exn_cls e)]; cbn;
      rewrite Hrest, <- app_assoc; reflexivity.
  - exists []. destruct (exn_cls e); reflexivity.
Qed.

(** X15. The action name is matched without regard to case: two names
    with the same upper-casing leave the same globals -- the same table,
    the same engine calls. *)
Theorem action_name_case_insensitive (w : World E) (tc : ToolContext)
    (name1 name2 : string) :
  upper name1 = upper name2 ->
  fst (fst (process_player_action upper E name1 (w, tc)))
  = fst (fst (process_player_action upper E name2 (w, tc))).
Proof.
  intros Hupper. unfold process_player_action.
  destruct (game_table E w) as [t|] eqn:Htable.
  - rewrite !(ToolsFacts.guard_initialized E _ w tc t Htable).
    destruct w as [gt cgs calls]. cbn in Htable. subst gt.
    remember (get_game_state E) as snap eqn:Hdef. clear Hdef.
    unfold try_except_KeyError, try_except, bind, lift, call, set_state, ret.
    rewrite Hupper.
    destruct (enum_getitem (Action E) (upper name2)) as [m|e]; cbn.
    + destruct (step E (member_value m) t) as [t1 [[[[obs reward] done] info]|e]];
        cbn.
      * match goal with
        | |- context [snap ?s] => destruct (snap s) as [[w2 tc2] [r|e]]
        end; cbn; [reflexivity|].
        destruct (exn_cls e); reflexivity.
      * destruct (exn_cls e); reflexivity.
    + destruct (exn_cls e); reflexivity.
  - rewrite !(ToolsFacts.guard_not_initialized E _ w tc Htable). reflexivity.
Qed.

(** ** [calculate_pot_odds] *)

(** X16. How [calculate_pot_odds] can fail, for any pots.  A call
    amount of zero or below, also a negative one, never fails: it is
    reported as it is, with infinite odds and the rounded [float(0)].
    When the answer is the status "error" dictionary, the call amount
    is positive and one of two things happened: it cancels the total pot
    and the percentage divided by zero, or one of the two quotients is
    beyond the range of a float; the message carries the text of the
    exception.  Globals and context are as before in every case. *)
Theorem pot_odds_edge_cases (w : World E) (tc : ToolContext) (t : table E) :
  game_table E w = Some t ->
  let total_pot := community_pot E t + current_round_pot E t in
  let call_amount := default 0 (min_call E t) in
  exists r,
    calculate_pot_odds E (w, tc) = ((w, tc), Return r)
    /\ (call_amount <= 0 ->
        field "status" r = Some (PStr "success")
        /\ field "call_amount" r = Some (PInt call_amount)
        /\ field "pot_odds" r = Some (PFloat float_inf)
        /\ field "pot_odds_percentage" r
           = Some (PFloat (float_round (float_of_int 0) 2)))
    /\ (field "status" r = Some (PStr "error") ->
        0 < call_amount
        /\ ((total_pot + call_amount = 0
             /\ r = PDict [("status", PStr "error");
                           ("message",
                             PStr "Error calculating pot odds: division by zero")])
            \/ ((truediv_overflows total_pot call_amount = true
                 \/ truediv_overflows call_amount (total_pot + call_amount) = true)
                /\ r = PDict [("status", PStr "error");
                              ("message",
                                PStr "Error calculating pot odds: integer division result too large for a float")]))).
Proof.
  intros Htable total_pot call_amount.
  destruct (ToolsFacts.pot_odds_run E w tc t Htable)
    as (r & Hrun & Hzero & Hover & Hpos & Hnone).
  fold total_pot call_amount in Hzero, Hover, Hpos, Hnone.
  exists r. split; [exact Hrun|]. split.
  - intros Hle. rewrite (Hnone Hle). repeat split; reflexivity.
  - intros Herror.
    destruct (Z_lt_le_dec 0 call_amount) as [Hlt|Hle];
      [|rewrite (Hnone Hle) in Herror; discriminate Herror].
    split; [exact Hlt|].
    destruct (Z.eq_dec (total_pot + call_amount) 0) as [Hz|Hnz];
      [left; split; [exact Hz | exact (Hzero Hlt Hz)]|].
    right.
    destruct (truediv_overflows total_pot call_amount) eqn:Hover1;
      [split; [left; reflexivity | exact (Hover Hlt Hnz (or_introl eq_refl))]|].
    destruct (truediv_overflows call_amount (total_pot + call_amount)) eqn:Hover2;
      [split; [right; reflexivity | exact (Hover Hlt Hnz (or_intror eq_refl))]|].
    rewrite (Hpos Hlt Hnz eq_refl eq_refl) in Herror. discriminate Herror.
Qed.

(** ** [initialize_poker_game] *)

(** X17. When the table constructor raises, [initialize_poker_game]
    answers with the status "error" dictionary carrying the text of the
    exception, and a game that was running goes on: the globals hold
    the table and the game state they held before, and the session
    context is not touched. *)
Theorem initialize_constructor_failure (w : World E) (tc : ToolContext)
    (initial_stacks small_blind big_blind : Z) (e : exn) :
  HoldemTable E initial_stacks small_blind big_blind false false 2 false
    = Raise e ->
  initialize_poker_game E initial_stacks small_blind big_blind (w, tc)
  = (({| game_table := game_table E w;
         current_game_state := current_game_state E w;
         engine_calls :=
           engine_calls E w
           ++ [CallHoldemTable initial_stacks small_blind big_blind
                 false false 2 false] |}, tc),
     Return (PDict [("status", PStr "error");
                    ("message",
                      PStr ("Failed to initialize game: " +:+ exn_str e))])).
Proof.
  intros Hnew.
  unfold initialize_poker_game, try_except, bind, log_call, lift,
    set_game_table, call, set_current_game_state, set_state, ret.
  destruct w as [gt cgs calls]. cbn. rewrite Hnew. reflexivity.
Qed.

(** X18. When the constructor returns but [initialize_poker_game]
    answers with status "error", one of [add_player] or [reset] raised,
    and the assignment to the global is not undone: the global holds
    the new table as the failing call left it, so the guard of the
    other tools takes the game for initialized, while the global game
    state and the session context are the old ones. *)
Theorem initialize_setup_failure (w w' : World E) (tc tc' : ToolContext)
    (r : pyobj F) (initial_stacks small_blind big_blind : Z) (t0 : table E) :
  HoldemTable E initial_stacks small_blind big_blind false false 2 false
    = Return t0 ->
  initialize_poker_game E initial_stacks small_blind big_blind (w, tc)
    = ((w', tc'), Return r) ->
  field "status" r = Some (PStr "error") ->
  exists t' e,
    game_table E w' = Some t'
    /\ r = PDict [("status", PStr "error");
                  ("message", PStr ("Failed to initialize game: " +:+ exn_str e))]
    /\ current_game_state E w' = current_game_state E w
    /\ tc' = tc
    /\ (add_player E "Player1" t0 = (t', Raise e)
        \/ exists t1,
             add_player E "Player1" t0 = (t1, Return tt)
             /\ (add_player E "Player2" t1 = (t', Raise e)
                 \/ exists t2,
                      add_player E "Player2" t1 = (t2, Return tt)
                      /\ reset E t2 = (t', Raise e))).
Proof.
  intros Hnew.
  unfold initialize_poker_game, try_except, bind, log_call, lift,
    set_game_table, call, set_current_game_state, set_state, ret.
  destruct w as [gt cgs calls]. cbn. rewrite Hnew. cbn.
  destruct (add_player E "Player1" t0) as [t1 [[]|e1]] eqn:Hadd1; cbn.
  - destruct (add_player E "Player2" t1) as [t2 [[]|e2]] eqn:Hadd2; cbn.
    + destruct (reset E t2) as [t3 [[]|e3]] eqn:Hreset; cbn.
      * intros [= <- <- <-]. discriminate.
      * intros [= <- <- <-] _. exists t3, e3.
        do 4 (split; [reflexivity|]). right. exists t1. split; [reflexivity|].
        right. exists t2. split; [exact Hadd2 | exact Hreset].
    + intros [= <- <- <-] _. exists t2, e2.
      do 4 (split; [reflexivity|]). right. exists t1. split; [reflexivity|].
      left. exact Hadd2.
  - intros [= <- <- <-] _. exists t1, e1.
    do 4 (split; [reflexivity|]). left. reflexivity.
Qed.

(** X19. A successful [initialize_poker_game] stores in the session
    state, under "game_state", the very dictionary it returns and keeps
    in the global, and sets "game_table_initialized" to [True]. *)
Theorem initialize_session (w w' : World E) (tc tc' : ToolContext)
    (r : pyobj F) (initial_stacks small_blind big_blind : Z) :
  initialize_poker_game E initial_stacks small_blind big_blind (w, tc)
    = ((w', tc'), Return r) ->
  field "status" r = Some (PStr "success") ->
  dict_get "game_state" (state tc') = Some (current_game_state E w')
  /\ field "game_state" r = Some (current_game_state E w')
  /\ dict_get "game_table_initialized" (state tc') = Some (PBool true).
Proof.
  unfold initialize_poker_game, try_except, bind, log_call, lift,
    set_game_table, call, set_current_game_state, set_state, ret.
  destruct w as [gt cgs calls]. cbn.
  destruct (HoldemTable E initial_stacks small_blind big_blind false false 2 false)
    as [t0|e0]; cbn; [|intros [= <- <- <-]; discriminate].
  destruct (add_player E "Player1" t0) as [t1 [[]|e1]]; cbn;
    [|intros [= <- <- <-]; discriminate].
  destruct (add_player E "Player2" t1) as [t2 [[]|e2]]; cbn;
    [|intros [= <- <- <-]; discriminate].
  destruct (reset E t2) as [t3 [[]|e3]]; cbn;
    [|intros [= <- <- <-]; discriminate].
  intros [= <- <- <-] _. cbn. split; [|split].
  - rewrite dict_get_set_ne by discriminate. apply dict_get_set_eq.
  - reflexivity.
  - apply dict_get_set_eq.
Qed.

(** ** What the tools leave alone *)

Lemma kept_same (keys : list string) (tc : ToolContext (F := F)) :
  context_kept_outside keys tc tc.
Proof. split; [reflexivity | intros key _; reflexivity]. Qed.

Lemma kept_set (keys : list string) (tc tc' : ToolContext (F := F))
    (key : string) (value : pyobj F) :
  key ∈ keys ->
  context_kept_outside keys tc tc' ->
  context_kept_outside keys tc
    {| state := dict_set key value (state tc');
       actions_escalate := actions_escalate tc' |}.
Proof.
  intros Hin [Hescalate Hstate]. split; [exact Hescalate|].
  intros key' Hout. cbn. rewrite dict_get_set_ne; [exact (Hstate key' Hout)|].
  intros <-. exact (Hout Hin).
Qed.

Lemma kept_more (keys keys' : list string) (tc tc' : ToolContext (F := F)) :
  (forall key, key ∈ keys -> key ∈ keys') ->
  context_kept_outside keys tc tc' -> context_kept_outside keys' tc tc'.
Proof.
  intros Hsub [Hescalate Hstate]. split; [exact Hescalate|].
  intros key Hout. apply Hstate. intros Hin. exact (Hout (Hsub key Hin)).
Qed.

Lemma kept_trans (keys : list string) (tc1 tc2 tc3 : ToolContext (F := F)) :
  context_kept_outside keys tc1 tc2 -> context_kept_outside keys tc2 tc3 ->
  context_kept_outside keys tc1 tc3.
Proof.
  intros [Hescalate1 Hstate1] [Hescalate2 Hstate2]. split.
  - rewrite Hescalate2. exact Hescalate1.
  - intros key Hout. rewrite (Hstate2 key Hout). exact (Hstate1 key Hout).
Qed.

Lemma get_game_state_frame (w : World E) (tc : ToolContext) :
  context_kept_outside ["current_game_state"] tc
    (snd (fst (get_game_state E (w, tc))))
  /\ current_game_state E (fst (fst (get_game_state E (w, tc))))
     = current_game_state E w
  /\ table_kept E w (fst (fst (get_game_state E (w, tc)))).
Proof.
  destruct (game_table E w) as [t|] eqn:Htable.
  - unfold get_game_state.
    rewrite (ToolsFacts.guard_initialized E _ w tc t Htable).
    unfold try_except, bind, call, the_table, set_state, ret.
    destruct w as [gt cgs calls]. cbn in Htable. subst gt. cbn.
    destruct (_get_environment E t) as [t' [[]|e]]; cbn.
    + split; [|split; [reflexivity | intros _; eexists; reflexivity]].
      apply (kept_set _ tc tc); [apply list_elem_of_here | apply kept_same].
    + split; [apply kept_same|].
      split; [reflexivity | intros _; eexists; reflexivity].
  - unfold get_game_state.
    rewrite (ToolsFacts.guard_not_initialized E _ w tc Htable). cbn.
    split; [apply kept_same|]. split; [reflexivity | intros H; exact H].
Qed.

Lemma initialize_frame (w : World E) (tc : ToolContext) (a b c : Z) :
  context_kept_outside ["game_state"; "game_table_initialized"] tc
    (snd (fst (initialize_poker_game E a b c (w, tc))))
  /\ table_kept E w (fst (fst (initialize_poker_game E a b c (w, tc)))).
Proof.
  unfold initialize_poker_game, try_except, bind, log_call, lift,
    set_game_table, call, set_current_game_state, set_state, ret.
  destruct w as [gt cgs calls]. cbn.
  destruct (HoldemTable E a b c false false 2 false) as [t0|e0]; cbn;
    [|split; [apply kept_same | intros H; exact H]].
  destruct (add_player E "Player1" t0) as [t1 [[]|e1]]; cbn;
    [|split; [apply kept_same | intros _; eexists; reflexivity]].
  destruct (add_player E "Player2" t1) as [t2 [[]|e2]]; cbn;
    [|split; [apply kept_same | intros _; eexists; reflexivity]].
  destruct (reset E t2) as [t3 [[]|e3]]; cbn;
    [|split; [apply kept_same | intros _; eexists; reflexivity]].
  split; [|intros _; eexists; reflexivity].
  apply (kept_set _ tc
           {| state := dict_set "game_state" _ (state tc);
              actions_escalate := actions_escalate tc |});
    [apply list_elem_of_further, list_elem_of_here|].
  apply (kept_set _ tc tc); [apply list_elem_of_here | apply kept_same].
Qed.

Lemma process_frame (w : World E) (tc : ToolContext) (action_name : string) :
  context_kept_outside ["current_game_state"; "last_action"] tc
    (snd (fst (process_player_action upper E action_name (w, tc))))
  /\ current_game_state E
       (fst (fst (process_player_action upper E action_name (w, tc))))
     = current_game_state E w
  /\ table_kept E w
       (fst (fst (process_player_action upper E action_name (w, tc)))).
Proof.
  destruct (game_table E w) as [t|] eqn:Htable; unfold process_player_action.
  - rewrite (ToolsFacts.guard_initialized E _ w tc t Htable).
    destruct w as [gt cgs calls]. cbn in Htable. subst gt.
    pose proof get_game_state_frame as Hframe.
    remember (get_game_state E) as snap eqn:Hdef. clear Hdef.
    unfold try_except_KeyError, try_except, bind, lift, call, set_state, ret.
    assert (Hkeys : forall key : string,
              key ∈ ["current_game_state"]
              -> key ∈ ["current_game_state"; "last_action"]).
    { intros key Hin. apply list_elem_of_singleton in Hin as ->.
      apply list_elem_of_here. }
    assert (Hsome : forall t1 : table E, is_Some (Some t1));
      [intros t1; eexists; reflexivity|].
    destruct (enum_getitem (Action E) (upper action_name)) as [m|e]; cbn.
    + destruct (step E (member_value m) t) as [t1 [[[[obs reward] done] info]|e]];
        cbn.
      * match goal with
        | |- context [snap (?w', ?tc')] =>
            destruct (Hframe w' tc') as (Hkept & Hcgs & Htab);
            destruct (snap (w', tc')) as [[w2 tc2] [r|e]]
        end; cbn in Hkept, Hcgs, Htab; [|destruct (exn_cls e)]; cbn;
          (split; [|split; [exact Hcgs | intros _; exact (Htab (Hsome t1))]]).
        { apply (kept_set _ tc tc2);
            [apply list_elem_of_further, list_elem_of_here|].
          exact (kept_more _ _ _ _ Hkeys Hkept). }
        all: exact (kept_more _ _ _ _ Hkeys Hkept).
      * destruct (exn_cls e); cbn;
          (split; [apply kept_same | split; [reflexivity | intros _; apply Hsome]]).
    + destruct (exn_cls e); cbn;
        (split; [apply kept_same | split; [reflexivity | intros _; apply Hsome]]).
  - rewrite (ToolsFacts.guard_not_initialized E _ w tc Htable). cbn.
    split; [apply kept_same|]. split; [reflexivity | intros H; exact H].
Qed.

Lemma check_game_over_frame (w : World E) (tc : ToolContext) :
  fst (check_game_over E (w, tc)) = (w, tc).
Proof.
  destruct (game_table E w) as [t|] eqn:Htable; unfold check_game_over.
  - rewrite (ToolsFacts.guard_initialized E _ w tc t Htable).
    unfold try_except, bind.
    rewrite (ToolsFacts.the_table_initialized E w tc t Htable).
    destruct (if done E t then _ else _) as [final_stacks winner]. reflexivity.
  - rewrite (ToolsFacts.guard_not_initialized E _ w tc Htable). reflexivity.
Qed.

Lemma get_player_hand_frame (w : World E) (tc : ToolContext) (player_seat : Z) :
  fst (get_player_hand E player_seat (w, tc)) = (w, tc).
Proof.
  destruct (game_table E w) as [t|] eqn:Htable; unfold get_player_hand.
  - rewrite (ToolsFacts.guard_initialized E _ w tc t Htable).
    unfold try_except, bind.
    rewrite (ToolsFacts.the_table_initialized E w tc t Htable).
    destruct (_ || _); [reflexivity|].
    unfold lift. destruct (index (players E t) player_seat) as [p|e]; reflexivity.
  - rewrite (ToolsFacts.guard_not_initialized E _ w tc Htable). reflexivity.
Qed.

Lemma pot_odds_frame (w : World E) (tc : ToolContext) :
  fst (calculate_pot_odds E (w, tc)) = (w, tc).
Proof.
  destruct (game_table E w) as [t|] eqn:Htable; unfold calculate_pot_odds.
  - rewrite (ToolsFacts.guard_initialized E _ w tc t Htable).
    unfold try_except, bind.
    rewrite (ToolsFacts.the_table_initialized E w tc t Htable).
    destruct (0 <? default 0 (min_call E t)); [|reflexivity].
    unfold lift, truediv, ret.
    destruct (_ =? 0); [reflexivity|].
    destruct (truediv_overflows _ _); [reflexivity|].
    destruct (_ =? 0); [reflexivity|].
    destruct (truediv_overflows _ _); reflexivity.
  - rewrite (ToolsFacts.guard_not_initialized E _ w tc Htable). reflexivity.
Qed.

Lemma get_legal_actions_frame (w : World E) (tc : ToolContext) :
  snd (fst (get_legal_actions E (w, tc))) = tc
  /\ current_game_state E (fst (fst (get_legal_actions E (w, tc))))
     = current_game_state E w
  /\ table_kept E w (fst (fst (get_legal_actions E (w, tc)))).
Proof.
  destruct (game_table E w) as [t|] eqn:Htable; unfold get_legal_actions.
  - rewrite (ToolsFacts.guard_initialized E _ w tc t Htable).
    unfold try_except, bind, call, the_table, lift, raise, ret.
    destruct w as [gt cgs calls]. cbn in Htable. subst gt. cbn.
    assert (Hsome : forall t1 : table E, is_Some (Some t1));
      [intros t1; eexists; reflexivity|].
    destruct (_get_legal_moves E t) as [t' [[]|e]]; cbn;
      [|split; [reflexivity | split; [reflexivity | intros _; apply Hsome]]].
    destruct (legal_moves E t') as [moves|]; cbn;
      [|split; [reflexivity | split; [reflexivity | intros _; apply Hsome]]].
    destruct (current_player E t') as [p|]; cbn;
      [destruct (index (player_pots E t') (seat p)) as [bet|e]; cbn|];
      (split; [reflexivity | split; [reflexivity | intros _; apply Hsome]]).
  - rewrite (ToolsFacts.guard_not_initialized E _ w tc Htable). cbn.
    split; [reflexivity|]. split; [reflexivity | intros H; exact H].
Qed.

(** X20. What the tools that write do to the session context. Each
    writes only its own session keys -- "game_state" and
    "game_table_initialized" for [initialize_poker_game],
    "current_game_state" for [get_game_state], that key and
    "last_action" for [process_player_action] -- and every other key a
    session holds reads as before, as does [actions.escalate], whatever
    the engine does; [exit_game_loop] sets [actions.escalate] and
    leaves the session state alone. *)
Theorem writers_context_frame (w : World E) (tc : ToolContext)
    (initial_stacks small_blind big_blind : Z) (action_name : string) :
  context_kept_outside ["game_state"; "game_table_initialized"] tc
    (snd (fst (initialize_poker_game E initial_stacks small_blind big_blind
                 (w, tc))))
  /\ context_kept_outside ["current_game_state"] tc
       (snd (fst (get_game_state E (w, tc))))
  /\ context_kept_outside ["current_game_state"; "last_action"] tc
       (snd (fst (process_player_action upper E action_name (w, tc))))
  /\ snd (fst (exit_game_loop E (w, tc)))
     = {| state := state tc; actions_escalate := true |}.
Proof.
  split; [apply initialize_frame|]. split; [apply get_game_state_frame|].
  split; [apply process_frame | reflexivity].
Qed.

(** X21. What the tools that write do to the module globals. None of
    them removes an installed table: after any run, failed or not, the guard
    of the next tool still finds one. The global [current_game_state]
    is written by [initialize_poker_game] only -- [get_game_state] and
    [process_player_action] store the snapshot in the session, not in
    the global of the same name. [exit_game_loop] has no
    initialization check and leaves the globals as they are. *)
Theorem writers_globals_frame (w : World E) (tc : ToolContext)
    (initial_stacks small_blind big_blind : Z) (action_name : string) :
  table_kept E w
    (fst (fst (initialize_poker_game E initial_stacks small_blind big_blind
                 (w, tc))))
  /\ (table_kept E w (fst (fst (get_game_state E (w, tc))))
      /\ current_game_state E (fst (fst (get_game_state E (w, tc))))
         = current_game_state E w)
  /\ (table_kept E w (fst (fst (process_player_action upper E action_name (w, tc))))
      /\ current_game_state E
           (fst (fst (process_player_action upper E action_name (w, tc))))
         = current_game_state E w)
  /\ fst (fst (exit_game_loop E (w, tc))) = w.
Proof.
  split; [apply initialize_frame|].
  split; [split; apply get_game_state_frame|].
  split; [split; apply process_frame | reflexivity].
Qed.

(** X22. The queries. [check_game_over], [get_player_hand] and
    [calculate_pot_odds] are read-only: for any globals, seat and
    table they leave globals and context exactly as they were and make
    no engine call. [get_legal_actions] calls into the engine, so the
    table may change, but it keeps a table installed and leaves the
    global game state and the context as they were. *)
Theorem queries_frame (w : World E) (tc : ToolContext) (player_seat : Z) :
  fst (check_game_over E (w, tc)) = (w, tc)
  /\ fst (get_player_hand E player_seat (w, tc)) = (w, tc)
  /\ fst (calculate_pot_odds E (w, tc)) = (w, tc)
  /\ (snd (fst (get_legal_actions E (w, tc))) = tc
      /\ current_game_state E (fst (fst (get_legal_actions E (w, tc))))
         = current_game_state E w
      /\ table_kept E w (fst (fst (get_legal_actions E (w, tc))))).
Proof.
  split; [apply check_game_over_frame|]. split; [apply get_player_hand_frame|].
  split; [apply pot_odds_frame | apply get_legal_actions_frame].
Qed.

End Boundary.
End ToolsExtra.

(** ** The tools run on the scripted engine *)

Module ExtraExamples.
Import Py Demo.

Local Abbreviation quiet := (Stub.engine (Stub.quiet (F := float))).
Local Abbreviation no_table := (Stub.engine (Stub.no_table (F := float))).
Local Abbreviation no_reset := (Stub.engine (Stub.no_reset (F := float))).
Local Abbreviation no_env := (Stub.engine (Stub.no_env (F := float))).
Local Abbreviation key_error_step :=
  (Stub.engine (Stub.bad_step (F := float) (Stub.failure KeyError "'seat'"))).
Local Abbreviation closed_step :=
  (Stub.engine (Stub.bad_step (F := float) (Stub.failure OtherError "table closed"))).
Local Abbreviation context := (Stub.context (F := float)).
Local Abbreviation CALL := {| member_name := "CALL"; member_value := 2 |}.

(** An [info] dictionary with numpy scalars, an array, an enum member
    and a dictionary keyed by seat numbers converts to native values,
    and converting again changes nothing. *)
Lemma convert_yields_native_witness :
  Shape.converts_fully (Stub.sample_info Inf) = true
  /\ Shape.native (Tools._convert_numpy_types (Stub.sample_info Inf)) = true
  /\ Tools._convert_numpy_types (Tools._convert_numpy_types (Stub.sample_info Inf))
     = Tools._convert_numpy_types (Stub.sample_info Inf).
Proof.
  split; [reflexivity|].
  exact (ToolsExtra.convert_yields_native (Stub.sample_info Inf) eq_refl).
Defined.

(** What the conversion does not reach: the keys of a dictionary, an
    object of another kind, and the elements of an array of objects
    come back as they are. *)
Lemma convert_leaves_keys_and_objects :
  Tools._convert_numpy_types (F := float) (PMap [(PNpInt 1, PNpInt 5)])
  = PMap [(PNpInt 1, PInt 5)]
  /\ Tools._convert_numpy_types (F := float) (POther "set")
     = POther "set"
  /\ Tools._convert_numpy_types (F := float) (PNpArray [PNpInt 1; PStr "a"])
     = PList [PNpInt 1; PStr "a"]
  /\ Tools._convert_numpy_types (F := float) (PNpArray [PNpInt 1; PNpBool true])
     = PList [PInt 1; PBool true].
Proof. repeat split; reflexivity. Qed.

(** Seat -1 is refused, seat 1 is Bob's. *)
Lemma get_player_hand_bounds_witness :
  Tools.game_table quiet (Stub.world Stub.quiet Stub.table0) = Some Stub.table0
  /\ Tools.get_player_hand quiet (-1) (Stub.world Stub.quiet Stub.table0, context)
     = ((Stub.world Stub.quiet Stub.table0, context),
        Return (PDict [("status", PStr "error");
                       ("message", PStr "Invalid player seat: -1")]))
  /\ Tools.get_player_hand quiet 1 (Stub.world Stub.quiet Stub.table0, context)
     = ((Stub.world Stub.quiet Stub.table0, context),
        Return (PDict [("status", PStr "success");
                       ("player_name", PStr "Bob");
                       ("seat", PInt 1);
                       ("hand_cards", PList [PStr "KH"; PStr "KD"]);
                       ("stack", PInt 30)])).
Proof.
  split; [reflexivity|]. split.
  - exact (proj1 (ToolsExtra.get_player_hand_bounds quiet
                    (Stub.world Stub.quiet Stub.table0) context Stub.table0 (-1)
                    eq_refl)
             (or_introl eq_refl)).
  - apply (proj2 (ToolsExtra.get_player_hand_bounds quiet
                    (Stub.world Stub.quiet Stub.table0) context Stub.table0 1
                    eq_refl)
             (Stub.player 1 "Bob" 30 ["KH"; "KD"])); [lia | reflexivity].
Defined.

(** The seat to act is -1: the bet is read from the end of [player_pots]. *)
Lemma get_legal_actions_result_witness :
  Tools.game_table quiet (Stub.world Stub.quiet Stub.table0) = Some Stub.table0
  /\ Tools._get_legal_moves quiet Stub.table0 = (Stub.touch Stub.table0, Return tt)
  /\ Tools.legal_moves quiet (Stub.touch Stub.table0) = Some Stub.actions
  /\ exists r,
       snd (Tools.get_legal_actions quiet
              (Stub.world Stub.quiet Stub.table0, context)) = Return r
       /\ field "legal_actions" r
          = Some (PList [PStr "FOLD"; PStr "CHECK"; PStr "CALL"])
       /\ field "current_player_seat" r = Some (PInt (-1))
       /\ field "current_bet" r = Some (PInt 5).
Proof.
  do 3 (split; [reflexivity|]).
  destruct (ToolsExtra.get_legal_actions_result quiet
              (Stub.world Stub.quiet Stub.table0) context
              Stub.table0 (Stub.touch Stub.table0) Stub.actions
              eq_refl eq_refl eq_refl) as (_ & Hseat & _).
  pose proof (Hseat (Stub.player (-1) "Bob" 30 ["KH"; "KD"]) 5 eq_refl
                (or_intror (conj eq_refl (conj (Z.le_refl 0) eq_refl)))) as Hrun.
  eexists. split; [exact (f_equal snd Hrun)|].
  repeat split; reflexivity.
Defined.

(** The refresh of the engine fails: the error dictionary, the context
    as it was. *)
Lemma get_game_state_engine_failure_witness :
  Tools.game_table no_env (Stub.world Stub.no_env Stub.table0) = Some Stub.table0
  /\ Tools._get_environment no_env Stub.table0
     = (Stub.touch Stub.table0, Raise (Stub.failure OtherError "no observation"))
  /\ Tools.get_game_state no_env (Stub.world Stub.no_env Stub.table0, context)
     = (((Stub.world_after Stub.no_env (Stub.touch Stub.table0)
            [Tools.CallGetEnvironment]), context),
        Return (PDict [("status", PStr "error");
                       ("message",
                         PStr "Error getting game state: no observation")])).
Proof.
  do 2 (split; [reflexivity|]).
  exact (ToolsExtra.get_game_state_engine_failure no_env
           (Stub.world Stub.no_env Stub.table0) context
           Stub.table0 (Stub.touch Stub.table0)
           (Stub.failure OtherError "no observation") eq_refl eq_refl).
Defined.

(** The snapshot is stored; the key "user" of the session is still there. *)
Lemma get_game_state_session_witness :
  Tools.game_table quiet (Stub.world Stub.quiet Stub.table0) = Some Stub.table0
  /\ Tools._get_environment quiet Stub.table0 = (Stub.touch Stub.table0, Return tt)
  /\ exists r tc',
       fst (Tools.get_game_state quiet (Stub.world Stub.quiet Stub.table0, context))
       = ((Stub.world_after Stub.quiet (Stub.touch Stub.table0)
            [Tools.CallGetEnvironment]), tc')
       /\ dict_get "current_game_state" (Tools.state tc') = Some r
       /\ dict_get "user" (Tools.state tc') = Some (PStr "ann").
Proof.
  do 2 (split; [reflexivity|]).
  destruct (ToolsExtra.get_game_state_session quiet
              (Stub.world Stub.quiet Stub.table0) context
              Stub.table0 (Stub.touch Stub.table0) eq_refl eq_refl)
    as (r & tc' & Hrun & Hstored & Hother & _).
  exists r, tc'. split; [exact (f_equal fst Hrun)|]. split; [exact Hstored|].
  rewrite Hother by discriminate. reflexivity.
Defined.

(** Bob sits at position 1, past the end of [player_pots] and of the
    alive flags: no bet, not active. *)
Lemma snapshot_player_entries_witness :
  Tools.game_table quiet (Stub.world Stub.quiet Stub.table0) = Some Stub.table0
  /\ Tools._get_environment quiet Stub.table0 = (Stub.touch Stub.table0, Return tt)
  /\ exists r entries entry,
       snd (Tools.get_game_state quiet (Stub.world Stub.quiet Stub.table0, context))
       = Return r
       /\ field "players" r = Some (PList entries)
       /\ length entries = 2%nat
       /\ entries !! 1%nat = Some entry
       /\ field "name" entry = Some (PStr "Bob")
       /\ field "current_bet" entry = Some (PInt 0)
       /\ field "is_active" entry = Some (PBool false).
Proof.
  do 2 (split; [reflexivity|]).
  destruct (ToolsExtra.snapshot_player_entries quiet
              (Stub.world Stub.quiet Stub.table0) context
              Stub.table0 (Stub.touch Stub.table0) eq_refl eq_refl)
    as (env' & r & entries & Hrun & Hplayers & Hlength & Hentries).
  destruct (Hentries 1%nat (Stub.player 1 "Bob" 30 ["KH"; "KD"]) eq_refl)
    as (entry & Hentry & _ & Hname & _ & Hbet & Hactive).
  exists r, entries, entry. split; [exact (f_equal snd Hrun)|].
  split; [exact Hplayers|]. split; [exact Hlength|]. split; [exact Hentry|].
  split; [exact Hname|]. split; [exact Hbet | exact Hactive].
Defined.

(** The table has no stage and no winner yet. *)
Lemma snapshot_defaults_witness :
  Tools.game_table quiet (Stub.world Stub.quiet Stub.table0) = Some Stub.table0
  /\ Tools._get_environment quiet Stub.table0 = (Stub.touch Stub.table0, Return tt)
  /\ exists r,
       snd (Tools.get_game_state quiet (Stub.world Stub.quiet Stub.table0, context))
       = Return r
       /\ field "stage" r = Some (PStr "UNKNOWN")
       /\ field "winner" r = Some PNone
       /\ field "min_call" r = Some (PInt 2).
Proof.
  do 2 (split; [reflexivity|]).
  destruct (ToolsExtra.snapshot_defaults quiet
              (Stub.world Stub.quiet Stub.table0) context
              Stub.table0 (Stub.touch Stub.table0) eq_refl eq_refl)
    as (env' & r & Hrun & Hstage & _ & Hwinner & Hcall & _).
  exists r. split; [exact (f_equal snd Hrun)|].
  split; [exact Hstage|]. split; [exact Hwinner | exact Hcall].
Defined.

(** "call" is echoed in lower case; reward and info come back native. *)
Lemma process_action_success_witness :
  Tools.game_table quiet (Stub.world Stub.quiet Stub.table0) = Some Stub.table0
  /\ enum_getitem (Tools.Action quiet) (upper "call") = Return CALL
  /\ Tools.step quiet 2 Stub.table0
     = (Stub.touch Stub.table0,
        Return (PNone, PNpInt 3, false, PDict [("seat", PNpInt 1)]))
  /\ Tools._get_environment quiet (Stub.touch Stub.table0)
     = (Stub.touch (Stub.touch Stub.table0), Return tt)
  /\ exists r,
       snd (Tools.process_player_action upper quiet "call"
              (Stub.world Stub.quiet Stub.table0, context)) = Return r
       /\ field "action_taken" r = Some (PStr "call")
       /\ field "reward" r = Some (PInt 3)
       /\ field "info" r = Some (PDict [("seat", PInt 1)]).
Proof.
  do 4 (split; [reflexivity|]).
  destruct (ToolsExtra.process_action_success upper quiet
              (Stub.world Stub.quiet Stub.table0) context
              Stub.table0 (Stub.touch Stub.table0)
              (Stub.touch (Stub.touch Stub.table0)) CALL "call"
              PNone (PNpInt 3) (PDict [("seat", PNpInt 1)]) false
              eq_refl eq_refl eq_refl eq_refl)
    as (snapshot & result & tc' & Hrun & Hresult & _).
  exists result. split; [exact (f_equal snd Hrun)|].
  rewrite Hresult. repeat split; reflexivity.
Defined.

(** The engine raises a [KeyError] inside [step]: the valid name "call"
    is reported as invalid, and the table has been stepped. *)
Lemma engine_key_error_misreported_witness :
  Tools.game_table key_error_step
    (Stub.world (Stub.bad_step (Stub.failure KeyError "'seat'")) Stub.table0)
  = Some Stub.table0
  /\ enum_getitem (Tools.Action key_error_step) (upper "call") = Return CALL
  /\ Tools.step key_error_step 2 Stub.table0
     = (Stub.touch Stub.table0, Raise (Stub.failure KeyError "'seat'"))
  /\ exn_cls (Stub.failure KeyError "'seat'") = KeyError
  /\ Tools.process_player_action upper key_error_step "call"
       (Stub.world (Stub.bad_step (Stub.failure KeyError "'seat'")) Stub.table0,
        context)
     = ((Stub.world_after (Stub.bad_step (Stub.failure KeyError "'seat'"))
           (Stub.touch Stub.table0) [Tools.CallStep 2], context),
        Return (PDict [("status", PStr "error");
                       ("message",
                         PStr "Invalid action: call. Valid actions are: ['FOLD', 'CHECK', 'CALL']")])).
Proof.
  do 4 (split; [reflexivity|]).
  exact (ToolsExtra.engine_key_error_misreported upper key_error_step
           (Stub.world (Stub.bad_step (Stub.failure KeyError "'seat'")) Stub.table0)
           context Stub.table0 (Stub.touch Stub.table0) CALL "call"
           (Stub.failure KeyError "'seat'") eq_refl eq_refl eq_refl eq_refl).
Defined.

(** The engine raises another exception inside [step]. *)
Lemma engine_step_failure_witness :
  Tools.game_table closed_step
    (Stub.world (Stub.bad_step (Stub.failure OtherError "table closed")) Stub.table0)
  = Some Stub.table0
  /\ enum_getitem (Tools.Action closed_step) (upper "call") = Return CALL
  /\ Tools.step closed_step 2 Stub.table0
     = (Stub.touch Stub.table0, Raise (Stub.failure OtherError "table closed"))
  /\ exn_cls (Stub.failure OtherError "table closed") <> KeyError
  /\ Tools.process_player_action upper closed_step "call"
       (Stub.world (Stub.bad_step (Stub.failure OtherError "table closed"))
          Stub.table0, context)
     = ((Stub.world_after (Stub.bad_step (Stub.failure OtherError "table closed"))
           (Stub.touch Stub.table0) [Tools.CallStep 2], context),
        Return (PDict [("status", PStr "error");
                       ("message", PStr "Error processing action: table closed")])).
Proof.
  assert (Hcls : exn_cls (Stub.failure OtherError "table closed") <> KeyError)
    by discriminate.
  do 3 (split; [reflexivity|]). split; [exact Hcls|].
  exact (ToolsExtra.engine_step_failure upper closed_step
           (Stub.world (Stub.bad_step (Stub.failure OtherError "table closed"))
              Stub.table0)
           context Stub.table0 (Stub.touch Stub.table0) CALL "call"
           (Stub.failure OtherError "table closed") eq_refl eq_refl eq_refl Hcls).
Defined.

(** "CALL" is one of the listed names: [step] is called with 2. *)
Lemma listed_names_accepted_witness :
  Tools.game_table quiet (Stub.world Stub.quiet Stub.table0) = Some Stub.table0
  /\ NoDup (map member_name (Tools.Action quiet))
  /\ CALL ∈ Tools.Action quiet
  /\ upper (member_name CALL) = member_name CALL
  /\ exists rest,
       Tools.engine_calls quiet
         (fst (fst (Tools.process_player_action upper quiet (member_name CALL)
                      (Stub.world Stub.quiet Stub.table0, context))))
       = Tools.engine_calls quiet (Stub.world Stub.quiet Stub.table0)
         ++ Tools.CallStep (member_value CALL) :: rest.
Proof.
  assert (Hnodup : NoDup (map member_name (Tools.Action quiet))).
  { repeat (constructor;
            [intros H;
             repeat (apply elem_of_cons in H as [H|H]; [discriminate H|]);
             inversion H|]).
    constructor. }
  assert (Hin : CALL ∈ Tools.Action quiet)
    by apply list_elem_of_further, list_elem_of_further, list_elem_of_here.
  split; [reflexivity|]. split; [exact Hnodup|]. split; [exact Hin|].
  split; [reflexivity|].
  exact (ToolsExtra.listed_names_accepted upper quiet
           (Stub.world Stub.quiet Stub.table0) context Stub.table0 CALL
           eq_refl Hnodup Hin eq_refl).
Defined.

(** "call" and "Call" are the same action. *)
Lemma action_name_case_insensitive_witness :
  upper "call" = upper "Call"
  /\ fst (fst (Tools.process_player_action upper quiet "call"
                 (Stub.world Stub.quiet Stub.table0, context)))
     = fst (fst (Tools.process_player_action upper quiet "Call"
                   (Stub.world Stub.quiet Stub.table0, context))).
Proof.
  split; [reflexivity|].
  exact (ToolsExtra.action_name_case_insensitive upper quiet
           (Stub.world Stub.quiet Stub.table0) context "call" "Call" eq_refl).
Defined.

(** Pots of -2 against a call of 2: the answer is the status "error"
    dictionary, and the reason is the division by zero. *)
Lemma pot_odds_edge_cases_witness :
  Tools.game_table quiet (Stub.world Stub.quiet Stub.table_odd) = Some Stub.table_odd
  /\ exists r,
       Tools.calculate_pot_odds quiet (Stub.world Stub.quiet Stub.table_odd, context)
       = ((Stub.world Stub.quiet Stub.table_odd, context), Return r)
       /\ field "status" r = Some (PStr "error")
       /\ 0 < default 0 (Tools.min_call quiet Stub.table_odd)
       /\ r = PDict [("status", PStr "error");
                     ("message",
                       PStr "Error calculating pot odds: division by zero")].
Proof.
  split; [reflexivity|].
  destruct (ToolsExtra.pot_odds_edge_cases quiet
              (Stub.world Stub.quiet Stub.table_odd) context Stub.table_odd eq_refl)
    as (r & Hrun & _ & Herror).
  assert (Hanswer : snd (Tools.calculate_pot_odds quiet
                           (Stub.world Stub.quiet Stub.table_odd, context))
                    = Return (Tools.error_dict
                                "Error calculating pot odds: division by zero"))
    by reflexivity.
  assert (Hstatus : field "status" r = Some (PStr "error")).
  { assert (Hsame : Return r
                    = Return (Tools.error_dict (F := float)
                                "Error calculating pot odds: division by zero"))
      by exact (eq_trans (eq_sym (f_equal snd Hrun)) Hanswer).
    injection Hsame as ->. reflexivity. }
  exists r. split; [exact Hrun|]. split; [exact Hstatus|].
  destruct (Herror Hstatus) as (Hcall & [[_ Hzero]|[_ Hover]]).
  - split; [exact Hcall | exact Hzero].
  - exfalso. rewrite Hover in Hrun.
    pose proof (eq_trans (eq_sym (f_equal snd Hrun)) Hanswer) as Hsame.
    discriminate Hsame.
Defined.

(** The constructor refuses the blinds: the running game stays. *)
Lemma initialize_constructor_failure_witness :
  Tools.HoldemTable no_table 100 2 1 false false 2 false
  = Raise (Stub.failure OtherError "bad blinds")
  /\ Tools.initialize_poker_game no_table 100 2 1
       (Stub.world Stub.no_table Stub.table0, context)
     = (((Stub.world_after Stub.no_table Stub.table0
            [Tools.CallHoldemTable 100 2 1 false false 2 false]), context),
        Return (PDict [("status", PStr "error");
                       ("message",
                         PStr "Failed to initialize game: bad blinds")])).
Proof.
  split; [reflexivity|].
  exact (ToolsExtra.initialize_constructor_failure no_table
           (Stub.world Stub.no_table Stub.table0) context 100 2 1
           (Stub.failure OtherError "bad blinds") eq_refl).
Defined.

Local Abbreviation reset_fails :=
  (Tools.initialize_poker_game no_reset 100 1 2
     (Stub.world Stub.no_reset Stub.table_odd, context)).

(** [reset] fails on the new table: the old table is gone all the same,
    the new one sits in the global after three calls on it. *)
Lemma initialize_setup_failure_witness :
  Tools.HoldemTable no_reset 100 1 2 false false 2 false = Return Stub.table0
  /\ reset_fails
     = ((Stub.world_after Stub.no_reset
           (Stub.touch (Stub.touch (Stub.touch Stub.table0)))
           [Tools.CallHoldemTable 100 1 2 false false 2 false;
            Tools.CallAddPlayer "Player1"; Tools.CallAddPlayer "Player2";
            Tools.CallReset], context),
        Return (PDict [("status", PStr "error");
                       ("message",
                         PStr "Failed to initialize game: deck exhausted")]))
  /\ exists t' e,
       Tools.game_table no_reset (fst (fst reset_fails)) = Some t'
       /\ Tools.reset no_reset (Stub.touch (Stub.touch Stub.table0)) = (t', Raise e)
       /\ snd (fst reset_fails) = context.
Proof.
  assert (Hrun : reset_fails
     = ((Stub.world_after Stub.no_reset
           (Stub.touch (Stub.touch (Stub.touch Stub.table0)))
           [Tools.CallHoldemTable 100 1 2 false false 2 false;
            Tools.CallAddPlayer "Player1"; Tools.CallAddPlayer "Player2";
            Tools.CallReset], context),
        Return (PDict [("status", PStr "error");
                       ("message",
                         PStr "Failed to initialize game: deck exhausted")])))
    by reflexivity.
  split; [reflexivity|]. split; [exact Hrun|].
  destruct (ToolsExtra.initialize_setup_failure no_reset
              (Stub.world Stub.no_reset Stub.table_odd) _ context _ _
              100 1 2 Stub.table0 eq_refl Hrun eq_refl)
    as (t' & e & Htable & _ & _ & _ & Hwhere).
  exists t', e. split; [exact Htable|]. split; [|reflexivity].
  destruct Hwhere as [Hadd1|(t1 & Hadd1 & [Hadd2|(t2 & Hadd2 & Hreset)])].
  - discriminate Hadd1.
  - discriminate Hadd2.
  - injection Hadd1 as <-. injection Hadd2 as <-. exact Hreset.
Defined.

Local Abbreviation quiet_start :=
  (Tools.initialize_poker_game quiet 100 1 2
     (Stub.world Stub.quiet Stub.table_odd, context)).

(** The session holds the game state that the global holds. *)
Lemma initialize_session_witness :
  field "status"
    (PDict [("status", PStr "success");
            ("message", PStr "Poker game initialized with 2 players");
            ("game_state",
              Tools.current_game_state quiet (fst (fst quiet_start)))])
  = Some (PStr (F := float) "success")
  /\ quiet_start
     = ((fst (fst quiet_start), snd (fst quiet_start)),
        Return (PDict [("status", PStr "success");
                       ("message", PStr "Poker game initialized with 2 players");
                       ("game_state",
                         Tools.current_game_state quiet (fst (fst quiet_start)))]))
  /\ dict_get "game_state" (Tools.state (snd (fst quiet_start)))
     = Some (PDict [("game_initialized", PBool true);
                    ("num_players", PInt 2);
                    ("initial_stacks", PInt 100);
                    ("small_blind", PInt 1);
                    ("big_blind", PInt 2);
                    ("current_hand", PInt 1)])
  /\ dict_get "game_table_initialized" (Tools.state (snd (fst quiet_start)))
     = Some (PBool true)
  /\ dict_get "user" (Tools.state (snd (fst quiet_start))) = Some (PStr "ann").
Proof.
  assert (Hrun : quiet_start
     = ((fst (fst quiet_start), snd (fst quiet_start)),
        Return (PDict [("status", PStr "success");
                       ("message", PStr "Poker game initialized with 2 players");
                       ("game_state",
                         Tools.current_game_state quiet (fst (fst quiet_start)))])))
    by reflexivity.
  split; [reflexivity|]. split; [exact Hrun|].
  destruct (ToolsExtra.initialize_session quiet
              (Stub.world Stub.quiet Stub.table_odd) _ context _ _
              100 1 2 Hrun eq_refl)
    as (Hsession & _ & Hflag).
  split; [exact Hsession|]. split; [exact Hflag | reflexivity].
Defined.

End ExtraExamples.
